(** * TCP three-way handshake simulator: the handshake engine

    A shallow embedding of the state machine of
    [src/components/TCPHandshakeSimulator.tsx] (the variant with retries) and
    of the simpler variant without the retry loop ([SimpleTCPSimulator]).

    The component keeps its state in React [useState] cells.  A handler such
    as [executeNextStep] is a closure created by one render: every state
    variable it READS is the value of that render (the snapshot), while every
    [setX] it calls WRITES to the store that the next render will show.  The
    embedding keeps the two apart: each handler takes the snapshot [snap] it
    closes over and runs in a state monad over the store.  Updater calls of
    the form [setLogs(prev => ...)] read the store, as React's update queue
    does.

    Numbers: an ISN is an integer; a draw of [Math.random()] is the rational
    value of the double it returns.  The product inside
    [Math.floor(Math.random() * 10000)] is the double product, the exact
    product rounded to 53 significant bits ([Js.times]).  The comparison
    [Math.random() < 0.3] is made with 3/10, which on the draws [k / 2^53]
    that [Math.random()] returns decides as the double behind [0.3] does
    ([threshold_exact_on_grid]).

    Time: a handler is asynchronous, and it is embedded twice.  Run in one
    piece, from its call to its end ([executeNextStep], [applyOp],
    [reachable]), it gives the pages between runs.  Run from one wait to the
    next ([executeNextStepStart], [resume], [rendered]), it gives also the
    pages shown while a run waits for a timer or an animation, on which the
    controls that are not disabled can still be used.  What a handler writes
    between two waits reaches the page together, React batching the updates
    made in one task.  The two embeddings agree: resumed wait by wait a run
    ends in the store that the handler run in one piece gives
    ([executeNextStep_by_waits]).

    Left out of the embedding: the durations of timers and animations (every
    wait ends, the animation always calls its [complete] callback), and the
    wall-clock [id] and [timestamp] of a log entry. *)

From Stdlib Require Import String Ascii ZArith QArith Qround List Lia Bool.
From Stdlib Require Import DecimalString.
Import ListNotations.

Local Open Scope string_scope.
Local Open Scope Z_scope.

(** ** JavaScript helpers *)

Module Js.

(** [String.prototype.toLowerCase] on strings of ASCII characters, the only
    ones the component passes: the letters A-Z are lowered, the other
    characters are left as they are.  The case folding of characters outside
    ASCII is not modelled; [isAscii] marks the strings on which this
    definition is the JavaScript function. *)
Definition lower_ascii (c : ascii) : ascii :=
  let n := nat_of_ascii c in
  if (andb (65 <=? n) (n <=? 90))%nat then ascii_of_nat (n + 32) else c.

Fixpoint toLowerCase (s : string) : string :=
  match s with
  | EmptyString => EmptyString
  | String c r => String (lower_ascii c) (toLowerCase r)
  end.

Fixpoint isAscii (s : string) : bool :=
  match s with
  | EmptyString => true
  | String c r => (nat_of_ascii c <? 128)%nat && isAscii r
  end.

(** Truthiness of an optional number, as tested by [x ? a : b]:
    [undefined] and [0] are falsy. *)
Definition truthy (o : option Z) : bool :=
  match o with
  | Some n => negb (n =? 0)
  | None => false
  end.

(** A number inside a template literal; only integers occur here.  An
    absent field is never rendered, the callers test [truthy] first. *)
Definition show (n : Z) : string := NilZero.string_of_int (Z.to_int n).

(** [a < b] on the rationals standing for the doubles [Math.random()] and
    the literal [0.3]. *)
Definition ltb (a b : Q) : bool := (Qnum a * QDen b <? Qnum b * QDen a)%Z.

(** The double that the literal [0.3] denotes, 5404319552844595 / 2^54, and
    a draw with 53 random bits, [k / 2^53]. *)
Definition double_0_3 : Q := (5404319552844595 # 18014398509481984)%Q.
Definition grid53 (k : Z) : Q := (k # 9007199254740992)%Q.

(** The largest double below 1, [1 - 2^-53]: no draw is above it. *)
Definition maxDraw : Q := (9007199254740991 # 9007199254740992)%Q.

(** *** Double arithmetic

    The quotient [n / d] rounded to the nearest integer, a tie going to the
    even one. *)
Definition roundNearestEven (n d : Z) : Z :=
  let q := n / d in
  let r := n mod d in
  if 2 * r <? d then q
  else if d <? 2 * r then q + 1
  else if Z.even q then q else q + 1.

(** The binary exponent of [n / d] for positive [n] and [d]: the [e] with
    [2^e <= n / d < 2^(e+1)]. *)
Definition exponent (n d : Z) : Z :=
  let e := Z.log2 n - Z.log2 d in
  if (if 0 <=? e then n <? d * 2 ^ e else n * 2 ^ (- e) <? d) then e - 1 else e.

(** The double nearest to a rational: 53 significant bits, round to nearest,
    ties to even.  The exponent range of a double is not modelled; the
    products formed here lie between 0 and 10000. *)
Definition roundDouble (x : Q) : Q :=
  let n := Z.abs (Qnum x) in
  let d := Z.pos (Qden x) in
  if n =? 0 then 0%Q
  else
    let s := 52 - exponent n d in
    let r := if 0 <=? s
             then (roundNearestEven (n * 2 ^ s) d # Z.to_pos (2 ^ s))%Q
             else inject_Z (roundNearestEven n (d * 2 ^ (- s)) * 2 ^ (- s)) in
    if Qnum x <? 0 then (- r)%Q else r.

(** [a * b] on doubles. *)
Definition times (a b : Q) : Q := roundDouble (a * b).

End Js.

(** ** Data model *)

Inductive TCPState := CLOSED | SYN_SENT | SYN_RECEIVED | ESTABLISHED | FAILED.
Inductive ConnectionStatus := idle | connecting | established | failed.
Inductive SimulationMode := mode_auto | mode_step.
Inductive PacketLoss := loss_none | loss_syn | loss_syn_ack | loss_ack | loss_random.
Inductive PacketType := SYN | SYN_ACK | ACK.
Inductive Direction := client_to_server | server_to_client.
Inductive LogType := log_info | log_success | log_error | log_warning.

(** The string literals behind the two unions that the loss oracle compares. *)
Definition PacketLoss_str (p : PacketLoss) : string :=
  match p with
  | loss_none => "none"
  | loss_syn => "syn"
  | loss_syn_ack => "syn-ack"
  | loss_ack => "ack"
  | loss_random => "random"
  end.

Definition PacketType_str (k : PacketType) : string :=
  match k with
  | SYN => "SYN"
  | SYN_ACK => "SYN-ACK"
  | ACK => "ACK"
  end.

Record LogEntry := mkLog { message : string; type : LogType }.

Record PacketAnimation := mkPacket {
  ptype : PacketType;
  seq : option Z;
  ack : option Z;
  direction : Direction
}.

(** The [useState] cells of [TCPHandshakeSimulator]. *)
Record Sim := mkSim {
  clientState : TCPState;
  serverState : TCPState;
  connectionStatus : ConnectionStatus;
  logs : list LogEntry;
  simulationMode : SimulationMode;
  packetLoss : PacketLoss;
  animationSpeed : Z;
  randomizeISN : bool;
  currentStep : Z;
  isSimulating : bool;
  retryCount : Z;
  clientISN : Z;
  serverISN : Z;
  clientSeq : Z;
  serverSeq : Z
}.

(** The store a handler writes to, with what it consumes from outside: the
    values [Math.random()] will return ([draws], of which [drawn] are used)
    and whether [packetRef.current] and [canvasRef.current] are attached. *)
Record World := mkWorld {
  sim : Sim;
  draws : nat -> Q;
  drawn : nat;
  refsAttached : bool
}.

(** The initial values given to [useState]. *)
Definition initialSim : Sim :=
  {| clientState := CLOSED; serverState := CLOSED; connectionStatus := idle;
     logs := []; simulationMode := mode_auto; packetLoss := loss_none;
     animationSpeed := 2000; randomizeISN := true; currentStep := 0;
     isSimulating := false; retryCount := 0;
     clientISN := 1000; serverISN := 2000; clientSeq := 1000; serverSeq := 2000 |}.

(** ** The store monad *)

Definition Act (A : Type) : Type := World -> A * World.

Definition ret {A} (a : A) : Act A := fun w => (a, w).

Definition bind {A B} (m : Act A) (k : A -> Act B) : Act B :=
  fun w => let (a, w') := m w in k a w'.

Declare Scope act_scope.
Delimit Scope act_scope with act.
Notation "x <- m ;; k" := (bind m (fun x => k))
  (at level 61, m at next level, right associativity) : act_scope.
Notation "m ;; k" := (bind m (fun _ => k))
  (at level 61, right associativity) : act_scope.
Local Open Scope act_scope.

Definition exec {A} (m : Act A) (w : World) : World := snd (m w).
Definition result {A} (m : Act A) (w : World) : A := fst (m w).

Definition modify (f : Sim -> Sim) : Act unit :=
  fun w => (tt, {| sim := f (sim w); draws := draws w; drawn := drawn w;
                   refsAttached := refsAttached w |}).

(** [Math.random()]: the next draw. *)
Definition Math_random : Act Q :=
  fun w => (draws w (drawn w),
            {| sim := sim w; draws := draws w; drawn := S (drawn w);
               refsAttached := refsAttached w |}).

Definition refsPresent : Act bool := fun w => (refsAttached w, w).

(** *** State setters *)

Definition with_clientState (v : TCPState) (s : Sim) : Sim :=
  {| clientState := v; serverState := serverState s;
     connectionStatus := connectionStatus s; logs := logs s;
     simulationMode := simulationMode s; packetLoss := packetLoss s;
     animationSpeed := animationSpeed s; randomizeISN := randomizeISN s;
     currentStep := currentStep s; isSimulating := isSimulating s;
     retryCount := retryCount s; clientISN := clientISN s;
     serverISN := serverISN s; clientSeq := clientSeq s; serverSeq := serverSeq s |}.

Definition with_serverState (v : TCPState) (s : Sim) : Sim :=
  {| clientState := clientState s; serverState := v;
     connectionStatus := connectionStatus s; logs := logs s;
     simulationMode := simulationMode s; packetLoss := packetLoss s;
     animationSpeed := animationSpeed s; randomizeISN := randomizeISN s;
     currentStep := currentStep s; isSimulating := isSimulating s;
     retryCount := retryCount s; clientISN := clientISN s;
     serverISN := serverISN s; clientSeq := clientSeq s; serverSeq := serverSeq s |}.

Definition with_connectionStatus (v : ConnectionStatus) (s : Sim) : Sim :=
  {| clientState := clientState s; serverState := serverState s;
     connectionStatus := v; logs := logs s;
     simulationMode := simulationMode s; packetLoss := packetLoss s;
     animationSpeed := animationSpeed s; randomizeISN := randomizeISN s;
     currentStep := currentStep s; isSimulating := isSimulating s;
     retryCount := retryCount s; clientISN := clientISN s;
     serverISN := serverISN s; clientSeq := clientSeq s; serverSeq := serverSeq s |}.

Definition with_logs (f : list LogEntry -> list LogEntry) (s : Sim) : Sim :=
  {| clientState := clientState s; serverState := serverState s;
     connectionStatus := connectionStatus s; logs := f (logs s);
     simulationMode := simulationMode s; packetLoss := packetLoss s;
     animationSpeed := animationSpeed s; randomizeISN := randomizeISN s;
     currentStep := currentStep s; isSimulating := isSimulating s;
     retryCount := retryCount s; clientISN := clientISN s;
     serverISN := serverISN s; clientSeq := clientSeq s; serverSeq := serverSeq s |}.

Definition with_simulationMode (v : SimulationMode) (s : Sim) : Sim :=
  {| clientState := clientState s; serverState := serverState s;
     connectionStatus := connectionStatus s; logs := logs s;
     simulationMode := v; packetLoss := packetLoss s;
     animationSpeed := animationSpeed s; randomizeISN := randomizeISN s;
     currentStep := currentStep s; isSimulating := isSimulating s;
     retryCount := retryCount s; clientISN := clientISN s;
     serverISN := serverISN s; clientSeq := clientSeq s; serverSeq := serverSeq s |}.

Definition with_packetLoss (v : PacketLoss) (s : Sim) : Sim :=
  {| clientState := clientState s; serverState := serverState s;
     connectionStatus := connectionStatus s; logs := logs s;
     simulationMode := simulationMode s; packetLoss := v;
     animationSpeed := animationSpeed s; randomizeISN := randomizeISN s;
     currentStep := currentStep s; isSimulating := isSimulating s;
     retryCount := retryCount s; clientISN := clientISN s;
     serverISN := serverISN s; clientSeq := clientSeq s; serverSeq := serverSeq s |}.

Definition with_animationSpeed (v : Z) (s : Sim) : Sim :=
  {| clientState := clientState s; serverState := serverState s;
     connectionStatus := connectionStatus s; logs := logs s;
     simulationMode := simulationMode s; packetLoss := packetLoss s;
     animationSpeed := v; randomizeISN := randomizeISN s;
     currentStep := currentStep s; isSimulating := isSimulating s;
     retryCount := retryCount s; clientISN := clientISN s;
     serverISN := serverISN s; clientSeq := clientSeq s; serverSeq := serverSeq s |}.

Definition with_randomizeISN (v : bool) (s : Sim) : Sim :=
  {| clientState := clientState s; serverState := serverState s;
     connectionStatus := connectionStatus s; logs := logs s;
     simulationMode := simulationMode s; packetLoss := packetLoss s;
     animationSpeed := animationSpeed s; randomizeISN := v;
     currentStep := currentStep s; isSimulating := isSimulating s;
     retryCount := retryCount s; clientISN := clientISN s;
     serverISN := serverISN s; clientSeq := clientSeq s; serverSeq := serverSeq s |}.

Definition with_currentStep (v : Z) (s : Sim) : Sim :=
  {| clientState := clientState s; serverState := serverState s;
     connectionStatus := connectionStatus s; logs := logs s;
     simulationMode := simulationMode s; packetLoss := packetLoss s;
     animationSpeed := animationSpeed s; randomizeISN := randomizeISN s;
     currentStep := v; isSimulating := isSimulating s;
     retryCount := retryCount s; clientISN := clientISN s;
     serverISN := serverISN s; clientSeq := clientSeq s; serverSeq := serverSeq s |}.

Definition with_isSimulating (v : bool) (s : Sim) : Sim :=
  {| clientState := clientState s; serverState := serverState s;
     connectionStatus := connectionStatus s; logs := logs s;
     simulationMode := simulationMode s; packetLoss := packetLoss s;
     animationSpeed := animationSpeed s; randomizeISN := randomizeISN s;
     currentStep := currentStep s; isSimulating := v;
     retryCount := retryCount s; clientISN := clientISN s;
     serverISN := serverISN s; clientSeq := clientSeq s; serverSeq := serverSeq s |}.

Definition with_retryCount (v : Z) (s : Sim) : Sim :=
  {| clientState := clientState s; serverState := serverState s;
     connectionStatus := connectionStatus s; logs := logs s;
     simulationMode := simulationMode s; packetLoss := packetLoss s;
     animationSpeed := animationSpeed s; randomizeISN := randomizeISN s;
     currentStep := currentStep s; isSimulating := isSimulating s;
     retryCount := v; clientISN := clientISN s;
     serverISN := serverISN s; clientSeq := clientSeq s; serverSeq := serverSeq s |}.

Definition with_clientISN (v : Z) (s : Sim) : Sim :=
  {| clientState := clientState s; serverState := serverState s;
     connectionStatus := connectionStatus s; logs := logs s;
     simulationMode := simulationMode s; packetLoss := packetLoss s;
     animationSpeed := animationSpeed s; randomizeISN := randomizeISN s;
     currentStep := currentStep s; isSimulating := isSimulating s;
     retryCount := retryCount s; clientISN := v;
     serverISN := serverISN s; clientSeq := clientSeq s; serverSeq := serverSeq s |}.

Definition with_serverISN (v : Z) (s : Sim) : Sim :=
  {| clientState := clientState s; serverState := serverState s;
     connectionStatus := connectionStatus s; logs := logs s;
     simulationMode := simulationMode s; packetLoss := packetLoss s;
     animationSpeed := animationSpeed s; randomizeISN := randomizeISN s;
     currentStep := currentStep s; isSimulating := isSimulating s;
     retryCount := retryCount s; clientISN := clientISN s;
     serverISN := v; clientSeq := clientSeq s; serverSeq := serverSeq s |}.

Definition with_clientSeq (v : Z) (s : Sim) : Sim :=
  {| clientState := clientState s; serverState := serverState s;
     connectionStatus := connectionStatus s; logs := logs s;
     simulationMode := simulationMode s; packetLoss := packetLoss s;
     animationSpeed := animationSpeed s; randomizeISN := randomizeISN s;
     currentStep := currentStep s; isSimulating := isSimulating s;
     retryCount := retryCount s; clientISN := clientISN s;
     serverISN := serverISN s; clientSeq := v; serverSeq := serverSeq s |}.

Definition with_serverSeq (v : Z) (s : Sim) : Sim :=
  {| clientState := clientState s; serverState := serverState s;
     connectionStatus := connectionStatus s; logs := logs s;
     simulationMode := simulationMode s; packetLoss := packetLoss s;
     animationSpeed := animationSpeed s; randomizeISN := randomizeISN s;
     currentStep := currentStep s; isSimulating := isSimulating s;
     retryCount := retryCount s; clientISN := clientISN s;
     serverISN := serverISN s; clientSeq := clientSeq s; serverSeq := v |}.

Definition setClientState v : Act unit := modify (with_clientState v).
Definition setServerState v : Act unit := modify (with_serverState v).
Definition setConnectionStatus v : Act unit := modify (with_connectionStatus v).
Definition setLogs (f : list LogEntry -> list LogEntry) : Act unit := modify (with_logs f).
Definition setSimulationMode v : Act unit := modify (with_simulationMode v).
Definition setPacketLoss v : Act unit := modify (with_packetLoss v).
Definition setAnimationSpeed v : Act unit := modify (with_animationSpeed v).
Definition setRandomizeISN v : Act unit := modify (with_randomizeISN v).
Definition setCurrentStep v : Act unit := modify (with_currentStep v).
Definition setIsSimulating v : Act unit := modify (with_isSimulating v).
Definition setRetryCount v : Act unit := modify (with_retryCount v).
Definition setClientISN v : Act unit := modify (with_clientISN v).
Definition setServerISN v : Act unit := modify (with_serverISN v).
Definition setClientSeq v : Act unit := modify (with_clientSeq v).
Definition setServerSeq v : Act unit := modify (with_serverSeq v).

(** ** The component's functions

    Every function takes the snapshot [snap] of the render whose closure it
    is; reads of state variables go to [snap], writes go to the store. *)

(** [generateISN]: one generator, called for the client and for the server. *)
Definition generateISN (snap : Sim) : Act Z :=
  if randomizeISN snap
  then (d <- Math_random ;; ret (Qfloor (Js.times d 10000) + 1000))
  else ret 1000.

(** [addLog]: [setLogs(prev => [...prev, entry])]. *)
Definition addLog (msg : string) (t : LogType) : Act unit :=
  setLogs (fun prev => (prev ++ [mkLog msg t])%list).

Definition resetMessage : string :=
  "Simulation reset. Ready to start TCP 3-Way Handshake.".

Definition resetSimulation (snap : Sim) : Act unit :=
  setClientState CLOSED ;;
  setServerState CLOSED ;;
  setConnectionStatus idle ;;
  setCurrentStep 0 ;;
  setIsSimulating false ;;
  setRetryCount 0 ;;
  newClientISN <- generateISN snap ;;
  newServerISN <- generateISN snap ;;
  setClientISN newClientISN ;;
  setServerISN newServerISN ;;
  setClientSeq newClientISN ;;
  setServerSeq newServerISN ;;
  setLogs (fun _ => []) ;;
  addLog resetMessage log_info.

(** [shouldDropPacket]: the loss oracle.  [packetLoss === 'none'] and
    [packetLoss === 'random'] test the policy; the middle test compares the
    policy's literal with the lower-cased packet type. *)
Definition shouldDropPacket (snap : Sim) (packetType : string) : Act bool :=
  match packetLoss snap with
  | loss_none => ret false
  | _ =>
    if String.eqb (PacketLoss_str (packetLoss snap)) (Js.toLowerCase packetType)
    then ret true
    else match packetLoss snap with
         | loss_random => (d <- Math_random ;; ret (Js.ltb d (3 # 10)))
         | _ => ret false
         end
  end.

Definition Direction_str (d : Direction) : string :=
  match d with
  | client_to_server => "Client → Server"
  | server_to_client => "Server → Client"
  end.

(** The text shown for a packet:
    [`${type}${seq ? ` (seq=${seq}${ack ? `, ack=${ack}` : ''})` : ''}`]. *)
Definition packetLabel (a : PacketAnimation) : string :=
  PacketType_str (ptype a) ++
  (if Js.truthy (seq a)
   then " (seq=" ++ Js.show (match seq a with Some n => n | None => 0 end) ++
        (if Js.truthy (ack a)
         then ", ack=" ++ Js.show (match ack a with Some n => n | None => 0 end)
         else "") ++ ")"
   else "").

(** [animatePacket]: resolves [false] when the refs are missing or the
    packet is dropped, [true] once the transit animation has completed. *)
Definition animatePacket (snap : Sim) (animation : PacketAnimation) : Act bool :=
  present <- refsPresent ;;
  if negb present then ret false
  else
    drop <- shouldDropPacket snap (PacketType_str (ptype animation)) ;;
    if drop
    then addLog ("❌ " ++ PacketType_str (ptype animation) ++ " packet lost!") log_error ;;
         ret false
    else addLog ("📤 " ++ Direction_str (direction animation) ++ ": " ++
                 packetLabel animation) log_info ;;
         ret true.

(** The packet built by each case of [executeStep]. *)
Definition stepPacket (snap : Sim) (step : Z) : option PacketAnimation :=
  match step with
  | 1 => Some {| ptype := SYN; seq := Some (clientSeq snap); ack := None;
                 direction := client_to_server |}
  | 2 => Some {| ptype := SYN_ACK; seq := Some (serverSeq snap);
                 ack := Some (clientSeq snap + 1);
                 direction := server_to_client |}
  | 3 => Some {| ptype := ACK; seq := Some (clientSeq snap + 1);
                 ack := Some (serverSeq snap + 1);
                 direction := client_to_server |}
  | _ => None
  end.

Definition sendStepPacket (snap : Sim) (step : Z) : Act bool :=
  match stepPacket snap step with
  | Some p => animatePacket snap p
  | None => ret false
  end.

(** [executeStep]: one attempt of one handshake step. *)
Definition executeStep (snap : Sim) (step : Z) : Act bool :=
  match step with
  | 1 =>
    setClientState SYN_SENT ;;
    setConnectionStatus connecting ;;
    sendStepPacket snap 1
  | 2 =>
    setServerState SYN_RECEIVED ;;
    sendStepPacket snap 2
  | 3 =>
    success <- sendStepPacket snap 3 ;;
    if success
    then setClientState ESTABLISHED ;;
         setServerState ESTABLISHED ;;
         setConnectionStatus established ;;
         addLog "✅ CONNECTION ESTABLISHED" log_success ;;
         ret true
    else ret false
  | _ => ret false
  end.

Definition maxRetries : Z := 3.

Definition retransmitMessage (attempts : Z) : string :=
  "🔄 Retransmitting... (Attempt " ++ Js.show (attempts + 1) ++ "/" ++
  Js.show maxRetries ++ ")".

(** The block after the [while] loop of [handleStepExecution]. *)
Definition retriesExhausted : Act bool :=
  setConnectionStatus failed ;;
  setClientState FAILED ;;
  setServerState FAILED ;;
  addLog "❌ CONNECTION FAILED - Max retries exceeded" log_error ;;
  setIsSimulating false ;;
  ret false.

(** [while (attempts < maxRetries) { ... }] followed by the failure block.
    [fuel] bounds the iterations; [attempts] grows by one in each, so
    [maxRetries] iterations are enough for the test to turn false. *)
Fixpoint retryLoop (snap : Sim) (step : Z) (fuel : nat) (attempts : Z) : Act bool :=
  match fuel with
  | O => retriesExhausted
  | S fuel' =>
    if attempts <? maxRetries
    then
      success <- executeStep snap step ;;
      if success
      then setRetryCount 0 ;; ret true
      else
        let attempts := attempts + 1 in
        setRetryCount attempts ;;
        (if attempts <? maxRetries
         then addLog (retransmitMessage attempts) log_warning
         else ret tt) ;;
        retryLoop snap step fuel' attempts
    else retriesExhausted
  end.

Definition handleStepExecution (snap : Sim) (step : Z) : Act bool :=
  retryLoop snap step (Z.to_nat maxRetries) 0.

(** [for (let step = 1; step <= 3; step++) { ... }] of [startAutoSimulation].
    The guard [if (!isSimulating) break] reads the render's [isSimulating]. *)
Fixpoint autoLoop (snap : Sim) (fuel : nat) (step : Z) : Act unit :=
  match fuel with
  | O => ret tt
  | S fuel' =>
    if step <=? 3
    then
      if negb (isSimulating snap) then ret tt
      else
        success <- handleStepExecution snap step ;;
        if negb success then ret tt
        else setCurrentStep step ;; autoLoop snap fuel' (step + 1)
    else ret tt
  end.

Definition startAutoSimulation (snap : Sim) : Act unit :=
  setIsSimulating true ;;
  autoLoop snap 4 1 ;;
  setIsSimulating false.

Definition executeNextStep (snap : Sim) : Act unit :=
  if currentStep snap >=? 3 then ret tt
  else
    setIsSimulating true ;;
    let nextStep := currentStep snap + 1 in
    success <- handleStepExecution snap nextStep ;;
    (if success then setCurrentStep nextStep else ret tt) ;;
    setIsSimulating false.

(** ** The user's operations

    A handler invoked from the rendered page closes over the state that page
    shows: the snapshot is the current store. *)

Definition invoke (h : Sim -> Act unit) (w : World) : World := exec (h (sim w)) w.

Inductive Op :=
| OpReset
| OpStart
| OpMode (m : SimulationMode)
| OpLoss (p : PacketLoss)
| OpSpeed (v : Z)
| OpRandomize (b : bool).

(** The Start / Next Step button is
    [disabled={isSimulating || (simulationMode === 'step' && currentStep >= 3)}],
    the Reset button [disabled={isSimulating}]. *)
Definition startDisabled (s : Sim) : bool :=
  isSimulating s ||
  (match simulationMode s with mode_step => true | mode_auto => false end
   && (currentStep s >=? 3)).

Definition applyOp (o : Op) (w : World) : World :=
  match o with
  | OpReset => if isSimulating (sim w) then w else invoke resetSimulation w
  | OpStart =>
    if startDisabled (sim w) then w
    else match simulationMode (sim w) with
         | mode_auto => invoke startAutoSimulation w
         | mode_step => invoke executeNextStep w
         end
  | OpMode m => exec (setSimulationMode m) w
  | OpLoss p => exec (setPacketLoss p) w
  | OpSpeed v => exec (setAnimationSpeed v) w
  | OpRandomize b => exec (setRandomizeISN b) w
  end.

Definition applyOps (os : list Op) (w : World) : World :=
  fold_left (fun w o => applyOp o w) os w.

(** The page after mounting: [useEffect(() => { resetSimulation(); }, [])]
    runs the reset of the first render. *)
Definition mounted (rnd : nat -> Q) : World :=
  invoke resetSimulation
    {| sim := initialSim; draws := rnd; drawn := 0; refsAttached := true |}.

(** The pages between runs: the mounted page and the pages after
    operations each carried out from its click to its end.  The pages shown
    during a run are those of [rendered], below. *)
Definition reachable (w : World) : Prop :=
  exists rnd os, w = applyOps os (mounted rnd).

(** The random source respects the range of [Math.random()], the doubles
    [x] with [0 <= x < 1]: every draw lies between 0 and the largest double
    below 1. *)
Definition validDraws (w : World) : Prop :=
  forall n, (0 <= draws w n)%Q /\ (draws w n <= Js.maxDraw)%Q.

(** ** A run, wait by wait

    The handlers are asynchronous.  A run of [executeNextStep] waits in
    [executeStep] for the promise of [animatePacket], which a lost packet
    resolves after 500 ms and a sent one when its animation ends, and in
    [handleStepExecution] for the 1000 ms before a retransmission.  While a
    run waits the page shows the store as it is then, and the controls that
    are not disabled can be used.  Every [await] of [animatePacket] counts as
    a wait, also when the promise is resolved at once (refs missing).  The
    functions above run a handler from its call to its end; the functions
    below run it from one wait to the next. *)

(** [executeStep] up to its [await]: the value is what the promise of
    [animatePacket] will resolve to. *)
Definition executeStepStart (snap : Sim) (step : Z) : Act bool :=
  match step with
  | 1 =>
    setClientState SYN_SENT ;;
    setConnectionStatus connecting ;;
    sendStepPacket snap 1
  | 2 =>
    setServerState SYN_RECEIVED ;;
    sendStepPacket snap 2
  | 3 => sendStepPacket snap 3
  | _ => ret false
  end.

(** [executeStep] from its [await], the promise having resolved to
    [success]. *)
Definition executeStepEnd (step : Z) (success : bool) : Act bool :=
  match step with
  | 3 =>
    if success
    then setClientState ESTABLISHED ;;
         setServerState ESTABLISHED ;;
         setConnectionStatus established ;;
         addLog "✅ CONNECTION ESTABLISHED" log_success ;;
         ret true
    else ret false
  | _ => ret success
  end.

(** What a run of [executeNextStep] waits for.  [snap] is the snapshot the
    run closes over, so its step is [currentStep snap + 1]; [attempts] is the
    value of the loop variable of [handleStepExecution].  [PacketWait]: the
    promise of [animatePacket], which will resolve to [r].  [RetryWait]: the
    timer before the next attempt. *)
Inductive Pending :=
| PacketWait (snap : Sim) (attempts : Z) (r : bool)
| RetryWait (snap : Sim) (attempts : Z).

(** The end of [executeNextStep], [handleStepExecution] having returned
    [success]. *)
Definition executeNextStepEnd (snap : Sim) (success : bool) : Act unit :=
  (if success then setCurrentStep (currentStep snap + 1) else ret tt) ;;
  setIsSimulating false.

(** The run from the result [r] of an attempt to its next wait, or to its
    end: the rest of [executeStep], the rest of the loop body of
    [handleStepExecution] and, when the loop is left, the rest of the two
    handlers. *)
Definition afterAttempt (snap : Sim) (attempts : Z) (r : bool) : Act (option Pending) :=
  success <- executeStepEnd (currentStep snap + 1) r ;;
  if success
  then setRetryCount 0 ;;
       executeNextStepEnd snap true ;;
       ret None
  else
    let attempts := attempts + 1 in
    setRetryCount attempts ;;
    if attempts <? maxRetries
    then addLog (retransmitMessage attempts) log_warning ;;
         ret (Some (RetryWait snap attempts))
    else failure <- retriesExhausted ;;
         executeNextStepEnd snap failure ;;
         ret None.

(** The run from the test of the loop of [handleStepExecution] to its next
    wait. *)
Definition nextAttempt (snap : Sim) (attempts : Z) : Act (option Pending) :=
  if attempts <? maxRetries
  then r <- executeStepStart snap (currentStep snap + 1) ;;
       ret (Some (PacketWait snap attempts r))
  else failure <- retriesExhausted ;;
       executeNextStepEnd snap failure ;;
       ret None.

(** [executeNextStep] from the click to its first wait. *)
Definition executeNextStepStart (snap : Sim) : Act (option Pending) :=
  if currentStep snap >=? 3 then ret None
  else setIsSimulating true ;; nextAttempt snap 0.

(** A wait ends. *)
Definition resume (p : Pending) : Act (option Pending) :=
  match p with
  | PacketWait snap attempts r => afterAttempt snap attempts r
  | RetryWait snap attempts => nextAttempt snap attempts
  end.


(** A click on Start / Next Step.  The button is enabled only on a page that
    shows [isSimulating] as [false]; the loop of [startAutoSimulation] then
    ends at its first test, before any wait. *)
Definition clickStart (snap : Sim) : Act (option Pending) :=
  match simulationMode snap with
  | mode_auto => startAutoSimulation snap ;; ret None
  | mode_step => executeNextStepStart snap
  end.

Definition isConfig (o : Op) : bool :=
  match o with
  | OpReset | OpStart => false
  | _ => true
  end.

Definition waiting (p : option Pending) : list Pending :=
  match p with
  | Some p => [p]
  | None => []
  end.

(** The pages the component renders, each with the waits of the runs in
    progress: the mounted page; a page after a change of configuration,
    which is never disabled; after a click on an enabled Reset or Start
    button; and after the end of a wait. *)
Inductive rendered : World -> list Pending -> Prop :=
| rendered_mounted (rnd : nat -> Q) : rendered (mounted rnd) []
| rendered_config (o : Op) (w : World) (ps : list Pending) :
    isConfig o = true -> rendered w ps -> rendered (applyOp o w) ps
| rendered_reset (w : World) (ps : list Pending) :
    isSimulating (sim w) = false -> rendered w ps ->
    rendered (invoke resetSimulation w) ps
| rendered_start (w : World) (ps : list Pending) :
    startDisabled (sim w) = false -> rendered w ps ->
    rendered (exec (clickStart (sim w)) w)
             (ps ++ waiting (result (clickStart (sim w)) w))
| rendered_resume (w : World) (ps1 : list Pending) (p : Pending) (ps2 : list Pending) :
    rendered w (ps1 ++ p :: ps2) ->
    rendered (exec (resume p) w) (ps1 ++ waiting (result (resume p) w) ++ ps2).

(** ** The variant without retries ([SimpleTCPSimulator])

    The same executor over ISNs that are fixed when the component mounts; its
    log keeps the last five lines.  Written with explicit state passing.  The
    clock prefix of a log line is left out. *)

Module Simple.

Record Sim := mkSim {
  clientState : TCPState;
  serverState : TCPState;
  connectionStatus : ConnectionStatus;
  simulationMode : SimulationMode;
  packetLoss : PacketLoss;
  animationSpeed : Z;
  randomizeISN : bool;
  currentStep : Z;
  isSimulating : bool;
  logs : list string;
  clientISN : Z;
  serverISN : Z
}.

Record World := mkWorld {
  sim : Sim;
  draws : nat -> Q;
  drawn : nat;
  refsAttached : bool
}.

(** The lazy initialisers of the two ISN cells. *)
Definition initClientISN (randomize : bool) (d : Q) : Z :=
  if randomize then Qfloor (Js.times d 10000) + 1000 else 1000.

Definition initServerISN (randomize : bool) (d : Q) : Z :=
  if randomize then Qfloor (Js.times d 10000) + 2000 else 2000.

(** The first render: [randomizeISN] starts as [true] and the initialisers
    take the first two draws. *)
Definition initialWorld (rnd : nat -> Q) : World :=
  {| sim := {| clientState := CLOSED; serverState := CLOSED;
               connectionStatus := idle; simulationMode := mode_auto;
               packetLoss := loss_none; animationSpeed := 2000;
               randomizeISN := true; currentStep := 0; isSimulating := false;
               logs := [];
               clientISN := initClientISN true (rnd 0%nat);
               serverISN := initServerISN true (rnd 1%nat) |};
     draws := rnd; drawn := 2; refsAttached := true |}.

Definition onSim (f : Sim -> Sim) (w : World) : World :=
  {| sim := f (sim w); draws := draws w; drawn := drawn w;
     refsAttached := refsAttached w |}.

Definition setClientState (v : TCPState) : World -> World :=
  onSim (fun s =>
    {| clientState := v; serverState := serverState s;
       connectionStatus := connectionStatus s; simulationMode := simulationMode s;
       packetLoss := packetLoss s; animationSpeed := animationSpeed s;
       randomizeISN := randomizeISN s; currentStep := currentStep s;
       isSimulating := isSimulating s; logs := logs s;
       clientISN := clientISN s; serverISN := serverISN s |}).

Definition setServerState (v : TCPState) : World -> World :=
  onSim (fun s =>
    {| clientState := clientState s; serverState := v;
       connectionStatus := connectionStatus s; simulationMode := simulationMode s;
       packetLoss := packetLoss s; animationSpeed := animationSpeed s;
       randomizeISN := randomizeISN s; currentStep := currentStep s;
       isSimulating := isSimulating s; logs := logs s;
       clientISN := clientISN s; serverISN := serverISN s |}).

Definition setConnectionStatus (v : ConnectionStatus) : World -> World :=
  onSim (fun s =>
    {| clientState := clientState s; serverState := serverState s;
       connectionStatus := v; simulationMode := simulationMode s;
       packetLoss := packetLoss s; animationSpeed := animationSpeed s;
       randomizeISN := randomizeISN s; currentStep := currentStep s;
       isSimulating := isSimulating s; logs := logs s;
       clientISN := clientISN s; serverISN := serverISN s |}).

Definition setLogs (f : list string -> list string) : World -> World :=
  onSim (fun s =>
    {| clientState := clientState s; serverState := serverState s;
       connectionStatus := connectionStatus s; simulationMode := simulationMode s;
       packetLoss := packetLoss s; animationSpeed := animationSpeed s;
       randomizeISN := randomizeISN s; currentStep := currentStep s;
       isSimulating := isSimulating s; logs := f (logs s);
       clientISN := clientISN s; serverISN := serverISN s |}).

(** [prev.slice(-4)]: the last four elements, or all when there are fewer. *)
Definition sliceLast4 {A} (l : list A) : list A := skipn (length l - 4) l.

(** [addLog]: [setLogs(prev => [...prev.slice(-4), line])].  The line is the
    message; its wall-clock prefix is left out. *)
Definition addLog (msg : string) : World -> World :=
  setLogs (fun prev => (sliceLast4 prev ++ [msg])%list).

Definition shouldDropPacket (snap : Sim) (packetType : string) (w : World)
  : bool * World :=
  match packetLoss snap with
  | loss_none => (false, w)
  | _ =>
    if String.eqb (PacketLoss_str (packetLoss snap)) (Js.toLowerCase packetType)
    then (true, w)
    else match packetLoss snap with
         | loss_random =>
           (Js.ltb (draws w (drawn w)) (3 # 10),
            {| sim := sim w; draws := draws w; drawn := S (drawn w);
               refsAttached := refsAttached w |})
         | _ => (false, w)
         end
  end.

Definition animatePacket (snap : Sim) (animation : PacketAnimation) (w : World)
  : bool * World :=
  if negb (refsAttached w) then (false, w)
  else
    let (drop, w1) := shouldDropPacket snap (PacketType_str (ptype animation)) w in
    if drop
    then (false, addLog ("❌ " ++ PacketType_str (ptype animation) ++ " packet lost!") w1)
    else (true, addLog ("📤 " ++ Direction_str (direction animation) ++ ": " ++
                        packetLabel animation) w1).

Definition executeStep (snap : Sim) (step : Z) (w : World) : bool * World :=
  match step with
  | 1 =>
    let w1 := setConnectionStatus connecting (setClientState SYN_SENT w) in
    animatePacket snap
      {| ptype := SYN; seq := Some (clientISN snap); ack := None;
         direction := client_to_server |} w1
  | 2 =>
    let w1 := setServerState SYN_RECEIVED w in
    animatePacket snap
      {| ptype := SYN_ACK; seq := Some (serverISN snap);
         ack := Some (clientISN snap + 1); direction := server_to_client |} w1
  | 3 =>
    let (success, w1) :=
      animatePacket snap
        {| ptype := ACK; seq := Some (clientISN snap + 1);
           ack := Some (serverISN snap + 1); direction := client_to_server |} w in
    if success
    then (true,
          addLog "✅ CONNECTION ESTABLISHED"
            (setConnectionStatus established
               (setServerState ESTABLISHED (setClientState ESTABLISHED w1))))
    else (false, w1)
  | _ => (false, w)
  end.

(** The remaining setters, the reset and the two drivers of the variant. *)

Definition setSimulationMode (v : SimulationMode) : World -> World :=
  onSim (fun s =>
    {| clientState := clientState s; serverState := serverState s;
       connectionStatus := connectionStatus s; simulationMode := v;
       packetLoss := packetLoss s; animationSpeed := animationSpeed s;
       randomizeISN := randomizeISN s; currentStep := currentStep s;
       isSimulating := isSimulating s; logs := logs s;
       clientISN := clientISN s; serverISN := serverISN s |}).

Definition setPacketLoss (v : PacketLoss) : World -> World :=
  onSim (fun s =>
    {| clientState := clientState s; serverState := serverState s;
       connectionStatus := connectionStatus s; simulationMode := simulationMode s;
       packetLoss := v; animationSpeed := animationSpeed s;
       randomizeISN := randomizeISN s; currentStep := currentStep s;
       isSimulating := isSimulating s; logs := logs s;
       clientISN := clientISN s; serverISN := serverISN s |}).

Definition setAnimationSpeed (v : Z) : World -> World :=
  onSim (fun s =>
    {| clientState := clientState s; serverState := serverState s;
       connectionStatus := connectionStatus s; simulationMode := simulationMode s;
       packetLoss := packetLoss s; animationSpeed := v;
       randomizeISN := randomizeISN s; currentStep := currentStep s;
       isSimulating := isSimulating s; logs := logs s;
       clientISN := clientISN s; serverISN := serverISN s |}).

Definition setRandomizeISN (v : bool) : World -> World :=
  onSim (fun s =>
    {| clientState := clientState s; serverState := serverState s;
       connectionStatus := connectionStatus s; simulationMode := simulationMode s;
       packetLoss := packetLoss s; animationSpeed := animationSpeed s;
       randomizeISN := v; currentStep := currentStep s;
       isSimulating := isSimulating s; logs := logs s;
       clientISN := clientISN s; serverISN := serverISN s |}).

Definition setCurrentStep (v : Z) : World -> World :=
  onSim (fun s =>
    {| clientState := clientState s; serverState := serverState s;
       connectionStatus := connectionStatus s; simulationMode := simulationMode s;
       packetLoss := packetLoss s; animationSpeed := animationSpeed s;
       randomizeISN := randomizeISN s; currentStep := v;
       isSimulating := isSimulating s; logs := logs s;
       clientISN := clientISN s; serverISN := serverISN s |}).

Definition setIsSimulating (v : bool) : World -> World :=
  onSim (fun s =>
    {| clientState := clientState s; serverState := serverState s;
       connectionStatus := connectionStatus s; simulationMode := simulationMode s;
       packetLoss := packetLoss s; animationSpeed := animationSpeed s;
       randomizeISN := randomizeISN s; currentStep := currentStep s;
       isSimulating := v; logs := logs s;
       clientISN := clientISN s; serverISN := serverISN s |}).

(** [resetSimulation]: the ISNs are not touched. *)
Definition resetSimulation (w : World) : World :=
  addLog resetMessage
    (setLogs (fun _ => [])
       (setIsSimulating false
          (setCurrentStep 0
             (setConnectionStatus idle
                (setServerState CLOSED (setClientState CLOSED w)))))).

(** The failure block shared by the two drivers. *)
Definition connectionFailed (w : World) : World :=
  addLog "❌ CONNECTION FAILED"
    (setServerState FAILED (setClientState FAILED (setConnectionStatus failed w))).

(** The [for] loop of [startAutoSimulation]; a failed step ends the run at
    once. *)
Fixpoint autoLoop (snap : Sim) (fuel : nat) (step : Z) (w : World) : World :=
  match fuel with
  | O => w
  | S fuel' =>
    if step <=? 3
    then
      if negb (isSimulating snap) then w
      else
        let (success, w1) := executeStep snap step w in
        if negb success then connectionFailed w1
        else autoLoop snap fuel' (step + 1) (setCurrentStep step w1)
    else w
  end.

Definition startAutoSimulation (snap : Sim) (w : World) : World :=
  setIsSimulating false (autoLoop snap 4 1 (setIsSimulating true w)).

Definition executeNextStep (snap : Sim) (w : World) : World :=
  if currentStep snap >=? 3 then w
  else
    let nextStep := currentStep snap + 1 in
    let (success, w1) := executeStep snap nextStep (setIsSimulating true w) in
    setIsSimulating false
      (if success then setCurrentStep nextStep w1 else connectionFailed w1).

(** The user's operations on the variant's page; the buttons are disabled
    as in the other component. *)
Definition startDisabled (s : Sim) : bool :=
  isSimulating s ||
  (match simulationMode s with mode_step => true | mode_auto => false end
   && (currentStep s >=? 3)).

Definition applyOp (o : Op) (w : World) : World :=
  match o with
  | OpReset => if isSimulating (sim w) then w else resetSimulation w
  | OpStart =>
    if startDisabled (sim w) then w
    else match simulationMode (sim w) with
         | mode_auto => startAutoSimulation (sim w) w
         | mode_step => executeNextStep (sim w) w
         end
  | OpMode m => setSimulationMode m w
  | OpLoss p => setPacketLoss p w
  | OpSpeed v => setAnimationSpeed v w
  | OpRandomize b => setRandomizeISN b w
  end.

Definition applyOps (os : list Op) (w : World) : World :=
  fold_left (fun w o => applyOp o w) os w.

Definition mounted (rnd : nat -> Q) : World := resetSimulation (initialWorld rnd).

(** The pages between runs; the pages shown during a run are those of
    [rendered], below. *)
Definition reachable (w : World) : Prop :=
  exists rnd os, w = applyOps os (mounted rnd).

(** *** A run of the variant, wait by wait

    A run of [executeNextStep] waits once, in [executeStep], for the promise
    of [animatePacket]. *)

(** [executeStep] up to its [await] and from it. *)
Definition executeStepStart (snap : Sim) (step : Z) (w : World) : bool * World :=
  match step with
  | 1 =>
    let w1 := setConnectionStatus connecting (setClientState SYN_SENT w) in
    animatePacket snap
      {| ptype := SYN; seq := Some (clientISN snap); ack := None;
         direction := client_to_server |} w1
  | 2 =>
    let w1 := setServerState SYN_RECEIVED w in
    animatePacket snap
      {| ptype := SYN_ACK; seq := Some (serverISN snap);
         ack := Some (clientISN snap + 1); direction := server_to_client |} w1
  | 3 =>
    animatePacket snap
      {| ptype := ACK; seq := Some (clientISN snap + 1);
         ack := Some (serverISN snap + 1); direction := client_to_server |} w
  | _ => (false, w)
  end.

Definition executeStepEnd (step : Z) (success : bool) (w : World) : bool * World :=
  match step with
  | 3 =>
    if success
    then (true,
          addLog "✅ CONNECTION ESTABLISHED"
            (setConnectionStatus established
               (setServerState ESTABLISHED (setClientState ESTABLISHED w))))
    else (false, w)
  | _ => (success, w)
  end.

(** What a run waits for: the promise of [animatePacket], which will resolve
    to [r]; [snap] is the snapshot the run closes over. *)
Inductive Pending := PacketWait (snap : Sim) (r : bool).

(** [executeNextStep] from the click to its wait, and from the wait to its
    end. *)
Definition executeNextStepStart (snap : Sim) (w : World) : option Pending * World :=
  if currentStep snap >=? 3 then (None, w)
  else
    let nextStep := currentStep snap + 1 in
    let (r, w1) := executeStepStart snap nextStep (setIsSimulating true w) in
    (Some (PacketWait snap r), w1).

Definition resume (p : Pending) (w : World) : World :=
  match p with
  | PacketWait snap r =>
    let nextStep := currentStep snap + 1 in
    let (success, w1) := executeStepEnd nextStep r w in
    setIsSimulating false
      (if success then setCurrentStep nextStep w1 else connectionFailed w1)
  end.

(** A click on Start / Next Step.  The button is enabled only on a page that
    shows [isSimulating] as [false]; the loop of [startAutoSimulation] then
    ends at its first test, before any wait. *)
Definition clickStart (snap : Sim) (w : World) : option Pending * World :=
  match simulationMode snap with
  | mode_auto => (None, startAutoSimulation snap w)
  | mode_step => executeNextStepStart snap w
  end.

Definition waiting (p : option Pending) : list Pending :=
  match p with
  | Some p => [p]
  | None => []
  end.

(** The pages the variant renders, each with the waits of the runs in
    progress. *)
Inductive rendered : World -> list Pending -> Prop :=
| rendered_mounted (rnd : nat -> Q) : rendered (mounted rnd) []
| rendered_config (o : Op) (w : World) (ps : list Pending) :
    isConfig o = true ->
    rendered w ps -> rendered (applyOp o w) ps
| rendered_reset (w : World) (ps : list Pending) :
    isSimulating (sim w) = false -> rendered w ps ->
    rendered (resetSimulation w) ps
| rendered_start (w : World) (ps : list Pending) :
    startDisabled (sim w) = false -> rendered w ps ->
    rendered (snd (clickStart (sim w) w)) (ps ++ waiting (fst (clickStart (sim w) w)))
| rendered_resume (w : World) (ps1 : list Pending) (p : Pending) (ps2 : list Pending) :
    rendered w (ps1 ++ p :: ps2) -> rendered (resume p w) (ps1 ++ ps2).

End Simple.

(** ** What the page derives from the state *)

(** The two banners, the three step indicators ([currentStep >= step]) and
    the retry badge ([retryCount > 0]). *)
Definition establishedBanner (s : Sim) : bool :=
  match connectionStatus s with established => true | _ => false end.

Definition failedBanner (s : Sim) : bool :=
  match connectionStatus s with failed => true | _ => false end.

Definition stepIndicator (s : Sim) (step : Z) : bool := currentStep s >=? step.

Definition retryBadge (s : Sim) : bool := retryCount s >? 0.

(** ** Notions used in the statements *)

(** [keeps proj m]: running [m] leaves the observation [proj] of the world
    as it was. *)
Definition keeps {A X} (proj : World -> X) (m : Act A) : Prop :=
  forall w, proj (exec m w) = proj w.

(** What the page shows of a run, the ISNs and sequence numbers apart. *)
Definition observable (s : Sim) :=
  (clientState s, serverState s, connectionStatus s, currentStep s,
   retryCount s, logs s).

(** The terminal failure state. *)
Definition failedState (s : Sim) : Prop :=
  connectionStatus s = failed /\ clientState s = FAILED /\ serverState s = FAILED.

(** What [handleStepExecution] does between a failed attempt and the next
    test of its loop: [attempts] is the number of failures so far. *)
Definition afterFailedAttempt (attempts : Z) : Act unit :=
  setRetryCount attempts ;;
  (if attempts <? maxRetries
   then addLog (retransmitMessage attempts) log_warning
   else ret tt).

(** The store in which attempt number [n] (from 0) starts, the earlier ones
    having failed. *)
Fixpoint attemptWorld (snap : Sim) (step : Z) (n : nat) (w : World) : World :=
  match n with
  | O => w
  | S m =>
    exec (afterFailedAttempt (Z.of_nat (S m)))
      (exec (executeStep snap step) (attemptWorld snap step m w))
  end.

Definition attemptSucceeds (snap : Sim) (step : Z) (n : nat) (w : World) : bool :=
  result (executeStep snap step) (attemptWorld snap step n w).

(** The step that sends a packet of kind [k], and the loss policy that drops
    exactly that kind. *)
Definition stepOf (k : PacketType) : Z :=
  match k with SYN => 1 | SYN_ACK => 2 | ACK => 3 end.

Definition lossOf (k : PacketType) : PacketLoss :=
  match k with SYN => loss_syn | SYN_ACK => loss_syn_ack | ACK => loss_ack end.

(** Every attempt of the step sending [k] will be dropped in [w]: the policy
    drops that kind, or the policy is random and the next three draws are
    below 0.3. *)
Definition dropsAll (snap : Sim) (k : PacketType) (w : World) : Prop :=
  packetLoss snap = lossOf k \/
  (packetLoss snap = loss_random /\
   forall i, (i < 3)%nat -> (draws w (drawn w + i) < 3 # 10)%Q).

(** The log lines of a step whose packet of kind [k] is dropped three times. *)
Definition lostLine (k : PacketType) : LogEntry :=
  mkLog ("❌ " ++ PacketType_str k ++ " packet lost!") log_error.

Definition exhaustedTrace (k : PacketType) : list LogEntry :=
  [ lostLine k;
    mkLog "🔄 Retransmitting... (Attempt 2/3)" log_warning;
    lostLine k;
    mkLog "🔄 Retransmitting... (Attempt 3/3)" log_warning;
    lostLine k;
    mkLog "❌ CONNECTION FAILED - Max retries exceeded" log_error ].

(** The four sequence-number cells. *)
Definition numbers (w : World) : Z * Z * Z * Z :=
  (clientISN (sim w), serverISN (sim w), clientSeq (sim w), serverSeq (sim w)).

(** The stored sequence numbers are the ISNs. *)
Definition seqIsISN (s : Sim) : Prop :=
  clientSeq s = clientISN s /\ serverSeq s = serverISN s.

(** The log line of a packet that left. *)
Definition sentLine (p : PacketAnimation) : LogEntry :=
  mkLog ("📤 " ++ Direction_str (direction p) ++ ": " ++ packetLabel p) log_info.

Definition establishedLine : LogEntry :=
  mkLog "✅ CONNECTION ESTABLISHED" log_success.

(** The endpoint states and the status; the random source and the refs. *)
Definition endpoints (w : World) : TCPState * TCPState * ConnectionStatus :=
  (clientState (sim w), serverState (sim w), connectionStatus (sim w)).

Definition environment (w : World) : (nat -> Q) * bool :=
  (draws w, refsAttached w).

(** [w'] has used at most [n] draws more than [w]. *)
Definition drawsUpTo (n : nat) (w w' : World) : Prop :=
  (drawn w <= drawn w' <= drawn w + n)%nat.

(** No part of the connection is established. *)
Definition noneEstablished (s : Sim) : Prop :=
  connectionStatus s <> established /\ clientState s <> ESTABLISHED /\
  serverState s <> ESTABLISHED.

Definition allEstablished (s : Sim) : Prop :=
  connectionStatus s = established /\ clientState s = ESTABLISHED /\
  serverState s = ESTABLISHED.

(** The shape of a page on which no handler is running. *)
Definition settled (s : Sim) : Prop :=
  isSimulating s = false /\
  ((currentStep s = 3 /\ allEstablished s) \/
   (0 <= currentStep s < 3 /\ noneEstablished s)) /\
  (retryCount s = 0 \/ (retryCount s = 3 /\ failedState s)).

(** [w'] has the log of [w] followed by at most [n] new entries. *)
Definition extendsLog (n : nat) (w w' : World) : Prop :=
  exists tail, logs (sim w') = (logs (sim w) ++ tail)%list /\ (length tail <= n)%nat.

(** The configuration cells. *)
Definition config (s : Sim) : SimulationMode * PacketLoss * Z * bool :=
  (simulationMode s, packetLoss s, animationSpeed s, randomizeISN s).

(** Both ISNs lie in the range of [generateISN]. *)
Definition isnInRange (s : Sim) : Prop :=
  1000 <= clientISN s <= 10999 /\ 1000 <= serverISN s <= 10999.

(** The last five elements of a list. *)
Definition lastFive {A} (l : list A) : list A := skipn (length l - 5) l.

(** A snapshot and a store of the component correspond to a snapshot and a
    store of the variant without retries: same loss policy, the variant's
    ISNs being the stored sequence numbers; same endpoint states, status,
    random source and refs, the variant's log being the last five messages. *)
Definition snapMatches (snap : Sim) (snap' : Simple.Sim) : Prop :=
  packetLoss snap = Simple.packetLoss snap' /\
  clientSeq snap = Simple.clientISN snap' /\
  serverSeq snap = Simple.serverISN snap'.

Definition storeMatches (w : World) (w' : Simple.World) : Prop :=
  clientState (sim w) = Simple.clientState (Simple.sim w') /\
  serverState (sim w) = Simple.serverState (Simple.sim w') /\
  connectionStatus (sim w) = Simple.connectionStatus (Simple.sim w') /\
  Simple.logs (Simple.sim w') = lastFive (map message (logs (sim w))) /\
  draws w = Simple.draws w' /\ drawn w = Simple.drawn w' /\
  refsAttached w = Simple.refsAttached w'.

(** The shape of a page of the variant on which no handler is running. *)
Definition simpleSettled (s : Simple.Sim) : Prop :=
  Simple.isSimulating s = false /\ 0 <= Simple.currentStep s <= 3 /\
  (length (Simple.logs s) <= 5)%nat.

(** The status and the endpoint states and step counter that go with it. *)
Definition consistentCells
    (status : ConnectionStatus) (client server : TCPState) (step : Z) : Prop :=
  match status with
  | idle => client = CLOSED /\ server = CLOSED /\ step = 0
  | connecting =>
    client = SYN_SENT /\
    ((step = 1 /\ (server = CLOSED \/ server = FAILED)) \/
     (step = 2 /\ server = SYN_RECEIVED))
  | established => client = ESTABLISHED /\ server = ESTABLISHED /\ step = 3
  | failed =>
    client = FAILED /\
    (server = FAILED \/ (server = SYN_RECEIVED /\ step = 2))
  end.

Definition consistent (s : Sim) : Prop :=
  consistentCells (connectionStatus s) (clientState s) (serverState s)
    (currentStep s).

(** The snapshot a waiting run closes over. *)
Definition snapOf (p : Pending) : Sim :=
  match p with
  | PacketWait snap _ _ => snap
  | RetryWait snap _ => snap
  end.

(** The step whose states a page shows: between runs the step counter;
    during a run the step being attempted, which is the counter plus one,
    except that the third step writes its states only once it has
    succeeded. *)
Definition shownStep (ps : list Pending) (s : Sim) : Z :=
  match ps with
  | [] => currentStep s
  | _ => Z.min (currentStep s + 1) 2
  end.

(** The shape of a page during a run that waits for [p]. *)
Definition midRun (p : Pending) (s : Sim) : Prop :=
  isSimulating s = true /\
  currentStep (snapOf p) = currentStep s /\
  0 <= currentStep s < 3 /\
  noneEstablished s /\
  consistentCells (connectionStatus s) (clientState s) (serverState s)
    (Z.min (currentStep s + 1) 2) /\
  match p with
  | PacketWait _ attempts _ =>
    (attempts = 0 /\ (retryCount s = 0 \/ retryCount s = 3)) \/
    (1 <= attempts < 3 /\ retryCount s = attempts)
  | RetryWait _ attempts => 1 <= attempts < 3 /\ retryCount s = attempts
  end.

(** The shape of a rendered page: no run in progress, or one. *)
Definition pageShape (w : World) (ps : list Pending) : Prop :=
  match ps with
  | [] => settled (sim w) /\ consistent (sim w)
  | [p] => midRun p (sim w)
  | _ => False
  end.



(** The shape of a rendered page of the variant: no run in progress, or
    one. *)
Definition simplePageShape (w : Simple.World) (ps : list Simple.Pending) : Prop :=
  match ps with
  | [] => simpleSettled (Simple.sim w)
  | [Simple.PacketWait snap _] =>
    Simple.isSimulating (Simple.sim w) = true /\
    Simple.currentStep snap = Simple.currentStep (Simple.sim w) /\
    0 <= Simple.currentStep (Simple.sim w) < 3 /\
    (length (Simple.logs (Simple.sim w)) <= 5)%nat
  | _ => False
  end.

(** ** Scenarios *)

(** Draws for a run in which the two ISN draws and the next three are 0.1 and
    all later ones 0.9. *)
Definition lowThenHigh : nat -> Q :=
  fun n => if (n <? 5)%nat then (1 # 10)%Q else (9 # 10)%Q.

(** Draws that give the ISNs 1000 and 2000 at the first reset. *)
Definition fixedISNDraws : nat -> Q :=
  fun n => match n with O => 0%Q | _ => (1 # 10)%Q end.

(** Every draw is 0.5. *)
Definition halfDraws : nat -> Q := fun _ => (1 # 2)%Q.

(** Every draw is 0. *)
Definition zeroDraws : nat -> Q := fun _ => 0%Q.

(** Every draw is the double [0.0121], 108987110982366 / 2^53.  Its exact
    product with 10000 lies just below 121; the double product is 121. *)
Definition roundingDraws : nat -> Q := fun _ => Js.grid53 108987110982366.

(** The first render's store before the mounting reset, every draw 0.5. *)
Definition freshWorld : World :=
  {| sim := initialSim; draws := halfDraws; drawn := 0; refsAttached := true |}.

(** Snapshots of the first render with another loss policy, or with
    randomization off. *)
Definition synLossSnap : Sim := with_packetLoss loss_syn initialSim.
Definition synAckLossSnap : Sim := with_packetLoss loss_syn_ack initialSim.
Definition fixedISNSnap : Sim := with_randomizeISN false initialSim.
Definition randomLossSnap : Sim := with_packetLoss loss_random initialSim.

(** The first render's store before the mounting reset, every draw the
    double [0.0121]. *)
Definition roundingWorld : World :=
  {| sim := initialSim; draws := roundingDraws; drawn := 0; refsAttached := true |}.

(** A store whose every draw is 0. *)
Definition zeroWorld : World :=
  {| sim := initialSim; draws := zeroDraws; drawn := 0; refsAttached := true |}.

(** Single-step mode under random loss: the first advance loses the SYN three
    times and fails. *)
Definition failedWorld : World :=
  applyOps [OpMode mode_step; OpLoss loss_random; OpStart] (mounted lowThenHigh).

(** Single-step mode without loss: the page after two and after three
    advances, the ISNs being 1000 and 2000. *)
Definition afterSynAck : World :=
  applyOps [OpMode mode_step; OpStart; OpStart] (mounted fixedISNDraws).

Definition afterAck : World :=
  applyOps [OpMode mode_step; OpStart; OpStart; OpStart] (mounted fixedISNDraws).

(** The mounted page switched to single-step mode, ISNs 1000 and 2000. *)
Definition stepModeFresh : World :=
  applyOp (OpMode mode_step) (mounted fixedISNDraws).

(** The first render of the variant (ISNs 1000 and 3000), and a snapshot and
    a store of the component that correspond to it. *)
Definition simpleFresh : Simple.World := Simple.initialWorld fixedISNDraws.

Definition matchingSnap : Sim := with_serverSeq 3000 initialSim.

Definition matchingWorld : World :=
  {| sim := initialSim; draws := fixedISNDraws; drawn := 2; refsAttached := true |}.

(** Single-step mode with every SYN lost (ISNs 1000 and 2000): the page
    between runs, the page while the first SYN is in its wait, and the page
    during the wait before the first retransmission. *)
Definition synLossPage : World :=
  applyOps [OpMode mode_step; OpLoss loss_syn] (mounted fixedISNDraws).

Definition packetWaitPage : World := exec (clickStart (sim synLossPage)) synLossPage.

Definition retryWaitPage : World :=
  exec (resume (PacketWait (sim synLossPage) 0 false)) packetWaitPage.

(** The variant in single-step mode (ISNs 1000 and 3000), between runs and
    while its first SYN is in its wait. *)
Definition simpleStepPage : Simple.World :=
  Simple.applyOps [OpMode mode_step] (Simple.mounted fixedISNDraws).

Definition simpleWaitPage : Simple.World :=
  snd (Simple.clickStart (Simple.sim simpleStepPage) simpleStepPage).

(** * Properties *)

(** The floor of a draw is never unfolded: the proofs reason about it through
    its bounds. *)
#[local] Arguments Qfloor : simpl never.
#[local] Arguments Qmult : simpl never.
#[local] Arguments Js.ltb : simpl never.
#[local] Arguments Js.times : simpl never.

(** ** The store monad *)

Lemma bind_run {A B} (m : Act A) (k : A -> Act B) (w : World) :
  bind m k w = k (fst (m w)) (snd (m w)).
Proof. unfold bind. destruct (m w) as [a w']. reflexivity. Qed.

Lemma exec_bind {A B} (m : Act A) (k : A -> Act B) (w : World) :
  exec (bind m k) w = exec (k (result m w)) (exec m w).
Proof. unfold exec, result. rewrite bind_run. reflexivity. Qed.

Lemma keeps_ret {A X} (proj : World -> X) (a : A) : keeps proj (ret a).
Proof. intro w. reflexivity. Qed.

Lemma keeps_bind {A B X} (proj : World -> X) (m : Act A) (k : A -> Act B) :
  keeps proj m -> (forall a, keeps proj (k a)) -> keeps proj (bind m k).
Proof.
  intros Hm Hk w. rewrite exec_bind. rewrite Hk. apply Hm.
Qed.

Ltac keeps_step :=
  match goal with
  | |- keeps _ (ret _) => apply keeps_ret
  | |- keeps _ (bind _ _) => apply keeps_bind; [ | intros ? ]
  | |- keeps _ (if ?b then _ else _) => destruct b
  | |- keeps _ (match ?x with _ => _ end) => destruct x
  | |- keeps _ _ => intro; reflexivity
  end.

Ltac keeps_tac := repeat keeps_step.

(** ** The loss oracle *)

Lemma ltb_lt (a b : Q) : Js.ltb a b = true <-> (a < b)%Q.
Proof. unfold Js.ltb, Qlt. apply Z.ltb_lt. Qed.

(** On draws with 53 random bits, comparing with the double behind [0.3]
    and comparing with 3/10 agree. *)
Lemma threshold_exact_on_grid (k : Z) :
  Js.ltb (Js.grid53 k) Js.double_0_3 = Js.ltb (Js.grid53 k) (3 # 10).
Proof.
  unfold Js.ltb, Js.grid53, Js.double_0_3. cbn [Qnum Qden].
  destruct (Z.ltb_spec (k * Z.pos 18014398509481984)
              (5404319552844595 * Z.pos 9007199254740992));
    destruct (Z.ltb_spec (k * Z.pos 10) (3 * Z.pos 9007199254740992));
    try reflexivity; lia.
Qed.

(** The packet kinds are spelled in ASCII. *)
Lemma PacketType_str_ascii (k : PacketType) : Js.isAscii (PacketType_str k) = true.
Proof. destruct k; reflexivity. Qed.

Lemma PacketLoss_str_lower (p : PacketLoss) :
  Js.toLowerCase (PacketLoss_str p) = PacketLoss_str p.
Proof. destruct p; reflexivity. Qed.

(** The oracle writes nothing to the component's state, whatever it is asked. *)
Lemma shouldDropPacket_keeps_sim snap t : keeps sim (shouldDropPacket snap t).
Proof.
  unfold shouldDropPacket. keeps_tac.
Qed.

(** A draw that is one of the [k / 2^53] is compared alike with the double
    behind [0.3] and with 3/10. *)
Lemma threshold_on_grid (d : Q) (k : Z) :
  (d == Js.grid53 k)%Q -> Js.ltb d Js.double_0_3 = Js.ltb d (3 # 10).
Proof.
  intros E. apply eq_true_iff_eq. rewrite !ltb_lt, E, <- !ltb_lt.
  rewrite threshold_exact_on_grid. reflexivity.
Qed.

(** C9. The loss oracle.  Under [none] it answers [false].  Under [syn],
    [syn-ack] or [ack] it answers [true] exactly for the packet kind of that
    name and [false] for the other two kinds; the kind's name is compared
    without regard to case: on every string of ASCII characters the answer is
    whether the string, lowered, is the policy's name.  Under [random] it
    consumes the next draw, each call the next one; the draw being one of the
    [k / 2^53] that [Math.random()] returns, the answer is the comparison of
    the draw with the double behind [0.3], and it is [true] exactly when the
    draw is below 3/10.  It changes nothing else: the component's state is
    returned as it was. *)
Theorem shouldDropPacket_contract (snap : Sim) :
  (forall (k : PacketType) (w : World),
     match packetLoss snap with
     | loss_none => shouldDropPacket snap (PacketType_str k) w = (false, w)
     | loss_syn =>
       shouldDropPacket snap (PacketType_str k) w =
       (match k with SYN => true | _ => false end, w)
     | loss_syn_ack =>
       shouldDropPacket snap (PacketType_str k) w =
       (match k with SYN_ACK => true | _ => false end, w)
     | loss_ack =>
       shouldDropPacket snap (PacketType_str k) w =
       (match k with ACK => true | _ => false end, w)
     | loss_random =>
       forall kd : Z,
         (draws w (drawn w) == Js.grid53 kd)%Q ->
         shouldDropPacket snap (PacketType_str k) w =
         (Js.ltb (draws w (drawn w)) Js.double_0_3,
          {| sim := sim w; draws := draws w; drawn := S (drawn w);
             refsAttached := refsAttached w |}) /\
         (Js.ltb (draws w (drawn w)) Js.double_0_3 = true <->
          (draws w (drawn w) < 3 # 10)%Q)
     end) /\
  (forall (t : string) (w : World),
     Js.isAscii t = true ->
     match packetLoss snap with
     | loss_none | loss_random => True
     | p =>
       shouldDropPacket snap t w =
       (String.eqb (PacketLoss_str p) (Js.toLowerCase t), w)
     end) /\
  (forall (t : string) (w : World),
     sim (exec (shouldDropPacket snap t) w) = sim w).
Proof.
  split; [ | split ].
  - intros k w. unfold shouldDropPacket.
    destruct (packetLoss snap); try (destruct k; reflexivity).
    intros kd E. rewrite (threshold_on_grid _ kd E). split.
    + destruct k; reflexivity.
    + apply ltb_lt.
  - intros t w _. unfold shouldDropPacket.
    destruct (packetLoss snap); try exact I; cbv iota;
      destruct (String.eqb _ _); reflexivity.
  - intros t w. apply shouldDropPacket_keeps_sim.
Qed.

(** ** The step executor *)

Ltac unfold_step :=
  unfold executeStep, sendStepPacket, stepPacket, animatePacket,
    shouldDropPacket, refsPresent, addLog, setLogs, setClientState,
    setServerState, setConnectionStatus, modify, Math_random, bind, ret,
    exec, result.

(** C6. A dropped attempt keeps the state change made before sending: after
    an attempt of step 1 whose SYN is dropped the client is SYN-SENT and the
    status is connecting, and after an attempt of step 2 whose SYN-ACK is
    dropped the server is SYN-RECEIVED; both attempts report failure. *)
Theorem dropped_attempt_keeps_pretransition (snap : Sim) (w : World) :
  refsAttached w = true ->
  (result (shouldDropPacket snap "SYN") w = true ->
   result (executeStep snap 1) w = false /\
   clientState (sim (exec (executeStep snap 1) w)) = SYN_SENT /\
   connectionStatus (sim (exec (executeStep snap 1) w)) = connecting) /\
  (result (shouldDropPacket snap "SYN-ACK") w = true ->
   result (executeStep snap 2) w = false /\
   serverState (sim (exec (executeStep snap 2) w)) = SYN_RECEIVED).
Proof.
  destruct w as [s d n r]. simpl. intros ->.
  split; unfold_step; simpl;
    destruct (packetLoss snap); simpl; try discriminate;
    try (intros _; repeat split; reflexivity);
    destruct (Js.ltb (d n) (3 # 10)); simpl; try discriminate;
    intros _; repeat split; reflexivity.
Qed.

Lemma dropped_attempt_keeps_pretransition_witness :
  (result (executeStep synLossSnap 1) freshWorld = false /\
   clientState (sim (exec (executeStep synLossSnap 1) freshWorld)) = SYN_SENT /\
   connectionStatus (sim (exec (executeStep synLossSnap 1) freshWorld)) = connecting) /\
  (result (executeStep synAckLossSnap 2) freshWorld = false /\
   serverState (sim (exec (executeStep synAckLossSnap 2) freshWorld)) = SYN_RECEIVED).
Proof.
  split.
  - apply (dropped_attempt_keeps_pretransition synLossSnap freshWorld); reflexivity.
  - apply (dropped_attempt_keeps_pretransition synAckLossSnap freshWorld); reflexivity.
Defined.

Ltac unfold_simple_step :=
  unfold Simple.executeStep, Simple.animatePacket, Simple.shouldDropPacket,
    Simple.addLog, Simple.setLogs, Simple.setClientState,
    Simple.setServerState, Simple.setConnectionStatus, Simple.onSim.

(** C10. The executor tests no precondition.  From any store, whatever the
    endpoint states and the step counter are, an attempt of step 1 sets the
    client to SYN-SENT and the status to connecting, and an attempt of step 2
    sets the server to SYN-RECEIVED and succeeds under loss policy [none]
    (the refs being attached).  This holds for the executor of both
    variants. *)
Theorem executeStep_tests_no_precondition
    (snap : Sim) (w : World) (snap' : Simple.Sim) (w' : Simple.World) :
  (clientState (sim (exec (executeStep snap 1) w)) = SYN_SENT /\
   connectionStatus (sim (exec (executeStep snap 1) w)) = connecting /\
   serverState (sim (exec (executeStep snap 2) w)) = SYN_RECEIVED /\
   (packetLoss snap = loss_none -> refsAttached w = true ->
    result (executeStep snap 2) w = true)) /\
  (Simple.clientState (Simple.sim (snd (Simple.executeStep snap' 1 w'))) = SYN_SENT /\
   Simple.connectionStatus (Simple.sim (snd (Simple.executeStep snap' 1 w'))) = connecting /\
   Simple.serverState (Simple.sim (snd (Simple.executeStep snap' 2 w'))) = SYN_RECEIVED /\
   (Simple.packetLoss snap' = loss_none -> Simple.refsAttached w' = true ->
    fst (Simple.executeStep snap' 2 w') = true)).
Proof.
  split.
  - destruct w as [s d n r]. unfold_step. simpl.
    repeat split; try (intros -> ->; reflexivity);
      (destruct r; simpl; [ | reflexivity ]);
      destruct (packetLoss snap); simpl; try reflexivity;
      destruct (Js.ltb (d n) (3 # 10)); reflexivity.
  - destruct w' as [s d n r]. unfold_simple_step. simpl.
    repeat split; try (intros -> ->; reflexivity);
      (destruct r; simpl; [ | reflexivity ]);
      destruct (Simple.packetLoss snap'); simpl; try reflexivity;
      destruct (Js.ltb (d n) (3 # 10)); reflexivity.
Qed.

(** From the failure state with the step counter at 0, an attempt of step 2
    under loss policy [none] succeeds and sets the server to SYN-RECEIVED. *)
Lemma executeStep_tests_no_precondition_witness :
  failedState (sim failedWorld) /\
  currentStep (sim failedWorld) = 0 /\
  result (executeStep initialSim 2) failedWorld = true /\
  serverState (sim (exec (executeStep initialSim 2) failedWorld)) = SYN_RECEIVED /\
  clientState (sim (exec (executeStep initialSim 1) failedWorld)) = SYN_SENT.
Proof.
  split; [ repeat split; vm_compute; reflexivity | ].
  split; [ vm_compute; reflexivity | ].
  destruct (executeStep_tests_no_precondition
              initialSim failedWorld (Simple.sim (Simple.initialWorld halfDraws))
              (Simple.initialWorld halfDraws))
    as ((Hc & _ & Hs & Hr) & _).
  split; [ apply Hr; vm_compute; reflexivity | ].
  split; [ exact Hs | exact Hc ].
Defined.


(** ** The retry controller *)

Section RetryController.

Variables (snap : Sim) (step : Z).

(** One iteration of the loop of [handleStepExecution], entered with fewer
    than [maxRetries] failures. *)
Lemma retryLoop_iteration (fuel : nat) (attempts : Z) (w : World) :
  attempts < maxRetries ->
  retryLoop snap step (S fuel) attempts w =
  if result (executeStep snap step) w
  then (true, exec (setRetryCount 0) (exec (executeStep snap step) w))
  else retryLoop snap step fuel (attempts + 1)
         (exec (afterFailedAttempt (attempts + 1)) (exec (executeStep snap step) w)).
Proof.
  intros Hlt. cbn [retryLoop].
  apply Z.ltb_lt in Hlt. rewrite Hlt.
  unfold afterFailedAttempt, result, exec.
  rewrite bind_run.
  destruct (fst (executeStep snap step w)).
  - rewrite bind_run. reflexivity.
  - rewrite !bind_run. reflexivity.
Qed.

(** Leaving the loop: with [maxRetries] failures the test fails, and the
    failure block runs. *)
Lemma retryLoop_exit (fuel : nat) (attempts : Z) :
  maxRetries <= attempts ->
  retryLoop snap step fuel attempts = retriesExhausted.
Proof.
  intros Hge. destruct fuel; cbn [retryLoop]; [ reflexivity | ].
  apply Z.ltb_ge in Hge. rewrite Hge. reflexivity.
Qed.

(** The loop of [handleStepExecution] makes at most three attempts: it ends
    at the first that succeeds, and runs the failure block after the third
    failure. *)
Lemma handleStepExecution_attempts (w : World) :
  handleStepExecution snap step w =
  if attemptSucceeds snap step 0 w
  then (true, exec (setRetryCount 0)
                (exec (executeStep snap step) (attemptWorld snap step 0 w)))
  else if attemptSucceeds snap step 1 w
  then (true, exec (setRetryCount 0)
                (exec (executeStep snap step) (attemptWorld snap step 1 w)))
  else if attemptSucceeds snap step 2 w
  then (true, exec (setRetryCount 0)
                (exec (executeStep snap step) (attemptWorld snap step 2 w)))
  else (false, exec retriesExhausted (attemptWorld snap step 3 w)).
Proof.
  unfold handleStepExecution, attemptSucceeds.
  change (Z.to_nat maxRetries) with 3%nat.
  cbn [attemptWorld].
  rewrite retryLoop_iteration by (unfold maxRetries; lia).
  destruct (result (executeStep snap step) w); [ reflexivity | ].
  rewrite retryLoop_iteration by (unfold maxRetries; lia).
  change (0 + 1) with (Z.of_nat 1).
  destruct (result (executeStep snap step) _); [ reflexivity | ].
  rewrite retryLoop_iteration by (unfold maxRetries; simpl; lia).
  change (Z.of_nat 1 + 1) with (Z.of_nat 2).
  destruct (result (executeStep snap step) _); [ reflexivity | ].
  rewrite retryLoop_exit by (unfold maxRetries; simpl; lia).
  change (Z.of_nat 2 + 1) with (Z.of_nat 3).
  unfold exec. destruct (retriesExhausted _) as [b w'] eqn:E.
  assert (b = false) as ->
    by (change b with (fst (b, w')); rewrite <- E; reflexivity).
  reflexivity.
Qed.

Lemma handleStepExecution_success_resets (w : World) :
  result (handleStepExecution snap step) w = true ->
  retryCount (sim (exec (handleStepExecution snap step) w)) = 0.
Proof.
  unfold result, exec. rewrite handleStepExecution_attempts.
  destruct (attemptSucceeds snap step 0 w); [ reflexivity | ].
  destruct (attemptSucceeds snap step 1 w); [ reflexivity | ].
  destruct (attemptSucceeds snap step 2 w); [ reflexivity | ].
  discriminate.
Qed.

Lemma handleStepExecution_failure_state (w : World) :
  result (handleStepExecution snap step) w = false ->
  let s' := sim (exec (handleStepExecution snap step) w) in
  failedState s' /\ retryCount s' = 3 /\ isSimulating s' = false.
Proof.
  unfold result, exec. rewrite handleStepExecution_attempts.
  destruct (attemptSucceeds snap step 0 w); [ discriminate | ].
  destruct (attemptSucceeds snap step 1 w); [ discriminate | ].
  destruct (attemptSucceeds snap step 2 w); [ discriminate | ].
  intros _. repeat split.
Qed.

Lemma handleStepExecution_result (w : World) :
  result (handleStepExecution snap step) w =
  attemptSucceeds snap step 0 w || attemptSucceeds snap step 1 w
  || attemptSucceeds snap step 2 w.
Proof.
  unfold result. rewrite handleStepExecution_attempts.
  destruct (attemptSucceeds snap step 0 w); [ reflexivity | ].
  destruct (attemptSucceeds snap step 1 w); [ reflexivity | ].
  destruct (attemptSucceeds snap step 2 w); reflexivity.
Qed.

End RetryController.

Lemma stepOf_sends (snap : Sim) (k : PacketType) :
  option_map ptype (stepPacket snap (stepOf k)) = Some k.
Proof. destruct k; reflexivity. Qed.

Lemma lossOf_matches (k : PacketType) :
  PacketLoss_str (lossOf k) = Js.toLowerCase (PacketType_str k).
Proof. destruct k; reflexivity. Qed.

(** A step whose packet kind is the one the policy drops fails all three
    attempts; the log shows the three losses and the two retransmissions. *)
Lemma handleStepExecution_policy_drop (snap : Sim) (w : World) (k : PacketType) :
  packetLoss snap = lossOf k ->
  refsAttached w = true ->
  result (handleStepExecution snap (stepOf k)) w = false /\
  logs (sim (exec (handleStepExecution snap (stepOf k)) w)) =
    (logs (sim w) ++ exhaustedTrace k)%list /\
  drawn (exec (handleStepExecution snap (stepOf k)) w) = drawn w.
Proof.
  destruct snap, w as [s d n r]. simpl. intros -> ->.
  destruct k; unfold exhaustedTrace, lostLine; simpl;
    repeat split; repeat rewrite <- app_assoc; reflexivity.
Qed.

(** The same under random loss when the next three draws are below 0.3; the
    three attempts consume them. *)
Lemma handleStepExecution_random_drop (snap : Sim) (w : World) (k : PacketType) :
  packetLoss snap = loss_random ->
  (forall i, (i < 3)%nat -> (draws w (drawn w + i) < 3 # 10)%Q) ->
  refsAttached w = true ->
  result (handleStepExecution snap (stepOf k)) w = false /\
  logs (sim (exec (handleStepExecution snap (stepOf k)) w)) =
    (logs (sim w) ++ exhaustedTrace k)%list /\
  drawn (exec (handleStepExecution snap (stepOf k)) w) = (drawn w + 3)%nat.
Proof.
  destruct snap, w as [s d n r].
  cbn [packetLoss draws drawn refsAttached]. intros -> Hd ->.
  assert (L0 : Js.ltb (d n) (3 # 10) = true).
  { apply ltb_lt. rewrite <- (Nat.add_0_r n). apply Hd. lia. }
  assert (L1 : Js.ltb (d (S n)) (3 # 10) = true).
  { apply ltb_lt. replace (S n) with (n + 1)%nat by lia. apply Hd. lia. }
  assert (L2 : Js.ltb (d (S (S n))) (3 # 10) = true).
  { apply ltb_lt. replace (S (S n)) with (n + 2)%nat by lia. apply Hd. lia. }
  replace (n + 3)%nat with (S (S (S n))) by lia.
  destruct k; unfold exhaustedTrace, lostLine;
    cbv -[Js.ltb app]; rewrite L0; cbv -[Js.ltb app];
    rewrite L1; cbv -[Js.ltb app]; rewrite L2; cbv -[Js.ltb app];
    repeat split; repeat rewrite <- app_assoc; reflexivity.
Qed.

Lemma handleStepExecution_all_dropped (snap : Sim) (w : World) (k : PacketType) :
  dropsAll snap k w ->
  refsAttached w = true ->
  result (handleStepExecution snap (stepOf k)) w = false /\
  logs (sim (exec (handleStepExecution snap (stepOf k)) w)) =
    (logs (sim w) ++ exhaustedTrace k)%list.
Proof.
  intros [Hp | [Hp Hd]] Hr.
  - destruct (handleStepExecution_policy_drop snap w k Hp Hr) as (Hf & Hl & _).
    exact (conj Hf Hl).
  - destruct (handleStepExecution_random_drop snap w k Hp Hd Hr) as (Hf & Hl & _).
    exact (conj Hf Hl).
Qed.

(** C2. The retry controller.  When the packet of a step is dropped on
    every attempt (the loss policy is that packet's kind, or it is random and
    the next three draws are below 0.3), the step is attempted exactly three
    times (the log gains three loss lines and two retransmission lines), after
    which both endpoints are FAILED, the status is failed, the retry counter
    is left at 3, the run is halted ([isSimulating] is false) and the
    controller returns failure.  In general the controller returns failure
    exactly when three successive attempts fail, then with that same final
    state; and whenever an attempt succeeds it returns success with the retry
    counter reset to 0. *)
Theorem handleStepExecution_retry_contract (snap : Sim) (w : World) :
  (forall k : PacketType,
     dropsAll snap k w -> refsAttached w = true ->
     let w' := exec (handleStepExecution snap (stepOf k)) w in
     result (handleStepExecution snap (stepOf k)) w = false /\
     logs (sim w') = (logs (sim w) ++ exhaustedTrace k)%list /\
     failedState (sim w') /\ retryCount (sim w') = 3 /\
     isSimulating (sim w') = false) /\
  (forall step : Z,
     let w' := exec (handleStepExecution snap step) w in
     (result (handleStepExecution snap step) w = false <->
      attemptSucceeds snap step 0 w = false /\
      attemptSucceeds snap step 1 w = false /\
      attemptSucceeds snap step 2 w = false) /\
     (result (handleStepExecution snap step) w = false ->
      w' = exec retriesExhausted (attemptWorld snap step 3 w) /\
      failedState (sim w') /\ retryCount (sim w') = 3 /\
      isSimulating (sim w') = false) /\
     (result (handleStepExecution snap step) w = true ->
      retryCount (sim w') = 0)).
Proof.
  split.
  - intros k Hp Hr w'.
    destruct (handleStepExecution_all_dropped snap w k Hp Hr) as (Hf & Hl).
    split; [ exact Hf | ]. split; [ exact Hl | ].
    apply (handleStepExecution_failure_state snap (stepOf k) w Hf).
  - intros step w'. split; [ | split ].
    + rewrite handleStepExecution_result.
      destruct (attemptSucceeds snap step 0 w), (attemptSucceeds snap step 1 w),
        (attemptSucceeds snap step 2 w); simpl; intuition congruence.
    + intros Hf. split.
      * subst w'. unfold exec, result in *.
        rewrite handleStepExecution_attempts in *.
        destruct (attemptSucceeds snap step 0 w); [ discriminate | ].
        destruct (attemptSucceeds snap step 1 w); [ discriminate | ].
        destruct (attemptSucceeds snap step 2 w); [ discriminate | ].
        reflexivity.
      * apply (handleStepExecution_failure_state snap step w Hf).
    + apply handleStepExecution_success_resets.
Qed.

Lemma handleStepExecution_retry_contract_witness :
  (result (handleStepExecution synLossSnap 1) freshWorld = false /\
   logs (sim (exec (handleStepExecution synLossSnap 1) freshWorld)) =
     exhaustedTrace SYN /\
   failedState (sim (exec (handleStepExecution synLossSnap 1) freshWorld)) /\
   retryCount (sim (exec (handleStepExecution synLossSnap 1) freshWorld)) = 3 /\
   isSimulating (sim (exec (handleStepExecution synLossSnap 1) freshWorld)) = false) /\
  result (handleStepExecution randomLossSnap 3) zeroWorld = false /\
  retryCount (sim (exec (handleStepExecution initialSim 1) freshWorld)) = 0.
Proof.
  split; [ | split ].
  - apply (proj1 (handleStepExecution_retry_contract synLossSnap freshWorld) SYN).
    + left. reflexivity.
    + reflexivity.
  - apply (proj1 (handleStepExecution_retry_contract randomLossSnap zeroWorld) ACK).
    + right. split; [ reflexivity | intros i _; reflexivity ].
    + reflexivity.
  - apply (proj2 (handleStepExecution_retry_contract initialSim freshWorld) 1).
    reflexivity.
Defined.

(** ** The run-to-completion driver *)

(** The guard of the loop reads the [isSimulating] of the render that created
    the handler.  When that is [false] the loop is left before its first
    step: the call only writes [false] to [isSimulating]. *)
Lemma startAutoSimulation_guard_closed (snap : Sim) (w : World) :
  isSimulating snap = false ->
  exec (startAutoSimulation snap) w = exec (setIsSimulating false) w.
Proof.
  intros H. destruct w as [s d n r], s.
  unfold startAutoSimulation, exec, bind. simpl. rewrite H. reflexivity.
Qed.

(** The Start button is enabled only while [isSimulating] is [false]. *)
Lemma startDisabled_when_simulating (s : Sim) :
  isSimulating s = true -> startDisabled s = true.
Proof. unfold startDisabled. intros ->. reflexivity. Qed.

(** Were the guard passed (a snapshot with [isSimulating] set), the loop
    under loss policy [none] would run the three steps and establish the
    connection. *)
Lemma startAutoSimulation_guard_open (snap : Sim) (w : World) :
  isSimulating snap = true ->
  packetLoss snap = loss_none ->
  refsAttached w = true ->
  let s' := sim (exec (startAutoSimulation snap) w) in
  connectionStatus s' = established /\ clientState s' = ESTABLISHED /\
  serverState s' = ESTABLISHED /\ currentStep s' = 3.
Proof.
  destruct snap, w as [s d n r]. simpl. intros -> -> ->.
  repeat split.
Qed.

Lemma resetSimulation_not_simulating (snap : Sim) (w : World) :
  isSimulating (sim (exec (resetSimulation snap) w)) = false.
Proof.
  destruct w as [s d n r]. unfold resetSimulation, generateISN, exec.
  destruct (randomizeISN snap); reflexivity.
Qed.

(** Every handler ends by writing [false] to [isSimulating]: on a page the
    user can act on, no run is marked active. *)
Lemma applyOp_not_simulating (o : Op) (w : World) :
  isSimulating (sim w) = false -> isSimulating (sim (applyOp o w)) = false.
Proof.
  intros H. destruct o; cbn [applyOp]; try exact H.
  - rewrite H. apply resetSimulation_not_simulating.
  - destruct (startDisabled (sim w)); [ exact H | ].
    destruct (simulationMode (sim w)); unfold invoke.
    + unfold startAutoSimulation. rewrite !exec_bind. reflexivity.
    + unfold executeNextStep.
      destruct (currentStep (sim w) >=? 3); [ exact H | ].
      rewrite !exec_bind. reflexivity.
Qed.

Lemma reachable_not_simulating (w : World) :
  reachable w -> isSimulating (sim w) = false.
Proof.
  intros (rnd & os & ->). revert rnd.
  induction os as [ | o os IH ] using rev_ind; intros rnd.
  - unfold applyOps, mounted, invoke. cbn [fold_left].
    apply resetSimulation_not_simulating.
  - unfold applyOps. rewrite fold_left_app. cbn [fold_left].
    apply applyOp_not_simulating, IH.
Qed.

(** C1 (the code departs from it). Starting a run in auto mode executes no
    step.  On every reachable page in auto mode the Start handler leaves the
    store as it was; in particular on the page as it stands after the
    mounting reset, under loss policy [none], the status stays idle, both
    endpoints stay CLOSED and the step counter stays 0. *)
Theorem startAutoSimulation_runs_no_step :
  (forall w, reachable w -> simulationMode (sim w) = mode_auto ->
     applyOp OpStart w = w) /\
  (forall rnd : nat -> Q,
     simulationMode (sim (mounted rnd)) = mode_auto /\
     packetLoss (sim (mounted rnd)) = loss_none /\
     applyOp OpStart (mounted rnd) = mounted rnd /\
     connectionStatus (sim (applyOp OpStart (mounted rnd))) = idle /\
     clientState (sim (applyOp OpStart (mounted rnd))) = CLOSED /\
     serverState (sim (applyOp OpStart (mounted rnd))) = CLOSED /\
     currentStep (sim (applyOp OpStart (mounted rnd))) = 0).
Proof.
  split.
  - intros w Hr Hm. pose proof (reachable_not_simulating w Hr) as Hs.
    cbn [applyOp]. unfold startDisabled. rewrite Hs, Hm. cbn [orb andb].
    unfold invoke. rewrite startAutoSimulation_guard_closed by exact Hs.
    destruct w as [s d n r], s. cbn in Hs. subst. reflexivity.
  - intros rnd. repeat split.
Qed.

(** ** Initial sequence numbers *)

Lemma generateISN_fixed (snap : Sim) (w : World) :
  randomizeISN snap = false -> generateISN snap w = (1000, w).
Proof. unfold generateISN. intros ->. reflexivity. Qed.

Lemma generateISN_randomized (snap : Sim) (w : World) :
  randomizeISN snap = true ->
  generateISN snap w =
  (Qfloor (Js.times (draws w (drawn w)) 10000) + 1000, exec Math_random w).
Proof. unfold generateISN. intros ->. reflexivity. Qed.

Lemma roundNearestEven_bounds (n d : Z) :
  0 <= n -> 0 < d ->
  0 <= Js.roundNearestEven n d /\ 2 * Js.roundNearestEven n d * d <= 2 * n + d.
Proof.
  intros Hn Hd. unfold Js.roundNearestEven.
  pose proof (Z.div_mod n d ltac:(lia)) as E.
  pose proof (Z.mod_pos_bound n d Hd) as B.
  pose proof (Z.div_pos n d Hn Hd) as Q0.
  set (q := n / d) in *. set (r := n mod d) in *.
  destruct (Z.ltb_spec (2 * r) d); [ split; nia | ].
  destruct (Z.ltb_spec d (2 * r)); [ split; nia | ].
  destruct (Z.even q); split; nia.
Qed.

Lemma exponent_lower (n d : Z) :
  0 < n -> 0 < d ->
  let e := Js.exponent n d in
  if 0 <=? e then d * 2 ^ e <= n else d <= n * 2 ^ (- e).
Proof.
  intros Hn Hd. unfold Js.exponent.
  destruct (Z.log2_spec n Hn) as [Ln _].
  destruct (Z.log2_spec d Hd) as [_ Ld].
  pose proof (Z.log2_nonneg n) as Nn. pose proof (Z.log2_nonneg d) as Nd.
  set (a := Z.log2 n) in *. set (b := Z.log2 d) in *. clearbody a b.
  set (e0 := a - b).
  destruct (Z.leb_spec 0 e0) as [He0 | He0].
  - destruct (Z.ltb_spec n (d * 2 ^ e0)) as [Hlt | Hge]; cbv zeta.
    + destruct (Z.leb_spec 0 (e0 - 1)) as [He1 | He1].
      * (* d * 2^(e0-1) < 2^(b+1) * 2^(a-b-1) = 2^a <= n *)
        assert (P : 2 ^ (Z.succ b) * 2 ^ (e0 - 1) = 2 ^ a).
        { rewrite <- Z.pow_add_r by lia. f_equal. unfold e0. lia. }
        assert (0 < 2 ^ (e0 - 1)) by (apply Z.pow_pos_nonneg; lia).
        nia.
      * assert (e0 = 0) by lia.
        replace (- (e0 - 1)) with 1 by lia. change (2 ^ 1) with 2.
        assert (a = b) by (unfold e0 in *; lia). subst a.
        rewrite Z.pow_succ_r in Ld by lia. lia.
    + rewrite (proj2 (Z.leb_le 0 e0) He0). exact Hge.
  - destruct (Z.ltb_spec (n * 2 ^ (- e0)) d) as [Hlt | Hge]; cbv zeta.
    + destruct (Z.leb_spec 0 (e0 - 1)) as [He1 | He1]; [ lia | ].
      (* n * 2^(1-e0) >= 2^a * 2^(1 - a + b) = 2^(b+1) > d *)
      assert (P : 2 ^ a * 2 ^ (- (e0 - 1)) = 2 ^ (Z.succ b)).
      { rewrite <- Z.pow_add_r by (unfold e0; lia). f_equal. unfold e0. lia. }
      assert (0 < 2 ^ (- (e0 - 1))) by (apply Z.pow_pos_nonneg; lia).
      nia.
    + rewrite (proj2 (Z.leb_gt 0 e0) He0). exact Hge.
Qed.

(** The rounded quotient is nearest: within half a unit; and a tie goes to
    the even integer. *)
Lemma roundNearestEven_nearest (n d : Z) :
  0 <= n -> 0 < d ->
  let m := Js.roundNearestEven n d in
  Z.abs (2 * (m * d - n)) <= d /\
  (Z.abs (2 * (m * d - n)) = d -> Z.even m = true).
Proof.
  intros Hn Hd. unfold Js.roundNearestEven.
  pose proof (Z.div_mod n d ltac:(lia)) as E.
  pose proof (Z.mod_pos_bound n d Hd) as B.
  set (q := n / d) in *. set (r := n mod d) in *. clearbody q r.
  destruct (Z.ltb_spec (2 * r) d); [ cbv zeta; split; [ nia | intros; nia ] | ].
  destruct (Z.ltb_spec d (2 * r)); [ cbv zeta; split; [ nia | intros; nia ] | ].
  destruct (Z.even q) eqn:Ev; cbv zeta.
  - split; [ nia | intros _; exact Ev ].
  - split; [ nia | intros _ ].
    rewrite Z.even_add, Ev. reflexivity.
Qed.

Lemma exponent_upper (n d : Z) :
  0 < n -> 0 < d ->
  let e := Js.exponent n d in
  if 0 <=? e + 1 then n < d * 2 ^ (e + 1) else n * 2 ^ (- (e + 1)) < d.
Proof.
  intros Hn Hd. unfold Js.exponent.
  destruct (Z.log2_spec n Hn) as [_ Ln].
  destruct (Z.log2_spec d Hd) as [Ld _].
  pose proof (Z.log2_nonneg n) as Nn. pose proof (Z.log2_nonneg d) as Nd.
  set (a := Z.log2 n) in *. set (b := Z.log2 d) in *. clearbody a b.
  set (e0 := a - b).
  destruct (Z.leb_spec 0 e0) as [He0 | He0].
  - destruct (Z.ltb_spec n (d * 2 ^ e0)) as [Hlt | Hge]; cbv zeta.
    + replace (e0 - 1 + 1) with e0 by lia.
      rewrite (proj2 (Z.leb_le 0 e0) He0). exact Hlt.
    + destruct (Z.leb_spec 0 (e0 + 1)) as [ _ | ]; [ | lia ].
      (* n < 2^(a+1) = 2^b * 2^(e0+1) <= d * 2^(e0+1) *)
      assert (P : 2 ^ b * 2 ^ (e0 + 1) = 2 ^ (Z.succ a)).
      { rewrite <- Z.pow_add_r by lia. f_equal. unfold e0. lia. }
      assert (0 < 2 ^ (e0 + 1)) by (apply Z.pow_pos_nonneg; lia).
      nia.
  - destruct (Z.ltb_spec (n * 2 ^ (- e0)) d) as [Hlt | Hge]; cbv zeta.
    + replace (e0 - 1 + 1) with e0 by lia.
      rewrite (proj2 (Z.leb_gt 0 e0) He0). exact Hlt.
    + destruct (Z.leb_spec 0 (e0 + 1)) as [ H1 | H1 ].
      * assert (e0 = -1) by lia.
        replace (e0 + 1) with 0 by lia. change (2 ^ 0) with 1.
        assert (Z.succ a = b) by (unfold e0 in *; lia).
        rewrite H0 in Ln. lia.
      * (* n * 2^(-(e0+1)) < 2^(a+1) * 2^(b-a-1) = 2^b <= d *)
        assert (P : 2 ^ (Z.succ a) * 2 ^ (- (e0 + 1)) = 2 ^ b).
        { rewrite <- Z.pow_add_r by (unfold e0 in *; lia). f_equal. unfold e0. lia. }
        assert (0 < 2 ^ (- (e0 + 1))) by (apply Z.pow_pos_nonneg; lia).
        nia.
Qed.

(** Below 2^53 the rounded value is [m / 2^s] with a significand [m] of 53
    bits that is nearest to the scaled quotient, a tie going to the even
    one. *)
Lemma roundDouble_nearest (n : Z) (d : positive) :
  0 < n -> n < Z.pos d * 2 ^ 53 ->
  let s := 52 - Js.exponent n (Z.pos d) in
  let m := Js.roundNearestEven (n * 2 ^ s) (Z.pos d) in
  0 <= s /\
  Js.roundDouble (n # d) = (m # Z.to_pos (2 ^ s))%Q /\
  2 ^ 52 <= m <= 2 ^ 53 /\
  Z.abs (2 * (m * Z.pos d - n * 2 ^ s)) <= Z.pos d /\
  (Z.abs (2 * (m * Z.pos d - n * 2 ^ s)) = Z.pos d -> Z.even m = true).
Proof.
  intros Hn Hlt. cbv zeta.
  pose proof (exponent_lower n (Z.pos d) Hn ltac:(lia)) as L.
  pose proof (exponent_upper n (Z.pos d) Hn ltac:(lia)) as U.
  cbv zeta in L, U.
  set (e := Js.exponent n (Z.pos d)) in *.
  assert (He : e <= 52).
  { destruct (Z.leb_spec 0 e) as [P | P]; [ | lia ].
    destruct (Z.le_gt_cases e 52) as [ | G ]; [ assumption | exfalso ].
    assert (2 ^ 53 <= 2 ^ e) by (apply Z.pow_le_mono_r; lia).
    nia. }
  split; [ lia | ].
  split.
  { unfold Js.roundDouble. cbn [Qnum Qden]. rewrite Z.abs_eq by lia.
    destruct (Z.eqb_spec n 0); [ lia | ]. fold e.
    destruct (Z.leb_spec 0 (52 - e)); [ | lia ].
    destruct (Z.ltb_spec n 0); [ lia | reflexivity ]. }
  assert (Ps : 0 < 2 ^ (52 - e)) by (apply Z.pow_pos_nonneg; lia).
  assert (Lo : 2 ^ 52 * Z.pos d <= n * 2 ^ (52 - e)).
  { destruct (Z.leb_spec 0 e) as [P | P].
    - replace (2 ^ 52) with (2 ^ e * 2 ^ (52 - e))
        by (rewrite <- Z.pow_add_r by lia; f_equal; lia).
      nia.
    - replace (2 ^ (52 - e)) with (2 ^ 52 * 2 ^ (- e))
        by (rewrite <- Z.pow_add_r by lia; f_equal; lia).
      assert (0 < 2 ^ 52) by reflexivity. nia. }
  assert (Hi : n * 2 ^ (52 - e) < 2 ^ 53 * Z.pos d).
  { destruct (Z.leb_spec 0 (e + 1)) as [P | P].
    - replace (2 ^ 53) with (2 ^ (e + 1) * 2 ^ (52 - e))
        by (rewrite <- Z.pow_add_r by lia; f_equal; lia).
      nia.
    - replace (2 ^ (52 - e)) with (2 ^ 53 * 2 ^ (- (e + 1)))
        by (rewrite <- Z.pow_add_r by lia; f_equal; lia).
      assert (0 < 2 ^ 53) by reflexivity. nia. }
  destruct (roundNearestEven_nearest (n * 2 ^ (52 - e)) (Z.pos d)) as [N1 N2];
    [ nia | lia | ].
  cbv zeta in N1, N2.
  set (m := Js.roundNearestEven (n * 2 ^ (52 - e)) (Z.pos d)) in *.
  split; [ | split; assumption ].
  assert (A : Z.abs (2 * (m * Z.pos d - n * 2 ^ (52 - e))) <= Z.pos d) by exact N1.
  split.
  - destruct (Z.le_gt_cases (2 ^ 52) m) as [ | G ]; [ assumption | exfalso ].
    assert (m + 1 <= 2 ^ 52) by lia. nia.
  - destruct (Z.le_gt_cases m (2 ^ 53)) as [ | G ]; [ assumption | exfalso ].
    assert (2 ^ 53 + 1 <= m) by lia. nia.
Qed.

(** The rounding on some values: the doubles behind [0.1] and [0.3]; two
    ties, which go to the even significand; and the product of the double
    [0.0121] and 10000, which is 121 although the exact product is below
    it. *)
Lemma roundDouble_examples :
  Qred (Js.roundDouble (1 # 10)) = (3602879701896397 # 36028797018963968)%Q /\
  Qred (Js.roundDouble (3 # 10)) = Js.double_0_3 /\
  Js.roundDouble (9007199254740993 # 1) = inject_Z 9007199254740992 /\
  Js.roundDouble (9007199254740995 # 1) = inject_Z 9007199254740996 /\
  Qred (Js.times (Js.grid53 108987110982366) 10000) = inject_Z 121 /\
  Qfloor (Js.grid53 108987110982366 * 10000) = 120.
Proof. repeat split; vm_compute; reflexivity. Qed.

(** The floored double product of a draw and 10000 lies in 0..9999: the
    product of the largest draw rounds to a double below 10000. *)
Lemma floor_scaled_range (d : Q) :
  (0 <= d)%Q -> (d <= Js.maxDraw)%Q -> 0 <= Qfloor (Js.times d 10000) <= 9999.
Proof.
  intros H0 H1. destruct d as [n q].
  unfold Qle, Js.maxDraw in H0, H1. cbn [Qnum Qden] in H0, H1.
  unfold Js.times, Js.roundDouble.
  change (Qnum ((n # q) * 10000)) with (n * 10000).
  change (Z.pos (Qden ((n # q) * 10000))) with (Z.pos (q * 1)).
  rewrite Pos.mul_1_r.
  rewrite Z.abs_eq by lia.
  destruct (Z.eqb_spec (n * 10000) 0) as [E | E];
    [ change (Qfloor 0) with 0; lia | ].
  assert (Hn : 0 < n * 10000) by lia.
  pose proof (exponent_lower (n * 10000) (Z.pos q) Hn ltac:(lia)) as L.
  cbv zeta in L.
  set (e := Js.exponent (n * 10000) (Z.pos q)) in *.
  assert (He : e <= 13).
  { destruct (Z.leb_spec 0 e) as [P | P]; [ | lia ].
    destruct (Z.le_gt_cases e 13) as [ | G ]; [ assumption | exfalso ].
    assert (2 ^ 14 <= 2 ^ e) by (apply Z.pow_le_mono_r; lia).
    change (2 ^ 14) with 16384 in *. nia. }
  destruct (Z.leb_spec 0 (52 - e)) as [S | S]; [ | lia ].
  destruct (Z.ltb_spec (n * 10000) 0) as [ | _ ]; [ lia | ].
  assert (P39 : 2 ^ 39 <= 2 ^ (52 - e)) by (apply Z.pow_le_mono_r; lia).
  change (2 ^ 39) with 549755813888 in P39.
  set (P := 2 ^ (52 - e)) in *.
  assert (Ppos : 0 < P) by lia.
  destruct (roundNearestEven_bounds (n * 10000 * P) (Z.pos q)) as [M0 M1];
    [ nia | lia | ].
  set (m := Js.roundNearestEven (n * 10000 * P) (Z.pos q)) in *.
  unfold Qfloor. rewrite Z2Pos.id by exact Ppos.
  split.
  - apply Z.div_pos; lia.
  - assert (m < 10000 * P).
    { destruct (Z.lt_ge_cases m (10000 * P)) as [ | G ]; [ assumption | exfalso ].
      assert (A : 20000 * P * Z.pos q <= 2 * (n * 10000 * P) + Z.pos q) by nia.
      assert (B : 2 * P * 10000 * (n * 9007199254740992)
                  <= 2 * P * 10000 * (9007199254740991 * Z.pos q)) by nia.
      nia. }
    assert (m / P < 10000) by (apply Z.div_lt_upper_bound; lia). lia.
Qed.

Lemma generateISN_range (snap : Sim) (w : World) :
  validDraws w -> 1000 <= result (generateISN snap) w <= 10999.
Proof.
  intros Hv. unfold result.
  destruct (randomizeISN snap) eqn:E.
  - rewrite generateISN_randomized by exact E. cbn [fst].
    destruct (Hv (drawn w)) as [H0 H1].
    pose proof (floor_scaled_range _ H0 H1). lia.
  - rewrite generateISN_fixed by exact E. cbn [fst]. lia.
Qed.

Lemma resetSimulation_clientISN (snap : Sim) (w : World) :
  clientISN (sim (exec (resetSimulation snap) w)) = result (generateISN snap) w.
Proof.
  destruct w as [s d n r]. unfold resetSimulation, generateISN, exec, result.
  destruct (randomizeISN snap); reflexivity.
Qed.

(** C3 (amended). [generateISN] returns the fixed constant 1000 with
    randomization off, and 1000 + floor(draw * 10000), a value in 1000..10999,
    with randomization on, the product being the double product of the draw
    and 10000; a reset stores the value of its first call as the client
    ISN. *)
Theorem generateISN_client_space (snap : Sim) (w : World) :
  validDraws w ->
  let isn := result (generateISN snap) w in
  clientISN (sim (exec (resetSimulation snap) w)) = isn /\
  1000 <= isn <= 10999 /\
  (randomizeISN snap = false ->
   isn = 1000 /\ exec (generateISN snap) w = w) /\
  (randomizeISN snap = true ->
   isn = 1000 + Qfloor (Js.times (draws w (drawn w)) 10000) /\
   0 <= Qfloor (Js.times (draws w (drawn w)) 10000) < 10000).
Proof.
  intros Hv isn. subst isn. repeat split.
  - apply resetSimulation_clientISN.
  - apply generateISN_range, Hv.
  - apply generateISN_range, Hv.
  - unfold result. rewrite generateISN_fixed by assumption. reflexivity.
  - unfold exec. rewrite generateISN_fixed by assumption. reflexivity.
  - unfold result. rewrite generateISN_randomized by assumption. cbn [fst]. lia.
  - destruct (Hv (drawn w)) as [H0 H1].
    pose proof (floor_scaled_range _ H0 H1). lia.
  - destruct (Hv (drawn w)) as [H0 H1].
    pose proof (floor_scaled_range _ H0 H1). lia.
Qed.

Lemma halfDraws_valid (s : Sim) (n : nat) (r : bool) :
  validDraws {| sim := s; draws := halfDraws; drawn := n; refsAttached := r |}.
Proof.
  intros k. unfold halfDraws, Qle, Qlt. simpl. lia.
Qed.

Lemma roundingDraws_valid (s : Sim) (n : nat) (r : bool) :
  validDraws {| sim := s; draws := roundingDraws; drawn := n; refsAttached := r |}.
Proof.
  intros k. unfold roundingDraws, Js.grid53, Js.maxDraw, Qle. simpl. lia.
Qed.

Lemma generateISN_client_space_witness :
  (clientISN (sim (exec (resetSimulation fixedISNSnap) freshWorld)) = 1000 /\
   exec (generateISN fixedISNSnap) freshWorld = freshWorld) /\
  clientISN (sim (exec (resetSimulation initialSim) freshWorld)) = 6000 /\
  clientISN (sim (exec (resetSimulation initialSim) roundingWorld)) = 1121.
Proof.
  split; [ | split ].
  - destruct (generateISN_client_space fixedISNSnap freshWorld (halfDraws_valid _ _ _))
      as (Hc & _ & Hoff & _).
    destruct (Hoff eq_refl) as [Hv Hw].
    split; [ rewrite Hc; exact Hv | exact Hw ].
  - destruct (generateISN_client_space initialSim freshWorld (halfDraws_valid _ _ _))
      as (Hc & _ & _ & Hon).
    destruct (Hon eq_refl) as [Hv _].
    rewrite Hc, Hv. vm_compute. reflexivity.
  - destruct (generateISN_client_space initialSim roundingWorld
                (roundingDraws_valid _ _ _)) as (Hc & _ & _ & Hon).
    destruct (Hon eq_refl) as [Hv _].
    rewrite Hc, Hv. vm_compute. reflexivity.
Defined.

(** C3 (as stated, refuted). With randomization off a reset gives the
    server the ISN 1000, the client's, not 2000.  With randomization on and
    both draws 0 the server ISN is 1000, below the claimed range; with both
    draws 0.5 client and server get the same ISN, 6000, a value inside both of
    the claimed ranges. *)
Lemma isn_spaces_collide :
  (randomizeISN fixedISNSnap = false /\
   clientISN (sim (exec (resetSimulation fixedISNSnap) freshWorld)) = 1000 /\
   serverISN (sim (exec (resetSimulation fixedISNSnap) freshWorld)) = 1000 /\
   serverISN (sim (exec (resetSimulation fixedISNSnap) freshWorld)) <> 2000) /\
  (randomizeISN initialSim = true /\
   serverISN (sim (mounted zeroDraws)) = 1000 /\
   ~ 2000 <= serverISN (sim (mounted zeroDraws)) <= 11999) /\
  (clientISN (sim (mounted halfDraws)) = 6000 /\
   serverISN (sim (mounted halfDraws)) = 6000 /\
   ~ (1000 <= clientISN (sim (mounted halfDraws)) <= 10999 /\
      2000 <= serverISN (sim (mounted halfDraws)) <= 11999 /\
      clientISN (sim (mounted halfDraws)) <> serverISN (sim (mounted halfDraws)))).
Proof.
  split; [ | split ].
  - split; [ reflexivity | ].
    split; [ vm_compute; reflexivity | ].
    split; [ vm_compute; reflexivity | vm_compute; discriminate ].
  - split; [ reflexivity | ].
    split; [ vm_compute; reflexivity | ].
    vm_compute. intros [H _]. apply H. reflexivity.
  - split; [ vm_compute; reflexivity | ].
    split; [ vm_compute; reflexivity | ].
    intros (_ & _ & Hne). apply Hne. vm_compute. reflexivity.
Qed.

(** The server ISN of a reset comes from the same [generateISN]: with
    randomization off it is 1000 as well. *)
Lemma resetSimulation_fixed_isns (snap : Sim) (w : World) :
  randomizeISN snap = false ->
  clientISN (sim (exec (resetSimulation snap) w)) = 1000 /\
  serverISN (sim (exec (resetSimulation snap) w)) = 1000.
Proof.
  destruct w as [s d n r]. unfold resetSimulation, generateISN, exec.
  intros ->. split; reflexivity.
Qed.

(** The variant without retries anchors its server ISN at 2000; the two
    ranges overlap all the same, so equal ISNs remain possible (here with
    the draws 0.5 and 0.4, the latter the double 3602879701896397 / 2^53). *)
Lemma Simple_isn_spaces (d : Q) :
  Simple.initClientISN false d = 1000 /\
  Simple.initServerISN false d = 2000 /\
  Simple.initClientISN true (1 # 2) = 6000 /\
  Simple.initServerISN true (Js.grid53 3602879701896397) = 6000.
Proof. repeat split; vm_compute; reflexivity. Qed.

(** ** Sequence numbers along a run *)

(** No function but the reset writes an ISN or a sequence number.  The
    frame lemmas are collected in a hint database. *)
Create HintDb frame discriminated.

Lemma executeStep_keeps_numbers (snap : Sim) (step : Z) :
  keeps numbers (executeStep snap step).
Proof.
  unfold executeStep, sendStepPacket, stepPacket, animatePacket,
    shouldDropPacket, refsPresent.
  keeps_tac.
Qed.

Lemma retriesExhausted_keeps_numbers : keeps numbers retriesExhausted.
Proof. unfold retriesExhausted. keeps_tac. Qed.

Lemma setter_keeps_numbers (f : Sim -> Sim) :
  (forall s, clientISN (f s) = clientISN s) ->
  (forall s, serverISN (f s) = serverISN s) ->
  (forall s, clientSeq (f s) = clientSeq s) ->
  (forall s, serverSeq (f s) = serverSeq s) ->
  keeps numbers (modify f).
Proof.
  intros H1 H2 H3 H4 w. unfold numbers, exec, modify. cbn [snd sim].
  rewrite H1, H2, H3, H4. reflexivity.
Qed.

#[local] Hint Resolve keeps_ret executeStep_keeps_numbers
  retriesExhausted_keeps_numbers : frame.
#[local] Hint Extern 1 (keeps numbers (setRetryCount _)) =>
  apply setter_keeps_numbers; reflexivity : frame.
#[local] Hint Extern 1 (keeps numbers (setCurrentStep _)) =>
  apply setter_keeps_numbers; reflexivity : frame.
#[local] Hint Extern 1 (keeps numbers (setIsSimulating _)) =>
  apply setter_keeps_numbers; reflexivity : frame.
#[local] Hint Extern 1 (keeps numbers (addLog _ _)) =>
  apply setter_keeps_numbers; reflexivity : frame.
#[local] Hint Extern 2 (keeps numbers (bind _ _)) =>
  apply keeps_bind; [ | intros ? ] : frame.
#[local] Hint Extern 2 (keeps numbers (if ?b then _ else _)) =>
  destruct b : frame.

Lemma retryLoop_keeps_numbers (snap : Sim) (step : Z) (fuel : nat) :
  forall attempts, keeps numbers (retryLoop snap step fuel attempts).
Proof.
  induction fuel as [ | fuel IH ]; intros attempts; cbn [retryLoop];
    auto 12 with frame.
Qed.

Lemma handleStepExecution_keeps_numbers (snap : Sim) (step : Z) :
  keeps numbers (handleStepExecution snap step).
Proof. apply retryLoop_keeps_numbers. Qed.

#[local] Hint Resolve handleStepExecution_keeps_numbers : frame.

Lemma autoLoop_keeps_numbers (snap : Sim) (fuel : nat) :
  forall step, keeps numbers (autoLoop snap fuel step).
Proof.
  induction fuel as [ | fuel IH ]; intros step; cbn [autoLoop];
    auto 12 with frame.
Qed.

#[local] Hint Resolve autoLoop_keeps_numbers : frame.

Lemma startAutoSimulation_keeps_numbers (snap : Sim) :
  keeps numbers (startAutoSimulation snap).
Proof. unfold startAutoSimulation. auto 12 with frame. Qed.

Lemma executeNextStep_keeps_numbers (snap : Sim) :
  keeps numbers (executeNextStep snap).
Proof. unfold executeNextStep. auto 12 with frame. Qed.

Lemma seqIsISN_numbers (w w' : World) :
  numbers w' = numbers w -> seqIsISN (sim w) -> seqIsISN (sim w').
Proof.
  unfold numbers, seqIsISN. intros H [Hc Hs].
  injection H as H1 H2 H3 H4. split; congruence.
Qed.

Lemma resetSimulation_seqIsISN (snap : Sim) (w : World) :
  seqIsISN (sim (exec (resetSimulation snap) w)).
Proof.
  destruct w as [s d n r]. unfold resetSimulation, generateISN, exec.
  destruct (randomizeISN snap); split; reflexivity.
Qed.

Lemma applyOp_seqIsISN (o : Op) (w : World) :
  seqIsISN (sim w) -> seqIsISN (sim (applyOp o w)).
Proof.
  intros H. destruct o; cbn [applyOp].
  - destruct (isSimulating (sim w)); [ exact H | apply resetSimulation_seqIsISN ].
  - destruct (startDisabled (sim w)); [ exact H | ].
    destruct (simulationMode (sim w)); unfold invoke.
    + eapply seqIsISN_numbers; [ apply startAutoSimulation_keeps_numbers | exact H ].
    + eapply seqIsISN_numbers; [ apply executeNextStep_keeps_numbers | exact H ].
  - exact H.
  - exact H.
  - exact H.
  - exact H.
Qed.

Lemma applyOps_seqIsISN (os : list Op) :
  forall w, seqIsISN (sim w) -> seqIsISN (sim (applyOps os w)).
Proof.
  induction os as [ | o os IH ]; intros w H; [ exact H | ].
  apply IH, applyOp_seqIsISN, H.
Qed.

Lemma reachable_seqIsISN (w : World) : reachable w -> seqIsISN (sim w).
Proof.
  intros (rnd & os & ->). apply applyOps_seqIsISN.
  unfold mounted, invoke. apply resetSimulation_seqIsISN.
Qed.

Lemma reachable_applyOps (os : list Op) (rnd : nat -> Q) :
  reachable (applyOps os (mounted rnd)).
Proof. exists rnd, os. reflexivity. Qed.

Lemma reachable_mounted (rnd : nat -> Q) : reachable (mounted rnd).
Proof. exists rnd, []. unfold applyOps. cbn [fold_left]. reflexivity. Qed.

Lemma failedWorld_reachable : reachable failedWorld.
Proof. unfold failedWorld. apply reachable_applyOps. Qed.

Lemma afterSynAck_reachable : reachable afterSynAck.
Proof. unfold afterSynAck. apply reachable_applyOps. Qed.

Lemma afterAck_reachable : reachable afterAck.
Proof. unfold afterAck. apply reachable_applyOps. Qed.

Lemma stepPacket_some (snap : Sim) (step : Z) (p : PacketAnimation) :
  stepPacket snap step = Some p -> step = 1 \/ step = 2 \/ step = 3.
Proof.
  destruct step as [ | q | q ]; try discriminate.
  destruct q as [ [ r | r | ] | [ r | r | ] | ]; try discriminate; auto.
Qed.

(** A delivered attempt logs the packet of its step, and step 3 then logs
    the establishment. *)
Lemma executeStep_delivered_log (snap : Sim) (step : Z) (p : PacketAnimation)
    (w : World) :
  stepPacket snap step = Some p ->
  result (executeStep snap step) w = true ->
  logs (sim (exec (executeStep snap step) w)) =
  (logs (sim w) ++ sentLine p :: (if step =? 3 then [establishedLine] else []))%list.
Proof.
  intros Hp. destruct w as [s d n r].
  destruct (stepPacket_some _ _ _ Hp) as [ -> | [ -> | -> ] ];
    injection Hp as <-; unfold_step; unfold sentLine, establishedLine; simpl;
    (destruct r; simpl; [ | discriminate ]);
    destruct (packetLoss snap); simpl; try discriminate;
    try (intros _; rewrite <- ?app_assoc; reflexivity);
    destruct (Js.ltb (d n) (3 # 10)); simpl; try discriminate;
    intros _; rewrite <- ?app_assoc; reflexivity.
Qed.

(** C4. The sequence-number law on packets: the SYN-ACK of step 2 carries
    ack = clientSeq + 1, and the ACK of step 3 carries seq = clientSeq + 1 and
    ack = serverSeq + 1; these are the packets a delivered attempt logs.  With
    the ISNs 1000 and 2000 (the stored sequence numbers being the ISNs, as on
    every reachable page) step 2 carries ack = 1001 and step 3 carries
    seq = 1001 and ack = 2001. *)
Theorem handshake_sequence_numbers (snap : Sim) :
  stepPacket snap 2 =
    Some {| ptype := SYN_ACK; seq := Some (serverSeq snap);
            ack := Some (clientSeq snap + 1); direction := server_to_client |} /\
  stepPacket snap 3 =
    Some {| ptype := ACK; seq := Some (clientSeq snap + 1);
            ack := Some (serverSeq snap + 1); direction := client_to_server |} /\
  (forall step p w,
     stepPacket snap step = Some p ->
     result (executeStep snap step) w = true ->
     In (sentLine p) (logs (sim (exec (executeStep snap step) w)))) /\
  (seqIsISN snap -> clientISN snap = 1000 -> serverISN snap = 2000 ->
   option_map ack (stepPacket snap 2) = Some (Some 1001) /\
   option_map seq (stepPacket snap 3) = Some (Some 1001) /\
   option_map ack (stepPacket snap 3) = Some (Some 2001) /\
   option_map sentLine (stepPacket snap 2) =
     Some (mkLog "📤 Server → Client: SYN-ACK (seq=2000, ack=1001)" log_info) /\
   option_map sentLine (stepPacket snap 3) =
     Some (mkLog "📤 Client → Server: ACK (seq=1001, ack=2001)" log_info)).
Proof.
  split; [ reflexivity | ]. split; [ reflexivity | ]. split.
  - intros step p w Hp Hr.
    rewrite (executeStep_delivered_log snap step p w Hp Hr).
    apply in_or_app. right. left. reflexivity.
  - intros [Hc Hs] Hci Hsi. cbn [stepPacket option_map ack seq].
    rewrite Hc, Hs, Hci, Hsi. repeat split.
Qed.

Lemma handshake_sequence_numbers_witness :
  reachable (mounted fixedISNDraws) /\
  option_map ack (stepPacket (sim (mounted fixedISNDraws)) 2) = Some (Some 1001) /\
  option_map seq (stepPacket (sim (mounted fixedISNDraws)) 3) = Some (Some 1001) /\
  option_map ack (stepPacket (sim (mounted fixedISNDraws)) 3) = Some (Some 2001).
Proof.
  split; [ apply reachable_mounted | ].
  destruct (handshake_sequence_numbers (sim (mounted fixedISNDraws)))
    as (_ & _ & _ & H).
  destruct H as (H2 & H3 & H4 & _).
  - split; vm_compute; reflexivity.
  - vm_compute. reflexivity.
  - vm_compute. reflexivity.
  - exact (conj H2 (conj H3 H4)).
Defined.

(** The log of a run without loss, with ISNs 1000 and 2000. *)
Example fixed_isn_run_log :
  logs (sim afterAck) =
  [ mkLog resetMessage log_info;
    mkLog "📤 Client → Server: SYN (seq=1000)" log_info;
    mkLog "📤 Server → Client: SYN-ACK (seq=2000, ack=1001)" log_info;
    mkLog "📤 Client → Server: ACK (seq=1001, ack=2001)" log_info;
    establishedLine ].
Proof. vm_compute. reflexivity. Qed.

(** C7 (amended). After a reset clientSeq equals clientISN and serverSeq
    equals serverISN, and they stay so on every reachable page: no step
    writes a sequence number.  The increments by one appear in the packets
    only: the SYN-ACK acknowledges clientISN + 1, the ACK carries
    seq = clientISN + 1 and acknowledges serverISN + 1. *)
Theorem stored_sequence_numbers_stay_at_isn :
  (forall snap w, seqIsISN (sim (exec (resetSimulation snap) w))) /\
  (forall w, reachable w ->
     clientSeq (sim w) = clientISN (sim w) /\
     serverSeq (sim w) = serverISN (sim w) /\
     option_map ack (stepPacket (sim w) 2) = Some (Some (clientISN (sim w) + 1)) /\
     option_map seq (stepPacket (sim w) 3) = Some (Some (clientISN (sim w) + 1)) /\
     option_map ack (stepPacket (sim w) 3) = Some (Some (serverISN (sim w) + 1))).
Proof.
  split.
  - apply resetSimulation_seqIsISN.
  - intros w Hr. destruct (reachable_seqIsISN w Hr) as [Hc Hs].
    cbn [stepPacket option_map ack seq]. rewrite Hc, Hs. repeat split.
Qed.

Lemma stored_sequence_numbers_stay_at_isn_witness :
  clientSeq (sim afterAck) = clientISN (sim afterAck) /\
  serverSeq (sim afterAck) = serverISN (sim afterAck).
Proof.
  destruct (proj2 stored_sequence_numbers_stay_at_isn afterAck
              afterAck_reachable) as (Hc & Hs & _).
  exact (conj Hc Hs).
Defined.

(** C7 (as stated, refuted). With ISNs 1000 and 2000 and no loss, after the
    SYN-ACK is delivered (step counter 2) the stored clientSeq is still 1000,
    not 1001; after the ACK is delivered (step counter 3, established) the
    stored serverSeq is still 2000, not 2001. *)
Lemma stored_seq_not_advanced :
  reachable afterSynAck /\
  currentStep (sim afterSynAck) = 2 /\
  clientISN (sim afterSynAck) = 1000 /\
  clientSeq (sim afterSynAck) <> clientISN (sim afterSynAck) + 1 /\
  reachable afterAck /\
  connectionStatus (sim afterAck) = established /\
  serverISN (sim afterAck) = 2000 /\
  serverSeq (sim afterAck) <> serverISN (sim afterAck) + 1.
Proof.
  split; [ exact afterSynAck_reachable | ].
  split; [ vm_compute; reflexivity | ].
  split; [ vm_compute; reflexivity | ].
  split; [ vm_compute; discriminate | ].
  split; [ exact afterAck_reachable | ].
  split; [ vm_compute; reflexivity | ].
  split; [ vm_compute; reflexivity | ].
  vm_compute; discriminate.
Qed.

(** ** Reset *)

(** C8 (amended). After a reset both endpoints are CLOSED, the status is
    idle, the step counter and the retry counter are 0, no run is active, the
    ISNs are regenerated and the sequence numbers set to them, and the log
    holds exactly one entry, the reset message.  A second
    reset leaves everything the page shows of the run as the first left it,
    and with randomization off the whole store. *)
Theorem resetSimulation_postcondition (snap : Sim) (w : World) :
  let w' := exec (resetSimulation snap) w in
  clientState (sim w') = CLOSED /\
  serverState (sim w') = CLOSED /\
  connectionStatus (sim w') = idle /\
  currentStep (sim w') = 0 /\
  retryCount (sim w') = 0 /\
  isSimulating (sim w') = false /\
  logs (sim w') = [mkLog resetMessage log_info] /\
  clientISN (sim w') = result (generateISN snap) w /\
  serverISN (sim w') = result (generateISN snap) (exec (generateISN snap) w) /\
  clientSeq (sim w') = clientISN (sim w') /\
  serverSeq (sim w') = serverISN (sim w') /\
  (forall snap2,
     observable (sim (exec (resetSimulation snap2) w')) = observable (sim w')) /\
  (forall snap2,
     randomizeISN snap = false -> randomizeISN snap2 = false ->
     exec (resetSimulation snap2) w' = w').
Proof.
  destruct w as [s d n r]. unfold resetSimulation, generateISN, exec, result.
  cbv zeta.
  do 11 (split; [ destruct (randomizeISN snap); reflexivity | ]).
  split.
  - intros snap2. unfold observable.
    destruct (randomizeISN snap), (randomizeISN snap2);
      cbv -[Qfloor Qmult Z.add]; reflexivity.
  - intros snap2 -> ->. vm_compute. reflexivity.
Qed.

(** C8 (as stated, refuted). The log after a reset is not empty: it holds the
    reset message. *)
Lemma reset_log_not_empty :
  logs (sim (exec (resetSimulation initialSim) freshWorld)) =
    [mkLog resetMessage log_info] /\
  logs (sim (exec (resetSimulation initialSim) freshWorld)) <> [].
Proof.
  split; [ vm_compute; reflexivity | vm_compute; discriminate ].
Qed.

(** ** The failure state *)

(** What a successful attempt leaves behind. *)
Lemma executeStep_success_state (snap : Sim) (step : Z) (w : World) :
  result (executeStep snap step) w = true ->
  let s' := sim (exec (executeStep snap step) w) in
  (step = 1 /\ clientState s' = SYN_SENT /\ connectionStatus s' = connecting) \/
  (step = 2 /\ serverState s' = SYN_RECEIVED) \/
  (step = 3 /\ clientState s' = ESTABLISHED /\ serverState s' = ESTABLISHED /\
   connectionStatus s' = established).
Proof.
  destruct w as [s d n r].
  destruct step as [ | q | q ]; try discriminate.
  destruct q as [ [ q | q | ] | [ q | q | ] | ]; try discriminate;
    unfold_step; simpl;
    (destruct r; simpl; [ | discriminate ]);
    destruct (packetLoss snap); simpl; try discriminate;
    try (intros _; solve [ auto 10 ]);
    destruct (Js.ltb (d n) (3 # 10)); simpl; try discriminate;
    intros _; auto 10.
Qed.

Lemma executeStep_success_not_failed (snap : Sim) (step : Z) (w : World) :
  result (executeStep snap step) w = true ->
  ~ failedState (sim (exec (executeStep snap step) w)).
Proof.
  intros H Hfs. destruct Hfs as (Hst & Hc & Hs).
  destruct (executeStep_success_state snap step w H)
    as [ (_ & Hc' & _) | [ (_ & Hs') | (_ & Hc' & _) ] ]; congruence.
Qed.

Lemma handleStepExecution_success_not_failed (snap : Sim) (step : Z) (w : World) :
  result (handleStepExecution snap step) w = true ->
  ~ failedState (sim (exec (handleStepExecution snap step) w)).
Proof.
  unfold result, exec. rewrite handleStepExecution_attempts.
  unfold attemptSucceeds.
  destruct (result (executeStep snap step) (attemptWorld snap step 0 w)) eqn:E0;
    [ intros _; exact (executeStep_success_not_failed _ _ _ E0) | ].
  destruct (result (executeStep snap step) (attemptWorld snap step 1 w)) eqn:E1;
    [ intros _; exact (executeStep_success_not_failed _ _ _ E1) | ].
  destruct (result (executeStep snap step) (attemptWorld snap step 2 w)) eqn:E2;
    [ intros _; exact (executeStep_success_not_failed _ _ _ E2) | ].
  discriminate.
Qed.

Lemma executeNextStep_run (snap : Sim) (w : World) :
  currentStep snap < 3 ->
  exec (executeNextStep snap) w =
  let w1 := exec (setIsSimulating true) w in
  let step := currentStep snap + 1 in
  let w2 := exec (handleStepExecution snap step) w1 in
  exec (setIsSimulating false)
    (if result (handleStepExecution snap step) w1
     then exec (setCurrentStep step) w2 else w2).
Proof.
  intros Hlt. unfold executeNextStep.
  assert (E : (currentStep snap >=? 3) = false)
    by (rewrite Z.geb_leb; apply Z.leb_gt; lia).
  rewrite E. cbv zeta.
  rewrite exec_bind. rewrite exec_bind. rewrite exec_bind.
  destruct (result (handleStepExecution snap (currentStep snap + 1))
              (exec (setIsSimulating true) w)); reflexivity.
Qed.

(** C5 (amended). From the failure state, changing the mode, the loss
    policy, the speed or the randomization keeps status failed and both
    endpoints FAILED, and an advance with the step counter at 3 does nothing.
    An advance with a lower step counter attempts the next step again: it
    ends in the failure state again exactly when its three attempts fail, and
    leaves the failure state when an attempt is delivered. *)
Theorem failed_state_persistence (w : World) :
  failedState (sim w) ->
  (forall m, failedState (sim (applyOp (OpMode m) w))) /\
  (forall p, failedState (sim (applyOp (OpLoss p) w))) /\
  (forall v, failedState (sim (applyOp (OpSpeed v) w))) /\
  (forall b, failedState (sim (applyOp (OpRandomize b) w))) /\
  (3 <= currentStep (sim w) -> invoke executeNextStep w = w) /\
  (currentStep (sim w) < 3 ->
   (failedState (sim (invoke executeNextStep w)) <->
    result (handleStepExecution (sim w) (currentStep (sim w) + 1))
      (exec (setIsSimulating true) w) = false)).
Proof.
  intros Hf.
  split; [ intros m; exact Hf | ].
  split; [ intros p; exact Hf | ].
  split; [ intros v; exact Hf | ].
  split; [ intros b; exact Hf | ].
  split.
  - intros Hge. unfold invoke, executeNextStep.
    assert (E : (currentStep (sim w) >=? 3) = true)
      by (rewrite Z.geb_leb; apply Z.leb_le; lia).
    rewrite E. reflexivity.
  - intros Hlt. unfold invoke. rewrite executeNextStep_run by assumption.
    cbv zeta.
    destruct (result (handleStepExecution (sim w) (currentStep (sim w) + 1))
                (exec (setIsSimulating true) w)) eqn:E.
    + split; [ | discriminate ].
      intros Hfs. exfalso.
      apply (handleStepExecution_success_not_failed _ _ _ E). exact Hfs.
    + split; [ reflexivity | ].
      intros _. apply (handleStepExecution_failure_state _ _ _ E).
Qed.

Lemma failed_state_persistence_witness :
  failedState (sim failedWorld) /\
  failedState (sim (applyOp (OpLoss loss_none) failedWorld)) /\
  ~ failedState (sim (invoke executeNextStep failedWorld)).
Proof.
  assert (H : failedState (sim failedWorld))
    by (repeat split; vm_compute; reflexivity).
  assert (Hlt : currentStep (sim failedWorld) < 3)
    by (vm_compute; reflexivity).
  destruct (failed_state_persistence failedWorld H)
    as (_ & Hl & _ & _ & _ & Hadv).
  split; [ exact H | ].
  split; [ exact (Hl loss_none) | ].
  intros Hf. apply (proj1 (Hadv Hlt)) in Hf.
  vm_compute in Hf. discriminate Hf.
Defined.

(** C5 (as stated, refuted). Under random loss an advance fails after three
    lost SYNs; the page is then in the failure state.  The next advance, whose
    SYN is delivered, moves the status back to connecting and the client to
    SYN-SENT without any reset. *)
Lemma failed_state_left_without_reset :
  reachable failedWorld /\
  failedState (sim failedWorld) /\
  simulationMode (sim failedWorld) = mode_step /\
  startDisabled (sim failedWorld) = false /\
  connectionStatus (sim (applyOp OpStart failedWorld)) = connecting /\
  clientState (sim (applyOp OpStart failedWorld)) = SYN_SENT /\
  currentStep (sim (applyOp OpStart failedWorld)) = 1.
Proof.
  split; [ exact failedWorld_reachable | ].
  split; [ repeat split; vm_compute; reflexivity | ].
  repeat split; vm_compute; reflexivity.
Qed.

(** ** Which cells a handler writes

    An observation of the state that is blind to the cells a function writes
    is left as it was.  The hypotheses name the cells; each lemma depends on
    those its function writes. *)

Section Frames.

Context {X : Type} (proj : Sim -> X).

Hypothesis blind_clientState : forall v s, proj (with_clientState v s) = proj s.
Hypothesis blind_serverState : forall v s, proj (with_serverState v s) = proj s.
Hypothesis blind_connectionStatus :
  forall v s, proj (with_connectionStatus v s) = proj s.
Hypothesis blind_logs : forall f s, proj (with_logs f s) = proj s.
Hypothesis blind_retryCount : forall v s, proj (with_retryCount v s) = proj s.
Hypothesis blind_isSimulating : forall v s, proj (with_isSimulating v s) = proj s.
Hypothesis blind_currentStep : forall v s, proj (with_currentStep v s) = proj s.
Hypothesis blind_clientISN : forall v s, proj (with_clientISN v s) = proj s.
Hypothesis blind_serverISN : forall v s, proj (with_serverISN v s) = proj s.
Hypothesis blind_clientSeq : forall v s, proj (with_clientSeq v s) = proj s.
Hypothesis blind_serverSeq : forall v s, proj (with_serverSeq v s) = proj s.

Let observe (w : World) : X := proj (sim w).

Ltac blind_step :=
  match goal with
  | |- keeps _ (ret _) => apply keeps_ret
  | |- keeps _ (bind _ _) => apply keeps_bind; [ | intros ? ]
  | |- keeps _ (if ?b then _ else _) => destruct b
  | |- keeps _ (match ?x with _ => _ end) => destruct x
  | |- keeps _ (modify _) =>
    intro; unfold observe, exec, modify; cbn [snd sim]; solve [ auto ]
  | |- keeps _ Math_random => intro; reflexivity
  | |- keeps _ refsPresent => intro; reflexivity
  end.

Ltac blind_tac :=
  unfold addLog, setLogs, setClientState, setServerState, setConnectionStatus,
    setRetryCount, setIsSimulating, setCurrentStep, setClientISN, setServerISN,
    setClientSeq, setServerSeq;
  repeat blind_step.

Lemma executeStep_blind (snap : Sim) (step : Z) :
  keeps observe (executeStep snap step).
Proof.
  unfold executeStep, sendStepPacket, stepPacket, animatePacket,
    shouldDropPacket. blind_tac.
Qed.

Lemma afterFailedAttempt_blind (attempts : Z) :
  keeps observe (afterFailedAttempt attempts).
Proof. unfold afterFailedAttempt. blind_tac. Qed.

Lemma attemptWorld_blind (snap : Sim) (step : Z) (n : nat) (w : World) :
  observe (attemptWorld snap step n w) = observe w.
Proof.
  induction n as [ | n IH ]; cbn [attemptWorld]; [ reflexivity | ].
  rewrite afterFailedAttempt_blind, executeStep_blind. exact IH.
Qed.

Lemma retriesExhausted_blind : keeps observe retriesExhausted.
Proof. unfold retriesExhausted. blind_tac. Qed.

Lemma retryLoop_blind (snap : Sim) (step : Z) (fuel : nat) :
  forall attempts, keeps observe (retryLoop snap step fuel attempts).
Proof.
  induction fuel as [ | fuel IH ]; intros attempts; cbn [retryLoop].
  - apply retriesExhausted_blind.
  - destruct (attempts <? maxRetries); [ | apply retriesExhausted_blind ].
    apply keeps_bind; [ apply executeStep_blind | intros success ].
    destruct success; [ blind_tac | ].
    apply keeps_bind; [ blind_tac | intros _ ].
    apply keeps_bind; [ blind_tac | intros _ ].
    apply IH.
Qed.

Lemma handleStepExecution_blind (snap : Sim) (step : Z) :
  keeps observe (handleStepExecution snap step).
Proof. apply retryLoop_blind. Qed.

Lemma autoLoop_blind (snap : Sim) (fuel : nat) :
  forall step, keeps observe (autoLoop snap fuel step).
Proof.
  induction fuel as [ | fuel IH ]; intros step; cbn [autoLoop].
  - apply keeps_ret.
  - destruct (step <=? 3); [ | apply keeps_ret ].
    destruct (negb (isSimulating snap)); [ apply keeps_ret | ].
    apply keeps_bind; [ apply handleStepExecution_blind | intros success ].
    destruct (negb success); [ apply keeps_ret | ].
    apply keeps_bind; [ blind_tac | intros _ ].
    apply IH.
Qed.

Lemma startAutoSimulation_blind (snap : Sim) :
  keeps observe (startAutoSimulation snap).
Proof.
  unfold startAutoSimulation.
  apply keeps_bind; [ blind_tac | intros _ ].
  apply keeps_bind; [ apply autoLoop_blind | intros _ ].
  blind_tac.
Qed.

Lemma executeNextStep_blind (snap : Sim) :
  keeps observe (executeNextStep snap).
Proof.
  unfold executeNextStep.
  destruct (currentStep snap >=? 3); [ apply keeps_ret | ].
  apply keeps_bind; [ blind_tac | intros _ ].
  apply keeps_bind; [ apply handleStepExecution_blind | intros success ].
  apply keeps_bind; [ destruct success; blind_tac | intros _ ].
  blind_tac.
Qed.

Lemma resetSimulation_blind (snap : Sim) :
  keeps observe (resetSimulation snap).
Proof. unfold resetSimulation, generateISN. blind_tac. Qed.

End Frames.


(** The same for an observation of the store that is blind to the whole
    state and to the number of draws used: the random source, the refs. *)

Section WorldFrames.

Context {X : Type} (proj : World -> X).

Hypothesis blind_state : forall f w, proj (exec (modify f) w) = proj w.
Hypothesis blind_drawn : forall w, proj (exec Math_random w) = proj w.

Ltac outside_step :=
  match goal with
  | |- keeps _ (ret _) => apply keeps_ret
  | |- keeps _ (bind _ _) => apply keeps_bind; [ | intros ? ]
  | |- keeps _ (if ?b then _ else _) => destruct b
  | |- keeps _ (match ?x with _ => _ end) => destruct x
  | |- keeps _ (modify _) => intro; apply blind_state
  | |- keeps _ Math_random => intro; apply blind_drawn
  | |- keeps _ refsPresent => intro; reflexivity
  end.

Ltac outside_tac :=
  unfold addLog, setLogs, setClientState, setServerState, setConnectionStatus,
    setRetryCount, setIsSimulating, setCurrentStep, setClientISN, setServerISN,
    setClientSeq, setServerSeq;
  repeat outside_step.

Lemma executeStep_outside (snap : Sim) (step : Z) :
  keeps proj (executeStep snap step).
Proof.
  unfold executeStep, sendStepPacket, stepPacket, animatePacket,
    shouldDropPacket. outside_tac.
Qed.

Lemma retriesExhausted_outside : keeps proj retriesExhausted.
Proof. unfold retriesExhausted. outside_tac. Qed.

Lemma retryLoop_outside (snap : Sim) (step : Z) (fuel : nat) :
  forall attempts, keeps proj (retryLoop snap step fuel attempts).
Proof.
  induction fuel as [ | fuel IH ]; intros attempts; cbn [retryLoop].
  - apply retriesExhausted_outside.
  - destruct (attempts <? maxRetries); [ | apply retriesExhausted_outside ].
    apply keeps_bind; [ apply executeStep_outside | intros success ].
    destruct success; [ outside_tac | ].
    apply keeps_bind; [ outside_tac | intros _ ].
    apply keeps_bind; [ outside_tac | intros _ ].
    apply IH.
Qed.

Lemma handleStepExecution_outside (snap : Sim) (step : Z) :
  keeps proj (handleStepExecution snap step).
Proof. apply retryLoop_outside. Qed.

Lemma autoLoop_outside (snap : Sim) (fuel : nat) :
  forall step, keeps proj (autoLoop snap fuel step).
Proof.
  induction fuel as [ | fuel IH ]; intros step; cbn [autoLoop].
  - apply keeps_ret.
  - destruct (step <=? 3); [ | apply keeps_ret ].
    destruct (negb (isSimulating snap)); [ apply keeps_ret | ].
    apply keeps_bind; [ apply handleStepExecution_outside | intros success ].
    destruct (negb success); [ apply keeps_ret | ].
    apply keeps_bind; [ outside_tac | intros _ ].
    apply IH.
Qed.

Lemma startAutoSimulation_outside (snap : Sim) :
  keeps proj (startAutoSimulation snap).
Proof.
  unfold startAutoSimulation.
  apply keeps_bind; [ outside_tac | intros _ ].
  apply keeps_bind; [ apply autoLoop_outside | intros _ ].
  outside_tac.
Qed.

Lemma executeNextStep_outside (snap : Sim) :
  keeps proj (executeNextStep snap).
Proof.
  unfold executeNextStep.
  destruct (currentStep snap >=? 3); [ apply keeps_ret | ].
  apply keeps_bind; [ outside_tac | intros _ ].
  apply keeps_bind; [ apply handleStepExecution_outside | intros success ].
  apply keeps_bind; [ destruct success; outside_tac | intros _ ].
  outside_tac.
Qed.

Lemma resetSimulation_outside (snap : Sim) :
  keeps proj (resetSimulation snap).
Proof. unfold resetSimulation, generateISN. outside_tac. Qed.

Lemma applyOp_outside (o : Op) (w : World) : proj (applyOp o w) = proj w.
Proof.
  destruct o; cbn [applyOp].
  - destruct (isSimulating (sim w)); [ reflexivity | apply resetSimulation_outside ].
  - destruct (startDisabled (sim w)); [ reflexivity | ].
    destruct (simulationMode (sim w));
      [ apply startAutoSimulation_outside | apply executeNextStep_outside ].
  - apply blind_state.
  - apply blind_state.
  - apply blind_state.
  - apply blind_state.
Qed.

End WorldFrames.

(** ** Settled pages *)

(** The case analysis behind the facts about one attempt: the step index,
    the refs, the loss policy and the draw. *)
Ltac attempt_cases snap step w :=
  let s := fresh "s" in
  let d := fresh "d" in
  let n := fresh "n" in
  let r := fresh "r" in
  let q := fresh "q" in
  destruct w as [s d n r];
  destruct step as [ | q | q ];
  [ | destruct q as [ [ q | q | ] | [ q | q | ] | ] | ];
  unfold_step; simpl;
  try (destruct r; simpl);
  try (destruct (packetLoss snap) eqn:?; simpl);
  try (destruct (Js.ltb (d n) (3 # 10)) eqn:?; simpl).

Lemma executeStep_outcome (snap : Sim) (step : Z) (w : World) :
  noneEstablished (sim w) ->
  let s' := sim (exec (executeStep snap step) w) in
  if result (executeStep snap step) w
  then (step = 3 /\ allEstablished s') \/ (step <> 3 /\ noneEstablished s')
  else noneEstablished s'.
Proof.
  unfold noneEstablished, allEstablished.
  attempt_cases snap step w; intros (H1 & H2 & H3);
    try (repeat split; first [ assumption | discriminate ]);
    try (left; repeat split; reflexivity);
    right; repeat split; first [ assumption | discriminate ].
Qed.

Lemma failedState_noneEstablished (s : Sim) : failedState s -> noneEstablished s.
Proof.
  intros (H1 & H2 & H3). unfold noneEstablished.
  rewrite H1, H2, H3. repeat split; discriminate.
Qed.

Lemma noneEstablished_after_failure (snap : Sim) (step k : Z) (w : World) :
  noneEstablished (sim w) ->
  result (executeStep snap step) w = false ->
  noneEstablished
    (sim (exec (afterFailedAttempt k) (exec (executeStep snap step) w))).
Proof.
  intros H0 E. pose proof (executeStep_outcome snap step w H0) as O.
  cbv zeta in O. rewrite E in O.
  rewrite (afterFailedAttempt_blind noneEstablished
             (fun _ _ => eq_refl) (fun _ _ => eq_refl)).
  exact O.
Qed.

(** What a run of the retry controller leaves: success with the retry
    counter at 0, the connection established exactly when the step was 3; or
    failure with the retry counter at 3 and the failure state.  The step
    counter is not written, and [isSimulating] only on failure. *)
Lemma handleStepExecution_outcome (snap : Sim) (step : Z) (w : World) :
  noneEstablished (sim w) ->
  let s' := sim (exec (handleStepExecution snap step) w) in
  currentStep s' = currentStep (sim w) /\
  ((result (handleStepExecution snap step) w = true /\ retryCount s' = 0 /\
    isSimulating s' = isSimulating (sim w) /\
    ((step = 3 /\ allEstablished s') \/ (step <> 3 /\ noneEstablished s'))) \/
   (result (handleStepExecution snap step) w = false /\ retryCount s' = 3 /\
    isSimulating s' = false /\ failedState s')).
Proof.
  intros H0. cbv zeta. split.
  - apply (handleStepExecution_blind currentStep); intros; reflexivity.
  - assert (Hsim : forall n,
               isSimulating
                 (sim (exec (executeStep snap step) (attemptWorld snap step n w))) =
               isSimulating (sim w)).
    { intros n.
      rewrite (executeStep_blind isSimulating) by (intros; reflexivity).
      apply (attemptWorld_blind isSimulating); intros; reflexivity. }
    unfold result, exec. rewrite handleStepExecution_attempts.
    unfold attemptSucceeds.
    assert (N0 : noneEstablished (sim (attemptWorld snap step 0 w))) by exact H0.
    pose proof (executeStep_outcome snap step (attemptWorld snap step 0 w) N0) as O0.
    cbv zeta in O0.
    destruct (result (executeStep snap step) (attemptWorld snap step 0 w)) eqn:E0.
    { left. repeat split; [ apply (Hsim 0%nat) | exact O0 ]. }
    assert (N1 : noneEstablished (sim (attemptWorld snap step 1 w)))
      by exact (noneEstablished_after_failure snap step (Z.of_nat 1) _ N0 E0).
    pose proof (executeStep_outcome snap step (attemptWorld snap step 1 w) N1) as O1.
    cbv zeta in O1.
    destruct (result (executeStep snap step) (attemptWorld snap step 1 w)) eqn:E1.
    { left. repeat split; [ apply (Hsim 1%nat) | exact O1 ]. }
    assert (N2 : noneEstablished (sim (attemptWorld snap step 2 w)))
      by exact (noneEstablished_after_failure snap step (Z.of_nat 2) _ N1 E1).
    pose proof (executeStep_outcome snap step (attemptWorld snap step 2 w) N2) as O2.
    cbv zeta in O2.
    destruct (result (executeStep snap step) (attemptWorld snap step 2 w)) eqn:E2.
    { left. repeat split; [ apply (Hsim 2%nat) | exact O2 ]. }
    right. repeat split.
Qed.

Lemma resetSimulation_settled (snap : Sim) (w : World) :
  settled (sim (exec (resetSimulation snap) w)).
Proof.
  destruct w as [s d n r]. unfold resetSimulation, generateISN, exec.
  destruct (randomizeISN snap); cbn;
    (split; [ reflexivity | ]);
    (split; [ right; repeat split; try discriminate; lia | left; reflexivity ]).
Qed.

Lemma executeNextStep_settled (w : World) :
  settled (sim w) -> settled (sim (invoke executeNextStep w)).
Proof.
  intros (Hi & Hc & Hr). unfold invoke.
  destruct Hc as [ (H3 & He) | (Hlt & Hn) ].
  - unfold executeNextStep.
    assert (E : (currentStep (sim w) >=? 3) = true)
      by (rewrite Z.geb_leb; apply Z.leb_le; lia).
    rewrite E. cbn. repeat split; auto.
  - rewrite executeNextStep_run by lia. cbv zeta.
    pose proof (handleStepExecution_outcome (sim w) (currentStep (sim w) + 1)
                  (exec (setIsSimulating true) w) Hn) as (Hcs & Hout).
    cbv zeta in Hcs, Hout.
    destruct Hout as [ (Et & Hr0 & _ & Hst) | (Ef & Hr3 & _ & Hf) ].
    + rewrite Et. split; [ reflexivity | ]. split.
      * destruct Hst as [ (E3 & Ha) | (N3 & Hn') ].
        -- left. split; [ exact E3 | exact Ha ].
        -- right. split; [ cbn; lia | exact Hn' ].
      * left. exact Hr0.
    + rewrite Ef. split; [ reflexivity | ]. split.
      * right. split.
        -- change (0 <= currentStep
                     (sim (exec (handleStepExecution (sim w) (currentStep (sim w) + 1))
                             (exec (setIsSimulating true) w))) < 3).
           rewrite Hcs. cbn. lia.
        -- apply failedState_noneEstablished. exact Hf.
      * right. split; [ exact Hr3 | exact Hf ].
Qed.

Lemma applyOp_settled (o : Op) (w : World) :
  settled (sim w) -> settled (sim (applyOp o w)).
Proof.
  intros H. destruct o; cbn [applyOp]; try exact H.
  - destruct (isSimulating (sim w)); [ exact H | apply resetSimulation_settled ].
  - destruct (startDisabled (sim w)); [ exact H | ].
    destruct (simulationMode (sim w)).
    + unfold invoke.
      rewrite startAutoSimulation_guard_closed by (apply H).
      destruct H as (Hi & Hc & Hr). split; [ reflexivity | ].
      split; [ exact Hc | exact Hr ].
    + apply executeNextStep_settled. exact H.
Qed.

Lemma reachable_settled (w : World) : reachable w -> settled (sim w).
Proof.
  intros (rnd & os & ->). revert rnd.
  induction os as [ | o os IH ] using rev_ind; intros rnd.
  - unfold applyOps, mounted, invoke. cbn [fold_left].
    apply resetSimulation_settled.
  - unfold applyOps. rewrite fold_left_app. cbn [fold_left].
    apply applyOp_settled, IH.
Qed.

(** X1. On every reachable page the step counter lies in 0..3; it is 3
    exactly when the status is established, that is, the established banner
    shows exactly when the third step indicator is lit; and then, and only
    then, the endpoints are ESTABLISHED. *)
Theorem reachable_progress_display (w : World) :
  reachable w ->
  0 <= currentStep (sim w) <= 3 /\
  (currentStep (sim w) = 3 <-> connectionStatus (sim w) = established) /\
  (establishedBanner (sim w) = stepIndicator (sim w) 3) /\
  (connectionStatus (sim w) = established <-> clientState (sim w) = ESTABLISHED) /\
  (connectionStatus (sim w) = established <-> serverState (sim w) = ESTABLISHED).
Proof.
  intros Hr. destruct (reachable_settled w Hr) as (_ & Hc & _).
  unfold establishedBanner, stepIndicator.
  destruct Hc as [ (H3 & He & Hcl & Hsv) | (Hlt & Hn & Hcl & Hsv) ].
  - rewrite H3, He. repeat split; try lia; intros; assumption.
  - assert (E : (currentStep (sim w) >=? 3) = false)
      by (rewrite Z.geb_leb; apply Z.leb_gt; lia).
    rewrite E.
    repeat split; try lia; try (intros; contradiction).
    destruct (connectionStatus (sim w)); try reflexivity. contradiction.
Qed.

Lemma reachable_progress_display_witness :
  currentStep (sim afterAck) = 3 /\
  connectionStatus (sim afterAck) = established /\
  clientState (sim afterAck) = ESTABLISHED.
Proof.
  destruct (reachable_progress_display afterAck afterAck_reachable)
    as (_ & H3 & _ & Hc & _).
  assert (E : currentStep (sim afterAck) = 3) by (vm_compute; reflexivity).
  split; [ exact E | ].
  split; [ exact (proj1 H3 E) | exact (proj1 Hc (proj1 H3 E)) ].
Defined.

(** X4. A single-step advance moves the step counter up by one exactly when
    the counter is below 3 and the retry controller reports success;
    otherwise the counter stays.  No operation but the reset lowers the
    counter. *)
Theorem step_counter_monotone (w : World) :
  currentStep (sim (invoke executeNextStep w)) =
    (if (currentStep (sim w) <? 3) &&
        result (handleStepExecution (sim w) (currentStep (sim w) + 1))
          (exec (setIsSimulating true) w)
     then currentStep (sim w) + 1 else currentStep (sim w)) /\
  (forall o, o <> OpReset ->
     currentStep (sim w) <= currentStep (sim (applyOp o w)) <= currentStep (sim w) + 1).
Proof.
  assert (Hnext :
    currentStep (sim (invoke executeNextStep w)) =
    (if (currentStep (sim w) <? 3) &&
        result (handleStepExecution (sim w) (currentStep (sim w) + 1))
          (exec (setIsSimulating true) w)
     then currentStep (sim w) + 1 else currentStep (sim w))).
  { unfold invoke. destruct (Z.ltb_spec (currentStep (sim w)) 3) as [Hlt | Hge].
    - rewrite executeNextStep_run by exact Hlt. cbv zeta. cbn [andb].
      destruct (result (handleStepExecution (sim w) (currentStep (sim w) + 1))
                  (exec (setIsSimulating true) w)); [ reflexivity | ].
      change (currentStep
                (sim (exec (handleStepExecution (sim w) (currentStep (sim w) + 1))
                        (exec (setIsSimulating true) w))) = currentStep (sim w)).
      rewrite (handleStepExecution_blind currentStep) by (intros; reflexivity).
      reflexivity.
    - unfold executeNextStep.
      assert (E : (currentStep (sim w) >=? 3) = true)
        by (rewrite Z.geb_leb; apply Z.leb_le; lia).
      rewrite E. reflexivity. }
  split; [ exact Hnext | ].
  intros o Ho. destruct o; cbn [applyOp]; try (cbn; lia).
  - contradiction.
  - destruct (startDisabled (sim w)) eqn:Ed; [ lia | ].
    destruct (simulationMode (sim w)).
    + unfold startDisabled in Ed. apply orb_false_elim in Ed. destruct Ed as [Hi _].
      unfold invoke. rewrite startAutoSimulation_guard_closed by exact Hi.
      cbn. lia.
    + rewrite Hnext.
      destruct ((currentStep (sim w) <? 3) && _); lia.
Qed.

(** ** The log and the random source along a run *)

Lemma extendsLog_refl (w : World) : extendsLog 0 w w.
Proof. exists []. split; [ symmetry; apply app_nil_r | apply Nat.le_refl ]. Qed.

Lemma extendsLog_trans (n m : nat) (w1 w2 w3 : World) :
  extendsLog n w1 w2 -> extendsLog m w2 w3 -> extendsLog (n + m) w1 w3.
Proof.
  intros (t1 & E1 & L1) (t2 & E2 & L2). exists (t1 ++ t2)%list. split.
  - rewrite E2, E1, app_assoc. reflexivity.
  - rewrite length_app. lia.
Qed.

Lemma extendsLog_weaken (n m : nat) (w w' : World) :
  (n <= m)%nat -> extendsLog n w w' -> extendsLog m w w'.
Proof. intros Hle (t & E & L). exists t. split; [ exact E | lia ]. Qed.

Lemma extendsLog_same (w w' : World) :
  logs (sim w') = logs (sim w) -> extendsLog 0 w w'.
Proof.
  intros E. exists []. split; [ rewrite E; symmetry; apply app_nil_r | apply Nat.le_refl ].
Qed.

Lemma addLog_extends (msg : string) (t : LogType) (w : World) :
  extendsLog 1 w (exec (addLog msg t) w).
Proof. exists [mkLog msg t]. split; [ reflexivity | apply Nat.le_refl ]. Qed.

Ltac log_tail :=
  first
    [ exists []; split; [ symmetry; apply app_nil_r | cbn; lia ]
    | eexists; split; [ reflexivity | cbn; lia ]
    | eexists; split; [ rewrite <- app_assoc; reflexivity | cbn; lia ] ].

(** One attempt appends at most one entry when it fails and at most two when
    it succeeds, and uses at most one draw, none unless the policy is
    random. *)
Lemma executeStep_log (snap : Sim) (step : Z) (w : World) :
  extendsLog (if result (executeStep snap step) w then 2 else 1)
    w (exec (executeStep snap step) w).
Proof.
  unfold extendsLog. attempt_cases snap step w; log_tail.
Qed.

Lemma executeStep_draws (snap : Sim) (step : Z) (w : World) :
  drawsUpTo 1 w (exec (executeStep snap step) w) /\
  (packetLoss snap <> loss_random ->
   drawn (exec (executeStep snap step) w) = drawn w).
Proof.
  unfold drawsUpTo. attempt_cases snap step w;
    (split; [ lia | first [ reflexivity | intros H; contradiction H; reflexivity ] ]).
Qed.

Lemma afterFailedAttempt_log (k : Z) (w : World) :
  extendsLog 1 w (exec (afterFailedAttempt k) w).
Proof.
  unfold extendsLog, afterFailedAttempt, exec, bind, setRetryCount, addLog,
    setLogs, modify.
  destruct (k <? maxRetries); cbn; log_tail.
Qed.

Lemma afterFailedAttempt_last_log (w : World) :
  logs (sim (exec (afterFailedAttempt 3) w)) = logs (sim w).
Proof. reflexivity. Qed.

Lemma afterFailedAttempt_drawn (k : Z) (w : World) :
  drawn (exec (afterFailedAttempt k) w) = drawn w.
Proof.
  unfold afterFailedAttempt, exec, bind, setRetryCount, addLog, setLogs, modify.
  destruct (k <? maxRetries); reflexivity.
Qed.

(** The store before attempt [n], the earlier ones having failed: at most
    two entries and one draw per failed attempt. *)
Lemma attemptWorld_log (snap : Sim) (step : Z) (w : World) (n : nat) :
  (forall i, (i < n)%nat -> attemptSucceeds snap step i w = false) ->
  extendsLog (2 * n) w (attemptWorld snap step n w) /\
  drawsUpTo n w (attemptWorld snap step n w) /\
  (packetLoss snap <> loss_random ->
   drawn (attemptWorld snap step n w) = drawn w).
Proof.
  induction n as [ | n IH ]; intros Hf.
  - cbn [attemptWorld]. split; [ apply extendsLog_refl | ].
    split; [ unfold drawsUpTo; lia | reflexivity ].
  - destruct IH as (IHl & IHd & IHn); [ intros i Hi; apply Hf; lia | ].
    cbn [attemptWorld].
    pose proof (executeStep_log snap step (attemptWorld snap step n w)) as EL.
    assert (E : result (executeStep snap step) (attemptWorld snap step n w) = false)
      by (apply (Hf n); lia).
    rewrite E in EL.
    destruct (executeStep_draws snap step (attemptWorld snap step n w)) as (ED & EN).
    split; [ | split ].
    + replace (2 * S n)%nat with (2 * n + 1 + 1)%nat by lia.
      eapply extendsLog_trans; [ | apply afterFailedAttempt_log ].
      eapply extendsLog_trans; [ exact IHl | exact EL ].
    + unfold drawsUpTo in *. rewrite afterFailedAttempt_drawn. lia.
    + intros Hp. rewrite afterFailedAttempt_drawn, (EN Hp). apply IHn, Hp.
Qed.

Lemma drawsUpTo_weaken (n m : nat) (w w' : World) :
  (n <= m)%nat -> drawsUpTo n w w' -> drawsUpTo m w w'.
Proof. unfold drawsUpTo. lia. Qed.

Section Footprint.

Variables (snap : Sim) (step : Z) (w : World).

Lemma success_footprint (n : nat) :
  (forall i, (i < n)%nat -> attemptSucceeds snap step i w = false) ->
  attemptSucceeds snap step n w = true ->
  let w' := exec (setRetryCount 0)
              (exec (executeStep snap step) (attemptWorld snap step n w)) in
  extendsLog (2 * n + 2) w w' /\ drawsUpTo (n + 1) w w' /\
  (packetLoss snap <> loss_random -> drawn w' = drawn w).
Proof.
  intros Hf Hs. destruct (attemptWorld_log snap step w n Hf) as (WL & WD & WN).
  pose proof (executeStep_log snap step (attemptWorld snap step n w)) as EL.
  unfold attemptSucceeds in Hs. rewrite Hs in EL.
  destruct (executeStep_draws snap step (attemptWorld snap step n w)) as (ED & EN).
  cbv zeta. split; [ | split ].
  - eapply extendsLog_trans; [ exact WL | exact EL ].
  - unfold drawsUpTo in *.
    change (drawn (exec (setRetryCount 0)
                     (exec (executeStep snap step) (attemptWorld snap step n w))))
      with (drawn (exec (executeStep snap step) (attemptWorld snap step n w))).
    lia.
  - intros Hp.
    change (drawn (exec (executeStep snap step) (attemptWorld snap step n w)) = drawn w).
    rewrite (EN Hp). apply WN, Hp.
Qed.

Lemma failure_footprint :
  (forall i, (i < 3)%nat -> attemptSucceeds snap step i w = false) ->
  let w' := exec retriesExhausted (attemptWorld snap step 3 w) in
  extendsLog 6 w w' /\ drawsUpTo 3 w w' /\
  (packetLoss snap <> loss_random -> drawn w' = drawn w).
Proof.
  intros Hf.
  destruct (attemptWorld_log snap step w 2) as (WL & WD & WN);
    [ intros i Hi; apply Hf; lia | ].
  pose proof (executeStep_log snap step (attemptWorld snap step 2 w)) as EL.
  assert (E : result (executeStep snap step) (attemptWorld snap step 2 w) = false)
    by (apply (Hf 2%nat); lia).
  rewrite E in EL.
  destruct (executeStep_draws snap step (attemptWorld snap step 2 w)) as (ED & EN).
  cbv zeta. split; [ | split ].
  - change 6%nat with (2 * 2 + 1 + 1)%nat.
    eapply extendsLog_trans;
      [ eapply extendsLog_trans; [ exact WL | exact EL ] | ].
    exists [mkLog "❌ CONNECTION FAILED - Max retries exceeded" log_error].
    split; [ reflexivity | apply Nat.le_refl ].
  - unfold drawsUpTo in *.
    change (drawn (exec retriesExhausted (attemptWorld snap step 3 w)))
      with (drawn (exec (executeStep snap step) (attemptWorld snap step 2 w))).
    lia.
  - intros Hp.
    change (drawn (exec (executeStep snap step) (attemptWorld snap step 2 w)) = drawn w).
    rewrite (EN Hp). apply WN, Hp.
Qed.

End Footprint.

Lemma retry_footprint (snap : Sim) (step : Z) (w : World) :
  extendsLog 6 w (exec (handleStepExecution snap step) w) /\
  drawsUpTo 3 w (exec (handleStepExecution snap step) w) /\
  (packetLoss snap <> loss_random ->
   drawn (exec (handleStepExecution snap step) w) = drawn w).
Proof.
  unfold exec. rewrite handleStepExecution_attempts.
  destruct (attemptSucceeds snap step 0 w) eqn:E0.
  { destruct (success_footprint snap step w 0) as (L & D & N);
      [ intros i Hi; lia | exact E0 | ].
    split; [ apply extendsLog_weaken with (2 * 0 + 2)%nat; [ lia | exact L ] | ].
    split; [ apply drawsUpTo_weaken with (0 + 1)%nat; [ lia | exact D ] | exact N ]. }
  destruct (attemptSucceeds snap step 1 w) eqn:E1.
  { destruct (success_footprint snap step w 1) as (L & D & N);
      [ intros i Hi; replace i with 0%nat by lia; exact E0 | exact E1 | ].
    split; [ apply extendsLog_weaken with (2 * 1 + 2)%nat; [ lia | exact L ] | ].
    split; [ apply drawsUpTo_weaken with (1 + 1)%nat; [ lia | exact D ] | exact N ]. }
  assert (H01 : forall i, (i < 2)%nat -> attemptSucceeds snap step i w = false).
  { intros i Hi. destruct i as [ | [ | i ] ]; [ exact E0 | exact E1 | lia ]. }
  destruct (attemptSucceeds snap step 2 w) eqn:E2.
  { destruct (success_footprint snap step w 2 H01 E2) as (L & D & N).
    split; [ exact L | ]. split; [ exact D | exact N ]. }
  apply failure_footprint.
  intros i Hi. destruct i as [ | [ | [ | i ] ] ];
    [ exact E0 | exact E1 | exact E2 | lia ].
Qed.

(** X5. A run of the retry controller only appends to the log, at most six
    entries; it uses at most three draws, none unless the loss policy is
    random; and it leaves the random source and the refs as they were. *)
Theorem handleStepExecution_footprint (snap : Sim) (step : Z) (w : World) :
  extendsLog 6 w (exec (handleStepExecution snap step) w) /\
  drawsUpTo 3 w (exec (handleStepExecution snap step) w) /\
  (packetLoss snap <> loss_random ->
   drawn (exec (handleStepExecution snap step) w) = drawn w) /\
  environment (exec (handleStepExecution snap step) w) = environment w.
Proof.
  destruct (retry_footprint snap step w) as (L & D & N).
  split; [ exact L | ]. split; [ exact D | ]. split; [ exact N | ].
  apply (handleStepExecution_outside environment); intros; reflexivity.
Qed.

Lemma executeNextStep_log (w : World) :
  extendsLog 6 w (invoke executeNextStep w).
Proof.
  unfold invoke. destruct (Z.ltb_spec (currentStep (sim w)) 3) as [Hlt | Hge].
  - rewrite executeNextStep_run by exact Hlt. cbv zeta.
    destruct (retry_footprint (sim w) (currentStep (sim w) + 1)
                (exec (setIsSimulating true) w)) as ((t & E & L) & _).
    exists t. split; [ | exact L ].
    destruct (result (handleStepExecution (sim w) (currentStep (sim w) + 1))
                (exec (setIsSimulating true) w)); exact E.
  - unfold executeNextStep.
    assert (E : (currentStep (sim w) >=? 3) = true)
      by (rewrite Z.geb_leb; apply Z.leb_le; lia).
    rewrite E. apply extendsLog_weaken with 0%nat; [ lia | apply extendsLog_refl ].
Qed.

Lemma executeNextStep_draws (w : World) :
  drawsUpTo 3 w (invoke executeNextStep w).
Proof.
  unfold invoke. destruct (Z.ltb_spec (currentStep (sim w)) 3) as [Hlt | Hge].
  - rewrite executeNextStep_run by exact Hlt. cbv zeta.
    destruct (retry_footprint (sim w) (currentStep (sim w) + 1)
                (exec (setIsSimulating true) w)) as (_ & D & _).
    destruct (result (handleStepExecution (sim w) (currentStep (sim w) + 1))
                (exec (setIsSimulating true) w)); exact D.
  - unfold executeNextStep.
    assert (E : (currentStep (sim w) >=? 3) = true)
      by (rewrite Z.geb_leb; apply Z.leb_le; lia).
    rewrite E. unfold drawsUpTo. cbn. lia.
Qed.

Lemma resetSimulation_draws (snap : Sim) (w : World) :
  drawn (exec (resetSimulation snap) w) =
  (if randomizeISN snap then drawn w + 2 else drawn w)%nat.
Proof.
  destruct w as [s d n r]. unfold resetSimulation, generateISN, exec.
  destruct (randomizeISN snap); cbn; lia.
Qed.

(** X6. Every operation but the reset only appends to the log, at most six
    entries at a time.  Every operation uses at most three draws (a reset
    two with randomization on and none with it off), and none replaces the
    random source or detaches the refs. *)
Theorem operations_footprint (o : Op) (w : World) :
  (o <> OpReset -> extendsLog 6 w (applyOp o w)) /\
  drawsUpTo 3 w (applyOp o w) /\
  environment (applyOp o w) = environment w /\
  drawn (invoke resetSimulation w) =
    (if randomizeISN (sim w) then drawn w + 2 else drawn w)%nat.
Proof.
  split; [ | split; [ | split ] ].
  - intros Ho.
    assert (Hsame : forall w', logs (sim w') = logs (sim w) -> extendsLog 6 w w').
    { intros w' E. apply extendsLog_weaken with 0%nat; [ lia | ].
      apply extendsLog_same, E. }
    destruct o; cbn [applyOp]; try (apply Hsame; reflexivity).
    + contradiction.
    + destruct (startDisabled (sim w)) eqn:Ed; [ apply Hsame; reflexivity | ].
      destruct (simulationMode (sim w)).
      * unfold startDisabled in Ed. apply orb_false_elim in Ed. destruct Ed as [Hi _].
        unfold invoke. rewrite startAutoSimulation_guard_closed by exact Hi.
        apply Hsame. reflexivity.
      * apply executeNextStep_log.
  - destruct o; cbn [applyOp]; try (unfold drawsUpTo; cbn; lia).
    + destruct (isSimulating (sim w)); [ unfold drawsUpTo; lia | ].
      unfold drawsUpTo, invoke. rewrite resetSimulation_draws.
      destruct (randomizeISN (sim w)); lia.
    + destruct (startDisabled (sim w)) eqn:Ed; [ unfold drawsUpTo; lia | ].
      destruct (simulationMode (sim w)).
      * unfold startDisabled in Ed. apply orb_false_elim in Ed. destruct Ed as [Hi _].
        unfold invoke. rewrite startAutoSimulation_guard_closed by exact Hi.
        unfold drawsUpTo. cbn. lia.
      * apply executeNextStep_draws.
  - apply (applyOp_outside environment); intros; reflexivity.
  - unfold invoke. apply resetSimulation_draws.
Qed.

Lemma operations_footprint_witness :
  extendsLog 6 failedWorld (applyOp OpStart failedWorld).
Proof.
  apply (proj1 (operations_footprint OpStart failedWorld)). discriminate.
Defined.

(** ** Attempts that send nothing *)

(** X7. Without the refs no packet is sent: for every step and every loss
    policy the retry controller fails after three silent attempts.  The log
    gains the two retransmission lines and the failure line and no loss line,
    no draw is used, and the endpoints end FAILED. *)
Theorem handleStepExecution_without_refs (snap : Sim) (step : Z) (w : World) :
  refsAttached w = false ->
  result (handleStepExecution snap step) w = false /\
  logs (sim (exec (handleStepExecution snap step) w)) =
    (logs (sim w) ++
     [ mkLog "🔄 Retransmitting... (Attempt 2/3)" log_warning;
       mkLog "🔄 Retransmitting... (Attempt 3/3)" log_warning;
       mkLog "❌ CONNECTION FAILED - Max retries exceeded" log_error ])%list /\
  drawn (exec (handleStepExecution snap step) w) = drawn w /\
  failedState (sim (exec (handleStepExecution snap step) w)) /\
  retryCount (sim (exec (handleStepExecution snap step) w)) = 3.
Proof.
  destruct w as [s d n r]. cbn [refsAttached]. intros ->.
  destruct step as [ | q | q ];
    [ | destruct q as [ [ q | q | ] | [ q | q | ] | ] | ];
    simpl; repeat split; rewrite <- ?app_assoc; reflexivity.
Qed.

Lemma handleStepExecution_without_refs_witness :
  result (handleStepExecution initialSim 1)
    {| sim := initialSim; draws := halfDraws; drawn := 0; refsAttached := false |}
  = false.
Proof.
  apply (handleStepExecution_without_refs initialSim 1
           {| sim := initialSim; draws := halfDraws; drawn := 0;
              refsAttached := false |}).
  reflexivity.
Defined.

(** X8. A step index outside 1..3 sends nothing and changes nothing: the
    executor returns failure with the store as it was.  On a reachable page
    the single-step driver never passes such an index: below 3 the next step
    has a packet. *)
Theorem executeStep_invalid_index (snap : Sim) (step : Z) (w : World) :
  (step <> 1 -> step <> 2 -> step <> 3 -> executeStep snap step w = (false, w)) /\
  (reachable w -> currentStep (sim w) < 3 ->
   exists p, stepPacket (sim w) (currentStep (sim w) + 1) = Some p).
Proof.
  split.
  - intros H1 H2 H3.
    destruct step as [ | q | q ];
      [ | destruct q as [ [ q | q | ] | [ q | q | ] | ] | ];
      try reflexivity; contradiction.
  - intros Hr Hlt. destruct (reachable_settled w Hr) as (_ & Hc & _).
    destruct Hc as [ (H3 & _) | (Hb & _) ]; [ lia | ].
    assert (Hcs : currentStep (sim w) = 0 \/ currentStep (sim w) = 1 \/
                  currentStep (sim w) = 2) by lia.
    destruct Hcs as [ E | [ E | E ] ]; rewrite E; eexists; reflexivity.
Qed.

(** ** Runs in single-step mode *)

(** X9. Single-step mode without loss: from a page with the step counter at
    0 and the refs attached, three advances drive the counter 0, 1, 2, 3 and
    the status connecting, connecting, established; the client becomes
    SYN-SENT, the server SYN-RECEIVED, then both ESTABLISHED.  No retry is
    needed, no draw is used, and the log gains the three packets and the
    establishment line. *)
Theorem single_step_run_without_loss (w : World) :
  packetLoss (sim w) = loss_none ->
  refsAttached w = true ->
  currentStep (sim w) = 0 ->
  let w1 := invoke executeNextStep w in
  let w2 := invoke executeNextStep w1 in
  let w3 := invoke executeNextStep w2 in
  (currentStep (sim w1) = 1 /\ connectionStatus (sim w1) = connecting /\
   clientState (sim w1) = SYN_SENT /\ serverState (sim w1) = serverState (sim w)) /\
  (currentStep (sim w2) = 2 /\ connectionStatus (sim w2) = connecting /\
   clientState (sim w2) = SYN_SENT /\ serverState (sim w2) = SYN_RECEIVED) /\
  (currentStep (sim w3) = 3 /\ allEstablished (sim w3) /\
   retryCount (sim w3) = 0 /\ drawn w3 = drawn w) /\
  logs (sim w3) =
    (logs (sim w) ++
     [ sentLine {| ptype := SYN; seq := Some (clientSeq (sim w)); ack := None;
                   direction := client_to_server |};
       sentLine {| ptype := SYN_ACK; seq := Some (serverSeq (sim w));
                   ack := Some (clientSeq (sim w) + 1);
                   direction := server_to_client |};
       sentLine {| ptype := ACK; seq := Some (clientSeq (sim w) + 1);
                   ack := Some (serverSeq (sim w) + 1);
                   direction := client_to_server |};
       establishedLine ])%list.
Proof.
  intros Hp Hr Hc. destruct w as [s d n r], s.
  simpl in Hp, Hr, Hc. subst.
  cbv -[Js.show Js.truthy app String.append].
  repeat split. rewrite <- !app_assoc. reflexivity.
Qed.


Lemma single_step_run_without_loss_witness :
  currentStep
    (sim (invoke executeNextStep
            (invoke executeNextStep (invoke executeNextStep stepModeFresh)))) = 3.
Proof.
  assert (H1 : packetLoss (sim stepModeFresh) = loss_none) by (vm_compute; reflexivity).
  assert (H2 : refsAttached stepModeFresh = true) by (vm_compute; reflexivity).
  assert (H3 : currentStep (sim stepModeFresh) = 0) by (vm_compute; reflexivity).
  pose proof (single_step_run_without_loss stepModeFresh H1 H2 H3) as H.
  cbv zeta in H. exact (proj1 (proj1 (proj2 (proj2 H)))).
Defined.

(** X10. Single-step mode under loss policy [ack]: from a page with the step
    counter at 0 and the refs attached, the first two advances succeed and
    the third fails after three lost ACKs: the counter stays at 2, the status
    is failed, both endpoints are FAILED and the retry counter reads 3. *)
Theorem single_step_run_losing_ack (w : World) :
  packetLoss (sim w) = loss_ack ->
  refsAttached w = true ->
  currentStep (sim w) = 0 ->
  let w1 := invoke executeNextStep w in
  let w2 := invoke executeNextStep w1 in
  let w3 := invoke executeNextStep w2 in
  (currentStep (sim w1) = 1 /\ connectionStatus (sim w1) = connecting) /\
  (currentStep (sim w2) = 2 /\ connectionStatus (sim w2) = connecting /\
   clientState (sim w2) = SYN_SENT /\ serverState (sim w2) = SYN_RECEIVED) /\
  (currentStep (sim w3) = 2 /\ failedState (sim w3) /\
   retryCount (sim w3) = 3 /\ drawn w3 = drawn w) /\
  logs (sim w3) = (logs (sim w2) ++ exhaustedTrace ACK)%list.
Proof.
  intros Hp Hr Hc. destruct w as [s d n r], s.
  simpl in Hp, Hr, Hc. subst.
  cbv -[Js.show Js.truthy app String.append].
  repeat split. rewrite <- !app_assoc. reflexivity.
Qed.

Lemma single_step_run_losing_ack_witness :
  failedState
    (sim (invoke executeNextStep
            (invoke executeNextStep
               (invoke executeNextStep (applyOp (OpLoss loss_ack) stepModeFresh))))).
Proof.
  assert (H1 : packetLoss (sim (applyOp (OpLoss loss_ack) stepModeFresh)) = loss_ack)
    by (vm_compute; reflexivity).
  assert (H2 : refsAttached (applyOp (OpLoss loss_ack) stepModeFresh) = true)
    by (vm_compute; reflexivity).
  assert (H3 : currentStep (sim (applyOp (OpLoss loss_ack) stepModeFresh)) = 0)
    by (vm_compute; reflexivity).
  pose proof (single_step_run_losing_ack _ H1 H2 H3) as H.
  cbv zeta in H. exact (proj1 (proj2 (proj1 (proj2 (proj2 H))))).
Defined.

(** ** ISNs on reachable pages *)

Lemma resetSimulation_isnInRange (snap : Sim) (w : World) :
  validDraws w -> isnInRange (sim (exec (resetSimulation snap) w)).
Proof.
  intros Hv. destruct w as [s d n r]. unfold validDraws in Hv. cbn [draws] in Hv.
  destruct (Hv n) as [A0 A1]. destruct (Hv (S n)) as [B0 B1].
  pose proof (floor_scaled_range _ A0 A1).
  pose proof (floor_scaled_range _ B0 B1).
  unfold isnInRange, resetSimulation, generateISN, exec.
  destruct (randomizeISN snap); cbn; lia.
Qed.

Lemma applyOp_draws (o : Op) (w : World) : draws (applyOp o w) = draws w.
Proof. apply (applyOp_outside draws); intros; reflexivity. Qed.

Lemma applyOps_draws (os : list Op) (w : World) : draws (applyOps os w) = draws w.
Proof.
  revert w. induction os as [ | o os IH ]; intros w; [ reflexivity | ].
  cbn [applyOps fold_left]. change (draws (applyOps os (applyOp o w)) = draws w).
  rewrite IH. apply applyOp_draws.
Qed.

Lemma mounted_draws (rnd : nat -> Q) : draws (mounted rnd) = rnd.
Proof.
  unfold mounted, invoke.
  rewrite (resetSimulation_outside draws) by (intros; reflexivity). reflexivity.
Qed.

Lemma validDraws_draws (w w' : World) :
  draws w' = draws w -> validDraws w -> validDraws w'.
Proof. unfold validDraws. intros ->. auto. Qed.

Lemma isnInRange_numbers (w w' : World) :
  numbers w' = numbers w -> isnInRange (sim w) -> isnInRange (sim w').
Proof.
  unfold numbers, isnInRange. intros H. injection H as -> -> _ _. auto.
Qed.

Lemma applyOp_isnInRange (o : Op) (w : World) :
  validDraws w -> isnInRange (sim w) -> isnInRange (sim (applyOp o w)).
Proof.
  intros Hv H. destruct o; cbn [applyOp]; try exact H.
  - destruct (isSimulating (sim w)); [ exact H | ].
    apply resetSimulation_isnInRange, Hv.
  - destruct (startDisabled (sim w)); [ exact H | ].
    destruct (simulationMode (sim w)); unfold invoke.
    + eapply isnInRange_numbers; [ apply startAutoSimulation_keeps_numbers | exact H ].
    + eapply isnInRange_numbers; [ apply executeNextStep_keeps_numbers | exact H ].
Qed.

Lemma truthy_positive (v : Z) : 0 < v -> Js.truthy (Some v) = true.
Proof.
  intros H. unfold Js.truthy. destruct (Z.eqb_spec v 0); [ lia | reflexivity ].
Qed.

(** X11. With draws in the range of [Math.random()], on every reachable page
    both ISNs lie in 1000..10999 and the stored sequence numbers equal them.
    The sequence and acknowledgment numbers of every packet are therefore
    nonzero, so the text of a packet always shows them. *)
Theorem reachable_isn_range (w : World) :
  reachable w -> validDraws w ->
  isnInRange (sim w) /\ seqIsISN (sim w) /\
  (forall step p, stepPacket (sim w) step = Some p ->
     Js.truthy (seq p) = true /\ (ack p = None \/ Js.truthy (ack p) = true)).
Proof.
  intros Hr Hv.
  assert (Hrange : isnInRange (sim w)).
  { destruct Hr as (rnd & os & ->).
    assert (Hrnd : forall w', draws w' = rnd -> validDraws w').
    { intros w' E. apply (validDraws_draws (applyOps os (mounted rnd))); [ | exact Hv ].
      rewrite applyOps_draws, mounted_draws. exact E. }
    clear Hv. induction os as [ | o os IH ] using rev_ind.
    - unfold applyOps, mounted, invoke. cbn [fold_left].
      apply resetSimulation_isnInRange, Hrnd. reflexivity.
    - unfold applyOps. rewrite fold_left_app. cbn [fold_left].
      apply applyOp_isnInRange; [ | exact IH ].
      apply Hrnd. fold (applyOps os (mounted rnd)).
      rewrite applyOps_draws. apply mounted_draws. }
  pose proof (reachable_seqIsISN w Hr) as Hs.
  split; [ exact Hrange | ]. split; [ exact Hs | ].
  intros step p Hp. destruct Hrange as [Hc Hsv]. destruct Hs as [Ec Es].
  destruct (stepPacket_some _ _ _ Hp) as [ -> | [ -> | -> ] ];
    injection Hp as <-; cbn [seq ack]; rewrite ?Ec, ?Es;
    (split; [ apply truthy_positive; lia | ]);
    first [ left; reflexivity | right; apply truthy_positive; lia ].
Qed.

Lemma fixedISNDraws_valid (w : World) : draws w = fixedISNDraws -> validDraws w.
Proof.
  intros E n. rewrite E. unfold fixedISNDraws, Qle, Qlt.
  destruct n; cbn; lia.
Qed.

Lemma reachable_isn_range_witness : isnInRange (sim afterAck).
Proof.
  apply (reachable_isn_range afterAck afterAck_reachable).
  apply fixedISNDraws_valid. reflexivity.
Defined.

(** ** Configuration *)

(** X12. The handlers (reset, start, advance, and the retry controller under
    them) never write the configuration: drive mode, loss policy, speed and
    randomization flag are as before.  A change of configuration writes its
    own cell only: what the page shows of the run and the sequence numbers
    are as before. *)
Theorem configuration_is_separate (snap : Sim) (w : World) :
  config (sim (exec (resetSimulation snap) w)) = config (sim w) /\
  config (sim (exec (startAutoSimulation snap) w)) = config (sim w) /\
  config (sim (exec (executeNextStep snap) w)) = config (sim w) /\
  (forall step,
     config (sim (exec (handleStepExecution snap step) w)) = config (sim w)) /\
  (forall o, o <> OpReset -> o <> OpStart ->
     observable (sim (applyOp o w)) = observable (sim w) /\
     numbers (applyOp o w) = numbers w /\
     isSimulating (sim (applyOp o w)) = isSimulating (sim w)).
Proof.
  split; [ apply (resetSimulation_blind config); intros; reflexivity | ].
  split; [ apply (startAutoSimulation_blind config); intros; reflexivity | ].
  split; [ apply (executeNextStep_blind config); intros; reflexivity | ].
  split; [ intros step; apply (handleStepExecution_blind config); intros; reflexivity | ].
  intros o H1 H2. destruct o; try contradiction; repeat split.
Qed.

(** ** The variant without retries *)

Lemma sliceLast4_length {A} (l : list A) : (length (Simple.sliceLast4 l) <= 4)%nat.
Proof. unfold Simple.sliceLast4. rewrite length_skipn. lia. Qed.

Lemma sliceLast4_append {A} (l : list A) (x : A) :
  (Simple.sliceLast4 l ++ [x])%list = lastFive (l ++ [x])%list.
Proof.
  unfold Simple.sliceLast4, lastFive. rewrite length_app. cbn [length].
  replace (length l + 1 - 5)%nat with (length l - 4)%nat by lia.
  rewrite skipn_app.
  replace (length l - 4 - length l)%nat with 0%nat by lia. reflexivity.
Qed.

Lemma lastFive_length {A} (l : list A) : (length (lastFive l) <= 5)%nat.
Proof. unfold lastFive. rewrite length_skipn. lia. Qed.

Lemma lastFive_short {A} (l : list A) : (length l <= 5)%nat -> lastFive l = l.
Proof.
  intros H. unfold lastFive. replace (length l - 5)%nat with 0%nat by lia. reflexivity.
Qed.

Lemma lastFive_suffix {A} (l k : list A) :
  lastFive (lastFive l ++ k)%list = lastFive (l ++ k)%list.
Proof.
  unfold lastFive. rewrite !length_app, length_skipn.
  rewrite !skipn_app, skipn_skipn, length_skipn.
  f_equal; f_equal; lia.
Qed.

(** X13. The log of the variant keeps the last five lines: logging a line
    leaves the last five of the old lines followed by the new one, so never
    more than five lines, the newest last; below five lines nothing is
    dropped. *)
Theorem Simple_addLog_keeps_last_five (msg : string) (w : Simple.World) :
  Simple.logs (Simple.sim (Simple.addLog msg w)) =
    lastFive (Simple.logs (Simple.sim w) ++ [msg])%list /\
  (length (Simple.logs (Simple.sim (Simple.addLog msg w))) <= 5)%nat /\
  last (Simple.logs (Simple.sim (Simple.addLog msg w))) "" = msg /\
  ((length (Simple.logs (Simple.sim w)) < 5)%nat ->
   Simple.logs (Simple.sim (Simple.addLog msg w)) =
     (Simple.logs (Simple.sim w) ++ [msg])%list).
Proof.
  destruct w as [s d n r]. cbn.
  split; [ apply sliceLast4_append | ].
  split; [ rewrite length_app; pose proof (sliceLast4_length (Simple.logs s)); cbn; lia | ].
  split; [ apply last_last | ].
  intros H. rewrite sliceLast4_append. apply lastFive_short.
  rewrite length_app. cbn. lia.
Qed.

(** The case analysis behind the facts about one attempt of the variant. *)
Ltac simple_attempt_cases snap step w :=
  let s := fresh "s" in
  let d := fresh "d" in
  let n := fresh "n" in
  let r := fresh "r" in
  let q := fresh "q" in
  destruct w as [s d n r];
  destruct step as [ | q | q ];
  [ | destruct q as [ [ q | q | ] | [ q | q | ] | ] | ];
  unfold_simple_step; simpl;
  try (destruct r; simpl);
  try (destruct (Simple.packetLoss snap) eqn:?; simpl);
  try (destruct (Js.ltb (d n) (3 # 10)) eqn:?; simpl).

Ltac log_bound :=
  repeat rewrite length_app;
  repeat match goal with
         | |- context [Simple.sliceLast4 ?l] =>
           lazymatch goal with
           | H : (length (Simple.sliceLast4 l) <= 4)%nat |- _ => fail
           | _ => pose proof (sliceLast4_length l)
           end
         end;
  cbn [length]; lia.

(** One attempt of the variant writes the endpoint states, the status and
    the log only, keeps the log within five lines and uses at most one
    draw. *)
Lemma Simple_executeStep_frame (snap : Simple.Sim) (step : Z) (w : Simple.World) :
  let w' := snd (Simple.executeStep snap step w) in
  Simple.isSimulating (Simple.sim w') = Simple.isSimulating (Simple.sim w) /\
  Simple.currentStep (Simple.sim w') = Simple.currentStep (Simple.sim w) /\
  Simple.clientISN (Simple.sim w') = Simple.clientISN (Simple.sim w) /\
  Simple.serverISN (Simple.sim w') = Simple.serverISN (Simple.sim w) /\
  Simple.simulationMode (Simple.sim w') = Simple.simulationMode (Simple.sim w) /\
  Simple.packetLoss (Simple.sim w') = Simple.packetLoss (Simple.sim w) /\
  Simple.draws w' = Simple.draws w /\
  Simple.refsAttached w' = Simple.refsAttached w /\
  (Simple.drawn w <= Simple.drawn w' <= Simple.drawn w + 1)%nat /\
  ((length (Simple.logs (Simple.sim w)) <= 5)%nat ->
   (length (Simple.logs (Simple.sim w')) <= 5)%nat).
Proof.
  simple_attempt_cases snap step w;
    repeat split; try reflexivity; try lia; intros; try assumption; log_bound.
Qed.

Lemma Simple_connectionFailed_state (w : Simple.World) :
  let s' := Simple.sim (Simple.connectionFailed w) in
  Simple.connectionStatus s' = failed /\ Simple.clientState s' = FAILED /\
  Simple.serverState s' = FAILED /\
  last (Simple.logs s') "" = "❌ CONNECTION FAILED" /\
  (length (Simple.logs s') <= 5)%nat.
Proof.
  destruct w as [s d n r]. simpl. repeat split; [ apply last_last | log_bound ].
Qed.

Lemma Simple_resetSimulation_settled (w : Simple.World) :
  simpleSettled (Simple.sim (Simple.resetSimulation w)).
Proof. destruct w as [s d n r]. simpl. repeat split; simpl; lia. Qed.

Lemma Simple_executeNextStep_settled (w : Simple.World) :
  simpleSettled (Simple.sim w) ->
  simpleSettled (Simple.sim (Simple.executeNextStep (Simple.sim w) w)).
Proof.
  intros (Hi & Hc & Hl). unfold Simple.executeNextStep.
  destruct (Z.geb_spec (Simple.currentStep (Simple.sim w)) 3) as [Hge | Hlt].
  - repeat split; try assumption; lia.
  - pose proof (Simple_executeStep_frame (Simple.sim w)
                  (Simple.currentStep (Simple.sim w) + 1)
                  (Simple.setIsSimulating true w)) as F.
    cbv zeta in F.
    destruct (Simple.executeStep (Simple.sim w) (Simple.currentStep (Simple.sim w) + 1)
                (Simple.setIsSimulating true w)) as [success w1].
    cbn [snd] in F. destruct F as (_ & Fc & _ & _ & _ & _ & _ & _ & _ & Fl).
    destruct success.
    + split; [ reflexivity | ]. split; [ cbn; lia | ].
      apply Fl. exact Hl.
    + split; [ reflexivity | ]. split.
      * change (0 <= Simple.currentStep (Simple.sim w1) <= 3). rewrite Fc. cbn. lia.
      * apply Simple_connectionFailed_state.
Qed.

(** The guard of the variant's run-to-completion loop reads the render's
    [isSimulating] as well. *)
Lemma Simple_startAutoSimulation_guard_closed (snap : Simple.Sim) (w : Simple.World) :
  Simple.isSimulating snap = false ->
  Simple.startAutoSimulation snap w =
  Simple.setIsSimulating false (Simple.setIsSimulating true w).
Proof.
  intros H. unfold Simple.startAutoSimulation. cbn [Simple.autoLoop].
  rewrite H. reflexivity.
Qed.

Lemma Simple_applyOp_settled (o : Op) (w : Simple.World) :
  simpleSettled (Simple.sim w) -> simpleSettled (Simple.sim (Simple.applyOp o w)).
Proof.
  intros H. destruct o; cbn [Simple.applyOp]; try exact H.
  - destruct (Simple.isSimulating (Simple.sim w));
      [ exact H | apply Simple_resetSimulation_settled ].
  - destruct (Simple.startDisabled (Simple.sim w)); [ exact H | ].
    destruct (Simple.simulationMode (Simple.sim w)).
    + rewrite Simple_startAutoSimulation_guard_closed by (apply H).
      destruct H as (Hi & Hc & Hl). split; [ reflexivity | ].
      split; [ exact Hc | exact Hl ].
    + apply Simple_executeNextStep_settled. exact H.
Qed.

Lemma Simple_reachable_settled (w : Simple.World) :
  Simple.reachable w -> simpleSettled (Simple.sim w).
Proof.
  intros (rnd & os & ->). revert rnd.
  induction os as [ | o os IH ] using rev_ind; intros rnd.
  - unfold Simple.applyOps, Simple.mounted. cbn [fold_left].
    apply Simple_resetSimulation_settled.
  - unfold Simple.applyOps. rewrite fold_left_app. cbn [fold_left].
    apply Simple_applyOp_settled, IH.
Qed.

Lemma Simple_executeNextStep_isns (snap : Simple.Sim) (w : Simple.World) :
  Simple.clientISN (Simple.sim (Simple.executeNextStep snap w)) =
    Simple.clientISN (Simple.sim w) /\
  Simple.serverISN (Simple.sim (Simple.executeNextStep snap w)) =
    Simple.serverISN (Simple.sim w).
Proof.
  unfold Simple.executeNextStep.
  destruct (Simple.currentStep snap >=? 3); [ split; reflexivity | ].
  pose proof (Simple_executeStep_frame snap (Simple.currentStep snap + 1)
                (Simple.setIsSimulating true w)) as F.
  cbv zeta in F.
  destruct (Simple.executeStep snap (Simple.currentStep snap + 1)
              (Simple.setIsSimulating true w)) as [success w1].
  cbn [snd] in F. destruct F as (_ & _ & Fc & Fs & _).
  destruct success; split;
    first [ exact Fc | exact Fs ].
Qed.

Lemma Simple_applyOp_isns (o : Op) (w : Simple.World) :
  Simple.clientISN (Simple.sim (Simple.applyOp o w)) = Simple.clientISN (Simple.sim w) /\
  Simple.serverISN (Simple.sim (Simple.applyOp o w)) = Simple.serverISN (Simple.sim w).
Proof.
  destruct o; cbn [Simple.applyOp]; try (split; reflexivity).
  - destruct (Simple.isSimulating (Simple.sim w)); split; reflexivity.
  - destruct (Simple.startDisabled (Simple.sim w)) eqn:Ed; [ split; reflexivity | ].
    destruct (Simple.simulationMode (Simple.sim w)).
    + unfold Simple.startDisabled in Ed. apply orb_false_elim in Ed.
      destruct Ed as [Hi _].
      rewrite Simple_startAutoSimulation_guard_closed by exact Hi.
      split; reflexivity.
    + apply Simple_executeNextStep_isns.
Qed.

(** X15. The variant draws its ISNs once, when it mounts, as the base plus
    the floored double product of the draw and 10000: with draws in the range
    of [Math.random()] the client ISN lies in 1000..10999 and the server ISN
    in 2000..11999, and no operation, the reset included, changes them
    afterwards. *)
Theorem Simple_isns_fixed_at_mount (rnd : nat -> Q) (os : list Op) :
  (forall n, (0 <= rnd n)%Q /\ (rnd n <= Js.maxDraw)%Q) ->
  let s := Simple.sim (Simple.applyOps os (Simple.mounted rnd)) in
  Simple.clientISN s = 1000 + Qfloor (Js.times (rnd 0%nat) 10000) /\
  Simple.serverISN s = 2000 + Qfloor (Js.times (rnd 1%nat) 10000) /\
  1000 <= Simple.clientISN s <= 10999 /\
  2000 <= Simple.serverISN s <= 11999.
Proof.
  intros Hv. cbv zeta.
  assert (Hfix :
    Simple.clientISN (Simple.sim (Simple.applyOps os (Simple.mounted rnd))) =
      1000 + Qfloor (Js.times (rnd 0%nat) 10000) /\
    Simple.serverISN (Simple.sim (Simple.applyOps os (Simple.mounted rnd))) =
      2000 + Qfloor (Js.times (rnd 1%nat) 10000)).
  { induction os as [ | o os IH ] using rev_ind.
    - unfold Simple.applyOps, Simple.mounted. cbn [fold_left].
      change (Simple.initClientISN true (rnd 0%nat) =
                1000 + Qfloor (Js.times (rnd 0%nat) 10000) /\
              Simple.initServerISN true (rnd 1%nat) =
                2000 + Qfloor (Js.times (rnd 1%nat) 10000)).
      unfold Simple.initClientISN, Simple.initServerISN. split; lia.
    - unfold Simple.applyOps. rewrite fold_left_app. cbn [fold_left].
      destruct (Simple_applyOp_isns o (Simple.applyOps os (Simple.mounted rnd)))
        as [Ec Es].
      unfold Simple.applyOps in Ec, Es. rewrite Ec, Es. exact IH. }
  destruct Hfix as [Ec Es]. rewrite Ec, Es.
  destruct (Hv 0%nat) as [A0 A1]. destruct (Hv 1%nat) as [B0 B1].
  pose proof (floor_scaled_range _ A0 A1).
  pose proof (floor_scaled_range _ B0 B1).
  repeat split; lia.
Qed.

Lemma Simple_isns_fixed_at_mount_witness :
  Simple.clientISN
    (Simple.sim (Simple.applyOps [OpRandomize false; OpReset]
                   (Simple.mounted roundingDraws))) = 1121 /\
  Simple.serverISN
    (Simple.sim (Simple.applyOps [OpRandomize false; OpReset]
                   (Simple.mounted roundingDraws))) = 2121.
Proof.
  destruct (Simple_isns_fixed_at_mount roundingDraws [OpRandomize false; OpReset])
    as (Ec & Es & _).
  - intros n. unfold roundingDraws, Js.grid53, Js.maxDraw, Qle. cbn. lia.
  - split; [ rewrite Ec | rewrite Es ]; vm_compute; reflexivity.
Defined.

(** X16. The variant has no retry: an advance whose one attempt fails ends
    at once with status failed, both endpoints FAILED, the failure line last
    in the log and the step counter where it was; an advance whose attempt
    succeeds moves the counter up by one. *)
Theorem Simple_advance_without_retry (snap : Simple.Sim) (w : Simple.World) :
  Simple.currentStep snap < 3 ->
  let attempt :=
    Simple.executeStep snap (Simple.currentStep snap + 1)
      (Simple.setIsSimulating true w) in
  let s' := Simple.sim (Simple.executeNextStep snap w) in
  Simple.isSimulating s' = false /\
  (fst attempt = false ->
   Simple.connectionStatus s' = failed /\ Simple.clientState s' = FAILED /\
   Simple.serverState s' = FAILED /\
   last (Simple.logs s') "" = "❌ CONNECTION FAILED" /\
   Simple.currentStep s' = Simple.currentStep (Simple.sim w)) /\
  (fst attempt = true ->
   Simple.currentStep s' = Simple.currentStep snap + 1 /\
   Simple.logs s' = Simple.logs (Simple.sim (snd attempt))).
Proof.
  intros Hlt. cbv zeta. unfold Simple.executeNextStep.
  assert (E : (Simple.currentStep snap >=? 3) = false)
    by (rewrite Z.geb_leb; apply Z.leb_gt; lia).
  rewrite E.
  pose proof (Simple_executeStep_frame snap (Simple.currentStep snap + 1)
                (Simple.setIsSimulating true w)) as F.
  cbv zeta in F.
  destruct (Simple.executeStep snap (Simple.currentStep snap + 1)
              (Simple.setIsSimulating true w)) as [success w1].
  cbn [fst snd] in *. destruct F as (_ & Fc & _).
  destruct success.
  - split; [ reflexivity | ]. split; [ discriminate | ].
    intros _. split; reflexivity.
  - split; [ reflexivity | ]. split; [ | discriminate ].
    intros _.
    destruct (Simple_connectionFailed_state w1) as (H1 & H2 & H3 & H4 & _).
    repeat split; assumption.
Qed.

Lemma Simple_advance_without_retry_witness :
  Simple.connectionStatus
    (Simple.sim
       (Simple.executeNextStep
          (Simple.sim (Simple.setPacketLoss loss_syn simpleFresh))
          (Simple.setPacketLoss loss_syn simpleFresh))) = failed.
Proof.
  assert (Hlt : Simple.currentStep
                  (Simple.sim (Simple.setPacketLoss loss_syn simpleFresh)) < 3)
    by (vm_compute; reflexivity).
  destruct (Simple_advance_without_retry _ (Simple.setPacketLoss loss_syn simpleFresh) Hlt)
    as (_ & Hf & _).
  apply Hf. vm_compute. reflexivity.
Defined.

(** X17. In the variant too, starting a run in auto mode executes no step:
    on every reachable page in auto mode the Start handler leaves the store
    as it was. *)
Theorem Simple_startAutoSimulation_runs_no_step (w : Simple.World) :
  Simple.reachable w ->
  Simple.simulationMode (Simple.sim w) = mode_auto ->
  Simple.applyOp OpStart w = w.
Proof.
  intros Hr Hm. destruct (Simple_reachable_settled w Hr) as (Hi & _).
  cbn [Simple.applyOp]. unfold Simple.startDisabled. rewrite Hi, Hm. cbn [orb andb].
  rewrite Simple_startAutoSimulation_guard_closed by exact Hi.
  destruct w as [s d n r], s. cbn in Hi. subst. reflexivity.
Qed.

Lemma Simple_startAutoSimulation_runs_no_step_witness :
  Simple.applyOp OpStart (Simple.mounted fixedISNDraws) = Simple.mounted fixedISNDraws.
Proof.
  apply Simple_startAutoSimulation_runs_no_step.
  - exists fixedISNDraws, []. reflexivity.
  - reflexivity.
Defined.

(** X18. The reset of the variant returns both endpoints to CLOSED, the
    status to idle and the step counter to 0 and leaves the reset message as
    the only log line; it draws nothing and keeps the ISNs and the
    configuration, so a second reset changes nothing. *)
Theorem Simple_resetSimulation_postcondition (w : Simple.World) :
  let w' := Simple.resetSimulation w in
  Simple.clientState (Simple.sim w') = CLOSED /\
  Simple.serverState (Simple.sim w') = CLOSED /\
  Simple.connectionStatus (Simple.sim w') = idle /\
  Simple.currentStep (Simple.sim w') = 0 /\
  Simple.isSimulating (Simple.sim w') = false /\
  Simple.logs (Simple.sim w') = [resetMessage] /\
  Simple.clientISN (Simple.sim w') = Simple.clientISN (Simple.sim w) /\
  Simple.serverISN (Simple.sim w') = Simple.serverISN (Simple.sim w) /\
  Simple.packetLoss (Simple.sim w') = Simple.packetLoss (Simple.sim w) /\
  Simple.simulationMode (Simple.sim w') = Simple.simulationMode (Simple.sim w) /\
  Simple.drawn w' = Simple.drawn w /\
  Simple.resetSimulation w' = w'.
Proof.
  destruct w as [s d n r], s. cbv zeta. repeat split.
Qed.

(** ** The two executors *)

(** X19. The executor of the component and the executor of the variant
    without retries do the same thing.  On corresponding snapshots and stores
    one attempt of any step returns the same result in both and leaves
    corresponding stores: same endpoint states and status, same draws used,
    the variant's log being the last five messages of the component's. *)
Theorem executors_correspond
    (snap : Sim) (snap' : Simple.Sim) (w : World) (w' : Simple.World) (step : Z) :
  snapMatches snap snap' ->
  storeMatches w w' ->
  result (executeStep snap step) w = fst (Simple.executeStep snap' step w') /\
  storeMatches (exec (executeStep snap step) w)
    (snd (Simple.executeStep snap' step w')).
Proof.
  unfold snapMatches, storeMatches.
  destruct w as [s d n r], w' as [s' d' n' r'].
  cbn [sim draws drawn refsAttached Simple.sim Simple.draws Simple.drawn
       Simple.refsAttached].
  intros (Hp & Hcs & Hss) (Hc & Hs & Hst & Hl & <- & <- & <-).
  destruct step as [ | q | q ];
    [ | destruct q as [ [ q | q | ] | [ q | q | ] | ] | ];
    unfold_step; unfold_simple_step; simpl;
    rewrite <- ?Hp, <- ?Hcs, <- ?Hss;
    try (destruct r; simpl);
    try (destruct (packetLoss snap); simpl);
    try (destruct (Js.ltb (d n) (3 # 10)); simpl);
    repeat split; try assumption;
    rewrite ?sliceLast4_append, ?Hl, ?map_app;
    repeat first [ rewrite lastFive_suffix | rewrite <- app_assoc ];
    reflexivity.
Qed.

Lemma executors_correspond_witness :
  result (executeStep matchingSnap 2) matchingWorld =
  fst (Simple.executeStep (Simple.sim simpleFresh) 2 simpleFresh).
Proof.
  assert (Hs : snapMatches matchingSnap (Simple.sim simpleFresh))
    by (repeat split; vm_compute; reflexivity).
  assert (Hw : storeMatches matchingWorld simpleFresh)
    by (repeat split; vm_compute; reflexivity).
  exact (proj1 (executors_correspond matchingSnap (Simple.sim simpleFresh)
                  matchingWorld simpleFresh 2 Hs Hw)).
Defined.

(** ** Recovery by retransmission *)

(** X20. Under random loss a lost packet is recovered by retransmission:
    when the first draw is below 0.3 and the second is not, the retry
    controller succeeds at the second attempt.  It uses exactly two draws,
    resets the retry counter to 0 and logs the loss, the retransmission and
    the packet (then the establishment, for step 3). *)
Theorem handleStepExecution_recovers (snap : Sim) (w : World) (k : PacketType) :
  packetLoss snap = loss_random ->
  refsAttached w = true ->
  (draws w (drawn w) < 3 # 10)%Q ->
  (3 # 10 <= draws w (S (drawn w)))%Q ->
  let w' := exec (handleStepExecution snap (stepOf k)) w in
  result (handleStepExecution snap (stepOf k)) w = true /\
  retryCount (sim w') = 0 /\
  drawn w' = S (S (drawn w)) /\
  (forall p, stepPacket snap (stepOf k) = Some p ->
     logs (sim w') =
       (logs (sim w) ++
        [ lostLine k;
          mkLog "🔄 Retransmitting... (Attempt 2/3)" log_warning;
          sentLine p ] ++
        (match k with ACK => [establishedLine] | _ => [] end))%list).
Proof.
  intros Hp Hr H0 H1. destruct snap, w as [s d n r].
  simpl in Hp, Hr, H0, H1. subst.
  assert (L0 : Js.ltb (d n) (3 # 10) = true) by (apply ltb_lt; exact H0).
  assert (L1 : Js.ltb (d (S n)) (3 # 10) = false).
  { destruct (Js.ltb (d (S n)) (3 # 10)) eqn:E; [ | reflexivity ].
    apply ltb_lt in E. exfalso. apply (Qlt_not_le _ _ E). exact H1. }
  destruct k; unfold lostLine, sentLine, establishedLine;
    cbv -[Js.ltb app Js.show Js.truthy String.append];
    rewrite L0; cbv -[Js.ltb app Js.show Js.truthy String.append];
    rewrite L1; cbv -[Js.ltb app Js.show Js.truthy String.append];
    (repeat split; [ intros p Hp; injection Hp as <- ]);
    cbv -[Js.ltb app Js.show Js.truthy String.append];
    rewrite <- ?app_assoc; reflexivity.
Qed.

Lemma handleStepExecution_recovers_witness :
  result (handleStepExecution randomLossSnap 1)
    {| sim := initialSim; draws := lowThenHigh; drawn := 4; refsAttached := true |}
  = true.
Proof.
  apply (handleStepExecution_recovers randomLossSnap
           {| sim := initialSim; draws := lowThenHigh; drawn := 4;
              refsAttached := true |} SYN);
    vm_compute; first [ reflexivity | discriminate ].
Defined.

(** ** Pages during a run *)

Lemma resetSimulation_consistent (snap : Sim) (w : World) :
  consistent (sim (exec (resetSimulation snap) w)).
Proof.
  destruct w as [s d n r]. unfold resetSimulation, generateISN, exec.
  destruct (randomizeISN snap); cbn; repeat split.
Qed.

Lemma bind_ret_r {A} (m : Act A) (w : World) : bind m (fun a => ret a) w = m w.
Proof. unfold bind, ret. destruct (m w). reflexivity. Qed.

Lemma bind_assoc {A B C} (m : Act A) (k : A -> Act B) (h : B -> Act C) (w : World) :
  bind (bind m k) h w = bind m (fun a => bind (k a) h) w.
Proof. unfold bind. destruct (m w) as [a w']. reflexivity. Qed.

(** The two halves of [executeStep] make the whole. *)
Lemma executeStep_split (snap : Sim) (step : Z) (w : World) :
  executeStep snap step w =
  bind (executeStepStart snap step) (executeStepEnd step) w.
Proof.
  unfold executeStep, executeStepStart, executeStepEnd.
  destruct step as [ | q | q ]; [ reflexivity | | reflexivity ].
  destruct q as [ [ q | q | ] | [ q | q | ] | ]; try reflexivity.
  - change (executeStepEnd 2) with (fun a : bool => ret a).
    rewrite bind_ret_r. reflexivity.
  - change (executeStepEnd 1) with (fun a : bool => ret a).
    rewrite bind_ret_r. reflexivity.
Qed.

Lemma executeStep_result_split (snap : Sim) (step : Z) (w : World) :
  result (executeStep snap step) w =
  result (executeStepEnd step (result (executeStepStart snap step) w))
    (exec (executeStepStart snap step) w).
Proof.
  unfold result, exec. rewrite executeStep_split, bind_run. reflexivity.
Qed.

Lemma executeStep_exec_split (snap : Sim) (step : Z) (w : World) :
  exec (executeStep snap step) w =
  exec (executeStepEnd step (result (executeStepStart snap step) w))
    (exec (executeStepStart snap step) w).
Proof.
  unfold result, exec. rewrite executeStep_split, bind_run. reflexivity.
Qed.

Lemma result_bind {A B} (m : Act A) (k : A -> Act B) (w : World) :
  result (bind m k) w = result (k (result m w)) (exec m w).
Proof. unfold exec, result. rewrite bind_run. reflexivity. Qed.

Section Waits.

Variable snap : Sim.



End Waits.

(** ** The shape of the rendered pages *)

Ltac unfold_wait :=
  unfold afterAttempt, nextAttempt, executeNextStepEnd, executeStepStart,
    executeStepEnd, retriesExhausted, sendStepPacket, stepPacket, animatePacket,
    shouldDropPacket, refsPresent, addLog, setLogs, setClientState,
    setServerState, setConnectionStatus, setRetryCount, setCurrentStep,
    setIsSimulating, modify, Math_random, bind, ret, exec, result.

(** The cells that one attempt writes before its wait. *)
Lemma executeStepStart_cells (snap : Sim) (step : Z) (w : World) :
  let s' := sim (exec (executeStepStart snap step) w) in
  currentStep s' = currentStep (sim w) /\
  isSimulating s' = isSimulating (sim w) /\
  retryCount s' = retryCount (sim w) /\
  ((step = 1 /\ clientState s' = SYN_SENT /\ connectionStatus s' = connecting /\
    serverState s' = serverState (sim w)) \/
   (step = 2 /\ serverState s' = SYN_RECEIVED /\
    clientState s' = clientState (sim w) /\
    connectionStatus s' = connectionStatus (sim w)) \/
   (step <> 1 /\ step <> 2 /\ clientState s' = clientState (sim w) /\
    serverState s' = serverState (sim w) /\
    connectionStatus s' = connectionStatus (sim w))).
Proof.
  destruct w as [s d n r].
  destruct step as [ | q | q ];
    [ | destruct q as [ [ q | q | ] | [ q | q | ] | ] | ];
    unfold_wait; simpl;
    try (destruct r; simpl);
    try (destruct (packetLoss snap) eqn:?; simpl);
    try (destruct (Js.ltb (d n) (3 # 10)) eqn:?; simpl);
    (repeat (split; [ reflexivity | ]));
    first [ left; repeat split; reflexivity
          | right; left; repeat split; reflexivity
          | right; right; repeat split; first [ reflexivity | discriminate ] ].
Qed.

(** The states that the attempt of step [c + 1] writes before its wait fit
    that step, whether the page before showed the counter [c] between runs
    or an earlier attempt of the same step. *)
Lemma prewrite_consistent
    (st st' : ConnectionStatus) (cl cl' sv sv' : TCPState) (c : Z) :
  0 <= c < 3 ->
  consistentCells st cl sv c \/ consistentCells st cl sv (Z.min (c + 1) 2) ->
  (c + 1 = 1 /\ cl' = SYN_SENT /\ st' = connecting /\ sv' = sv) \/
  (c + 1 = 2 /\ sv' = SYN_RECEIVED /\ cl' = cl /\ st' = st) \/
  (c + 1 <> 1 /\ c + 1 <> 2 /\ cl' = cl /\ sv' = sv /\ st' = st) ->
  consistentCells st' cl' sv' (Z.min (c + 1) 2).
Proof.
  intros Hc Hk Hw.
  assert (Ec : c = 0 \/ c = 1 \/ c = 2) by lia.
  destruct Ec as [ -> | [ -> | -> ] ];
    change (Z.min (0 + 1) 2) with 1 in *;
    change (Z.min (1 + 1) 2) with 2 in *;
    change (Z.min (2 + 1) 2) with 2 in *;
    destruct Hw as [ (E & -> & -> & ->) | [ (E & -> & -> & ->) | (E1 & E2 & -> & -> & ->) ] ];
    try lia;
    destruct st; cbn in *;
    intuition (try lia; try discriminate; auto).
Qed.

Lemma nextAttempt_shape (snap : Sim) (attempts : Z) (w : World) :
  isSimulating (sim w) = true ->
  currentStep snap = currentStep (sim w) ->
  0 <= currentStep (sim w) < 3 ->
  noneEstablished (sim w) ->
  consistent (sim w) \/
  consistentCells (connectionStatus (sim w)) (clientState (sim w))
    (serverState (sim w)) (Z.min (currentStep (sim w) + 1) 2) ->
  (attempts = 0 /\ (retryCount (sim w) = 0 \/ retryCount (sim w) = 3)) \/
  (1 <= attempts < 3 /\ retryCount (sim w) = attempts) ->
  pageShape (exec (nextAttempt snap attempts) w)
    (waiting (result (nextAttempt snap attempts) w)).
Proof.
  intros Hi Hs Hc (N1 & N2 & N3) Hk Hr.
  assert (Hlt : (attempts <? maxRetries) = true)
    by (apply Z.ltb_lt; unfold maxRetries; lia).
  unfold nextAttempt. rewrite Hlt.
  rewrite result_bind, exec_bind. cbn [ret result exec fst snd waiting pageShape].
  pose proof (executeStepStart_cells snap (currentStep snap + 1) w) as C.
  cbv zeta in C. destruct C as (C1 & C2 & C3 & C4).
  set (w1 := exec (executeStepStart snap (currentStep snap + 1)) w) in *.
  rewrite Hs in C4.
  unfold midRun. cbn [snapOf].
  rewrite C1, C2, C3.
  split; [ exact Hi | ]. split; [ exact Hs | ]. split; [ exact Hc | ].
  split.
  - unfold noneEstablished.
    destruct C4 as [ (_ & -> & -> & ->) | [ (_ & -> & -> & ->) | (_ & _ & -> & -> & ->) ] ];
      repeat split; first [ assumption | discriminate ].
  - split; [ | exact Hr ].
    apply (prewrite_consistent (connectionStatus (sim w)) _ (clientState (sim w)) _
             (serverState (sim w)) _ (currentStep (sim w)) Hc Hk).
    destruct C4 as [ (E & A & B & C) | [ (E & A & B & C) | (E1 & E2 & A & B & C) ] ];
      [ left | right; left | right; right ]; repeat split; assumption.
Qed.

Lemma executeStepEnd_failed (step : Z) : executeStepEnd step false = ret false.
Proof.
  destruct step as [ | q | q ]; try reflexivity.
  destruct q as [ [ q | q | ] | [ q | q | ] | ]; reflexivity.
Qed.

Lemma executeStepEnd_early (step : Z) (r : bool) :
  step <> 3 -> executeStepEnd step r = ret r.
Proof.
  intros H. destruct step as [ | q | q ]; try reflexivity.
  destruct q as [ [ q | q | ] | [ q | q | ] | ]; try reflexivity.
  contradiction H. reflexivity.
Qed.

Lemma afterAttempt_shape (snap : Sim) (attempts : Z) (r : bool) (w : World) :
  midRun (PacketWait snap attempts r) (sim w) ->
  pageShape (exec (afterAttempt snap attempts r) w)
    (waiting (result (afterAttempt snap attempts r) w)).
Proof.
  unfold midRun. cbn [snapOf].
  intros (Hi & Hs & Hc & (N1 & N2 & N3) & Hk & Hr).
  destruct w as [s d n rf]. cbn [sim] in *.
  unfold afterAttempt. cbv zeta. rewrite Hs.
  destruct s as [cl sv st lg md pl sp rz c isim rc ci si cs ss].
  cbn [currentStep clientState serverState connectionStatus retryCount
       isSimulating] in *.
  subst isim.
  destruct r.
  - destruct (Z.eq_dec c 2) as [ -> | Hne ].
    + unfold_wait. rewrite ?Hs. simpl.
      unfold settled, consistent, allEstablished. simpl.
      split.
      * split; [ reflexivity | ].
        split; [ left; repeat split; reflexivity | left; reflexivity ].
      * repeat split; reflexivity.
    + rewrite executeStepEnd_early by lia.
      unfold_wait. rewrite ?Hs. simpl.
      unfold settled, consistent, noneEstablished. simpl.
      rewrite Z.min_l in Hk by lia.
      split.
      * split; [ reflexivity | ].
        split; [ right; split; [ lia | repeat split; assumption ] | left; reflexivity ].
      * exact Hk.
  - rewrite executeStepEnd_failed.
    destruct (Z.ltb_spec (attempts + 1) maxRetries) as [Hn | Hn].
    + unfold_wait. simpl.
      unfold midRun, noneEstablished. simpl.
      unfold maxRetries in Hn.
      repeat (split; [ first [ reflexivity | assumption | lia ] | ]).
      split; [ repeat split; assumption | ].
      split; [ exact Hk | lia ].
    + unfold maxRetries in Hn.
      assert (E : attempts + 1 = 3) by lia.
      unfold_wait. simpl.
      unfold settled, consistent, noneEstablished, failedState. simpl.
      rewrite E.
      split.
      * split; [ reflexivity | ].
        split; [ right; split; [ lia | repeat split; discriminate ]
               | right; split; [ reflexivity | repeat split; reflexivity ] ].
      * split; [ reflexivity | left; reflexivity ].
Qed.

(** A change of configuration leaves the shape of the page as it was. *)
Lemma config_shape (o : Op) (w : World) (ps : list Pending) :
  isConfig o = true -> pageShape w ps -> pageShape (applyOp o w) ps.
Proof.
  intros Ho H. destruct w as [s d n r], s.
  destruct o; try discriminate Ho;
    destruct ps as [ | q [ | q' ps ] ]; exact H.
Qed.

Lemma clickStart_shape (w : World) :
  startDisabled (sim w) = false ->
  settled (sim w) -> consistent (sim w) ->
  pageShape (exec (clickStart (sim w)) w) (waiting (result (clickStart (sim w)) w)).
Proof.
  intros Hd Hs Hk. unfold startDisabled in Hd.
  apply orb_false_elim in Hd. destruct Hd as [Hi Hm].
  unfold clickStart. destruct (simulationMode (sim w)) eqn:Em.
  - rewrite result_bind, exec_bind. cbn [ret result exec fst snd waiting pageShape].
    fold (exec (startAutoSimulation (sim w)) w).
    rewrite startAutoSimulation_guard_closed by exact Hi.
    destruct w as [s d n r], s. cbn in Hi. subst. split; assumption.
  - cbn [andb] in Hm. unfold executeNextStepStart. rewrite Hm.
    rewrite result_bind, exec_bind.
    assert (Hlt : currentStep (sim w) < 3).
    { rewrite Z.geb_leb in Hm. apply Z.leb_gt in Hm. lia. }
    destruct Hs as (_ & Hc & Hr).
    destruct Hc as [ (H3 & _) | (Hc & Hn) ]; [ lia | ].
    apply nextAttempt_shape.
    + destruct w as [s d n r], s. reflexivity.
    + destruct w as [s d n r], s. reflexivity.
    + destruct w as [s d n r], s. exact Hc.
    + destruct w as [s d n r], s. exact Hn.
    + left. destruct w as [s d n r], s. exact Hk.
    + left. split; [ reflexivity | ].
      destruct w as [s d n r], s. cbn in *. tauto.
Qed.

(** Every rendered page has the shape of a page between runs or of a page
    during one run: runs do not overlap. *)
Lemma rendered_shape (w : World) (ps : list Pending) :
  rendered w ps -> pageShape w ps.
Proof.
  induction 1 as [ rnd | o w ps Ho _ IH | w ps Hi _ IH | w ps Hd _ IH
                 | w ps1 p ps2 _ IH ].
  - unfold mounted, invoke. split;
      [ apply resetSimulation_settled | apply resetSimulation_consistent ].
  - apply config_shape; assumption.
  - destruct ps as [ | p [ | p' ps ] ]; cbn [pageShape] in *.
    + unfold invoke. split;
        [ apply resetSimulation_settled | apply resetSimulation_consistent ].
    + destruct IH as (Ht & _). rewrite Ht in Hi. discriminate Hi.
    + contradiction.
  - destruct ps as [ | p [ | p' ps ] ]; cbn [pageShape] in IH.
    + cbn [app]. destruct IH as (Hs & Hk). apply clickStart_shape; assumption.
    + destruct IH as (Ht & _).
      rewrite (startDisabled_when_simulating _ Ht) in Hd. discriminate Hd.
    + contradiction.
  - destruct ps1 as [ | q ps1 ].
    + destruct ps2 as [ | q ps2 ]; cbn [app pageShape] in IH; [ | contradiction ].
      rewrite app_nil_r. cbn [app].
      destruct p as [snap attempts r | snap attempts]; cbn [resume].
      * apply afterAttempt_shape. exact IH.
      * destruct IH as (Hi & Hs & Hc & Hn & Hk & Hr). cbn [snapOf] in Hs.
        apply nextAttempt_shape; try assumption.
        -- right. exact Hk.
        -- right. exact Hr.
    + exfalso. destruct ps1 as [ | q' ps1 ]; cbn [app pageShape] in IH.
      * exact IH.
      * exact IH.
Qed.

Lemma synLossPage_rendered : rendered synLossPage [].
Proof.
  unfold synLossPage, applyOps. cbn [fold_left].
  apply rendered_config; [ reflexivity | ].
  apply rendered_config; [ reflexivity | ].
  apply rendered_mounted.
Qed.

Lemma packetWaitPage_rendered :
  rendered packetWaitPage [PacketWait (sim synLossPage) 0 false].
Proof.
  assert (E : ([] ++ waiting (result (clickStart (sim synLossPage)) synLossPage))%list =
              [PacketWait (sim synLossPage) 0 false])
    by (vm_compute; reflexivity).
  rewrite <- E. apply rendered_start; [ vm_compute; reflexivity | ].
  apply synLossPage_rendered.
Qed.

Lemma retryWaitPage_rendered :
  rendered retryWaitPage [RetryWait (sim synLossPage) 1].
Proof.
  assert (E : ([] ++ waiting (result (resume (PacketWait (sim synLossPage) 0 false))
                                packetWaitPage) ++ [])%list =
              [RetryWait (sim synLossPage) 1])
    by (vm_compute; reflexivity).
  rewrite <- E. apply (rendered_resume packetWaitPage []).
  apply packetWaitPage_rendered.
Qed.

(** X2. On every page the component renders, between runs or during one,
    the retry counter lies in 0..3.  The badge reads 1/3 or 2/3 only during a
    run.  On a page between runs the counter is 0 or 3, and the badge shows
    only together with the failure banner, reading 3, with both endpoints
    FAILED. *)
Theorem retry_badge_on_rendered_pages (w : World) (ps : list Pending) :
  rendered w ps ->
  0 <= retryCount (sim w) <= 3 /\
  (retryCount (sim w) = 1 \/ retryCount (sim w) = 2 ->
   isSimulating (sim w) = true /\ ps <> []) /\
  (isSimulating (sim w) = false ->
   (retryCount (sim w) = 0 \/ retryCount (sim w) = 3) /\
   (retryBadge (sim w) = true ->
    retryCount (sim w) = 3 /\ failedBanner (sim w) = true /\
    clientState (sim w) = FAILED /\ serverState (sim w) = FAILED)).
Proof.
  intros Hr. apply rendered_shape in Hr.
  destruct ps as [ | p [ | p' ps ] ]; cbn [pageShape] in Hr; [ | | contradiction ].
  - destruct Hr as ((Hi & _ & Hrc) & _).
    unfold retryBadge, failedBanner.
    destruct Hrc as [ H0 | (H3 & Hst & Hcl & Hsv) ].
    + rewrite H0. split; [ lia | ]. split; [ intros [ H | H ]; discriminate H | ].
      intros _. split; [ left; reflexivity | discriminate ].
    + rewrite H3, Hst. split; [ lia | ].
      split; [ intros [ H | H ]; discriminate H | ].
      intros _. split; [ right; reflexivity | ].
      intros _. repeat split; assumption.
  - destruct Hr as (Hi & _ & _ & _ & _ & Hrc).
    rewrite Hi.
    split; [ destruct p; lia | ].
    split; [ intros _; split; [ reflexivity | discriminate ] | discriminate ].
Qed.

Lemma retry_badge_on_rendered_pages_witness :
  retryCount (sim retryWaitPage) = 1 /\ isSimulating (sim retryWaitPage) = true.
Proof.
  assert (E : retryCount (sim retryWaitPage) = 1) by (vm_compute; reflexivity).
  split; [ exact E | ].
  destruct (retry_badge_on_rendered_pages _ _ retryWaitPage_rendered) as (_ & H & _).
  exact (proj1 (H (or_introl E))).
Defined.

(** X3. On every page the component renders, [isSimulating] is [true]
    exactly while a run is in progress, and at most one run is: during a run
    the Start / Next Step and Reset buttons are disabled, so no second run
    and no reset can start before the run has ended.  Between runs the Reset
    button is enabled, and the Start / Next Step button is disabled exactly
    in step mode with the connection established. *)
Theorem buttons_on_rendered_pages (w : World) (ps : list Pending) :
  rendered w ps ->
  (length ps <= 1)%nat /\
  (isSimulating (sim w) = true <-> ps <> []) /\
  (ps <> [] -> startDisabled (sim w) = true) /\
  (ps = [] ->
   (startDisabled (sim w) = true <->
    simulationMode (sim w) = mode_step /\ connectionStatus (sim w) = established)).
Proof.
  intros Hr. apply rendered_shape in Hr.
  destruct ps as [ | p [ | p' ps ] ]; cbn [pageShape] in Hr; [ | | contradiction ].
  - destruct Hr as ((Hi & Hc & _) & _).
    split; [ cbn; lia | ].
    split; [ rewrite Hi; split; [ discriminate | intros H; contradiction H; reflexivity ] | ].
    split; [ intros H; contradiction H; reflexivity | ].
    intros _. unfold startDisabled. rewrite Hi. cbn [orb].
    destruct Hc as [ (H3 & He & _) | (Hlt & Hn & _) ].
    + rewrite H3, He. destruct (simulationMode (sim w)); cbn.
      * split; [ discriminate | intros [H _]; discriminate H ].
      * split; intros; repeat split.
    + assert (E : (currentStep (sim w) >=? 3) = false)
        by (rewrite Z.geb_leb; apply Z.leb_gt; lia).
      rewrite E, andb_false_r.
      split; [ discriminate | intros [_ H]; contradiction ].
  - destruct Hr as (Hi & _).
    split; [ cbn; lia | ].
    split; [ split; [ discriminate | intros _; exact Hi ] | ].
    split; [ intros _; apply startDisabled_when_simulating; exact Hi | discriminate ].
Qed.

Lemma buttons_on_rendered_pages_witness :
  isSimulating (sim packetWaitPage) = true /\
  startDisabled (sim packetWaitPage) = true.
Proof.
  destruct (buttons_on_rendered_pages _ _ packetWaitPage_rendered) as (_ & Hi & Hd & _).
  split; [ apply (proj2 Hi) | apply Hd ]; discriminate.
Defined.

(** X21. On every page the component renders, the status and the endpoint
    states fit the step the page shows: between runs the step counter;
    during a run the step being attempted, one more than the counter, the
    third step apart, which writes its states only when it has succeeded.
    Idle: both endpoints CLOSED, step 0.  Connecting: the client is SYN-SENT
    and the step is 1 or 2; at 1 the server is CLOSED or (left from an
    earlier failure) FAILED, at 2 it is SYN-RECEIVED.  Established: both
    endpoints ESTABLISHED, step 3.  Failed: the client is FAILED, and the
    server is FAILED, or SYN-RECEIVED at step 2.  So a page during a run is
    never idle and never established. *)
Theorem status_matches_endpoints_on_rendered_pages (w : World) (ps : list Pending) :
  rendered w ps ->
  match connectionStatus (sim w) with
  | idle =>
    clientState (sim w) = CLOSED /\ serverState (sim w) = CLOSED /\
    shownStep ps (sim w) = 0
  | connecting =>
    clientState (sim w) = SYN_SENT /\
    ((shownStep ps (sim w) = 1 /\
      (serverState (sim w) = CLOSED \/ serverState (sim w) = FAILED)) \/
     (shownStep ps (sim w) = 2 /\ serverState (sim w) = SYN_RECEIVED))
  | established =>
    clientState (sim w) = ESTABLISHED /\ serverState (sim w) = ESTABLISHED /\
    shownStep ps (sim w) = 3
  | failed =>
    clientState (sim w) = FAILED /\
    (serverState (sim w) = FAILED \/
     (serverState (sim w) = SYN_RECEIVED /\ shownStep ps (sim w) = 2))
  end.
Proof.
  intros Hr. apply rendered_shape in Hr.
  destruct ps as [ | p [ | p' ps ] ]; cbn [pageShape] in Hr; [ | | contradiction ].
  - destruct Hr as (_ & Hk). exact Hk.
  - destruct Hr as (_ & _ & _ & _ & Hk & _). exact Hk.
Qed.

Lemma status_matches_endpoints_on_rendered_pages_witness :
  currentStep (sim packetWaitPage) = 0 /\
  connectionStatus (sim packetWaitPage) = connecting /\
  clientState (sim packetWaitPage) = SYN_SENT /\
  (serverState (sim packetWaitPage) = CLOSED \/
   serverState (sim packetWaitPage) = FAILED).
Proof.
  pose proof (status_matches_endpoints_on_rendered_pages _ _ packetWaitPage_rendered) as H.
  assert (E : connectionStatus (sim packetWaitPage) = connecting)
    by (vm_compute; reflexivity).
  rewrite E in H. destruct H as (Hc & [ (_ & Hs) | (H2 & _) ]).
  - split; [ vm_compute; reflexivity | ]. split; [ exact E | ].
    split; [ exact Hc | exact Hs ].
  - vm_compute in H2. discriminate H2.
Defined.

(** ** Runs and changes of configuration

    A run reads the configuration in its snapshot, not in the store, and
    writes none of its cells: a change of configuration during a run and the
    same change after it give the same store. *)



Section ConfigCommutes.

Variable o : Op.
Hypothesis config : isConfig o = true.










End ConfigCommutes.

(** ** Pages between runs *)








(** ** The variant's run, wait by wait *)

Ltac unfold_simple_wait :=
  unfold Simple.executeStepStart, Simple.executeStepEnd, Simple.animatePacket,
    Simple.shouldDropPacket, Simple.connectionFailed, Simple.addLog,
    Simple.setLogs, Simple.setClientState, Simple.setServerState,
    Simple.setConnectionStatus, Simple.setCurrentStep, Simple.setIsSimulating,
    Simple.onSim.



(** Before its wait an attempt of the variant writes neither [isSimulating]
    nor the step counter, and keeps the log within five lines. *)
Lemma Simple_executeStepStart_frame (snap : Simple.Sim) (step : Z) (w : Simple.World) :
  let w' := snd (Simple.executeStepStart snap step w) in
  Simple.isSimulating (Simple.sim w') = Simple.isSimulating (Simple.sim w) /\
  Simple.currentStep (Simple.sim w') = Simple.currentStep (Simple.sim w) /\
  ((length (Simple.logs (Simple.sim w)) <= 5)%nat ->
   (length (Simple.logs (Simple.sim w')) <= 5)%nat).
Proof.
  destruct w as [s d n r].
  destruct step as [ | q | q ];
    [ | destruct q as [ [ q | q | ] | [ q | q | ] | ] | ];
    unfold_simple_wait; simpl;
    try (destruct r; simpl);
    try (destruct (Simple.packetLoss snap) eqn:?; simpl);
    try (destruct (Js.ltb (d n) (3 # 10)) eqn:?; simpl);
    repeat split; try reflexivity; intros; try assumption; log_bound.
Qed.

Lemma Simple_executeStepEnd_frame (step : Z) (r : bool) (w : Simple.World) :
  let w' := snd (Simple.executeStepEnd step r w) in
  Simple.currentStep (Simple.sim w') = Simple.currentStep (Simple.sim w) /\
  ((length (Simple.logs (Simple.sim w)) <= 5)%nat ->
   (length (Simple.logs (Simple.sim w')) <= 5)%nat).
Proof.
  destruct w as [s d n rf].
  destruct step as [ | q | q ];
    [ | destruct q as [ [ q | q | ] | [ q | q | ] | ] | ];
    unfold_simple_wait; simpl; try (destruct r; simpl);
    (split; [ reflexivity | ]); intros; try assumption; log_bound.
Qed.

Lemma Simple_resume_settled (p : Simple.Pending) (w : Simple.World) :
  simplePageShape w [p] -> simpleSettled (Simple.sim (Simple.resume p w)).
Proof.
  destruct p as [snap r]. cbn [simplePageShape].
  intros (Hi & Hs & Hc & Hl). unfold Simple.resume. cbv zeta.
  pose proof (Simple_executeStepEnd_frame (Simple.currentStep snap + 1) r w) as F.
  cbv zeta in F.
  destruct (Simple.executeStepEnd (Simple.currentStep snap + 1) r w)
    as [success w1].
  cbn [snd] in F. destruct F as (Fc & Fl).
  destruct success.
  - split; [ reflexivity | ]. split.
    + change (0 <= Simple.currentStep snap + 1 <= 3). lia.
    + change (length (Simple.logs (Simple.sim w1)) <= 5)%nat. apply Fl, Hl.
  - split; [ reflexivity | ]. split.
    + change (0 <= Simple.currentStep (Simple.sim w1) <= 3). rewrite Fc. lia.
    + apply Simple_connectionFailed_state.
Qed.

Lemma Simple_config_shape (o : Op) (w : Simple.World) (ps : list Simple.Pending) :
  isConfig o = true -> simplePageShape w ps -> simplePageShape (Simple.applyOp o w) ps.
Proof.
  intros Ho H. destruct w as [s d n r], s.
  destruct o; try discriminate Ho;
    destruct ps as [ | [snap res] [ | q' ps ] ]; exact H.
Qed.

Lemma Simple_clickStart_shape (w : Simple.World) :
  Simple.startDisabled (Simple.sim w) = false ->
  simpleSettled (Simple.sim w) ->
  simplePageShape (snd (Simple.clickStart (Simple.sim w) w))
    (Simple.waiting (fst (Simple.clickStart (Simple.sim w) w))).
Proof.
  intros Hd (Hi & Hc & Hl). unfold Simple.startDisabled in Hd.
  apply orb_false_elim in Hd. destruct Hd as [_ Hm].
  unfold Simple.clickStart. destruct (Simple.simulationMode (Simple.sim w)) eqn:Em.
  - cbn [fst snd Simple.waiting simplePageShape].
    rewrite Simple_startAutoSimulation_guard_closed by exact Hi.
    split; [ reflexivity | ]. split; [ exact Hc | exact Hl ].
  - cbn [andb] in Hm. unfold Simple.executeNextStepStart. rewrite Hm. cbv zeta.
    assert (Hlt : Simple.currentStep (Simple.sim w) < 3).
    { rewrite Z.geb_leb in Hm. apply Z.leb_gt in Hm. lia. }
    pose proof (Simple_executeStepStart_frame (Simple.sim w)
                  (Simple.currentStep (Simple.sim w) + 1)
                  (Simple.setIsSimulating true w)) as F.
    cbv zeta in F.
    destruct (Simple.executeStepStart (Simple.sim w)
                (Simple.currentStep (Simple.sim w) + 1)
                (Simple.setIsSimulating true w)) as [r w1].
    cbn [fst snd Simple.waiting simplePageShape] in *.
    destruct F as (Fi & Fc & Fl). rewrite Fi, Fc.
    split; [ reflexivity | ]. split; [ reflexivity | ].
    split; [ change (0 <= Simple.currentStep (Simple.sim w) < 3); lia | ].
    apply Fl. exact Hl.
Qed.

(** Every rendered page of the variant has the shape of a page between runs
    or of a page during one run: runs do not overlap. *)
Lemma Simple_rendered_shape (w : Simple.World) (ps : list Simple.Pending) :
  Simple.rendered w ps -> simplePageShape w ps.
Proof.
  induction 1 as [ rnd | o w ps Ho _ IH | w ps Hi _ IH | w ps Hd _ IH
                 | w ps1 p ps2 _ IH ].
  - unfold Simple.mounted. apply Simple_resetSimulation_settled.
  - apply Simple_config_shape; assumption.
  - destruct ps as [ | [snap b] [ | p' ps ] ]; cbn [simplePageShape] in *.
    + apply Simple_resetSimulation_settled.
    + destruct IH as (Ht & _). rewrite Ht in Hi. discriminate Hi.
    + contradiction.
  - destruct ps as [ | [snap b] [ | p' ps ] ]; cbn [simplePageShape] in IH.
    + cbn [app]. apply Simple_clickStart_shape; assumption.
    + destruct IH as (Ht & _). unfold Simple.startDisabled in Hd.
      rewrite Ht in Hd. discriminate Hd.
    + contradiction.
  - destruct ps1 as [ | q ps1 ].
    + destruct ps2 as [ | q ps2 ]; cbn [app] in IH.
      * cbn [app simplePageShape]. apply Simple_resume_settled. exact IH.
      * exfalso. destruct p. exact IH.
    + exfalso. destruct q. destruct ps1 as [ | q' ps1 ]; cbn [app simplePageShape] in IH;
        exact IH.
Qed.

Lemma simpleStepPage_rendered : Simple.rendered simpleStepPage [].
Proof.
  unfold simpleStepPage, Simple.applyOps. cbn [fold_left].
  apply Simple.rendered_config; [ reflexivity | ].
  apply Simple.rendered_mounted.
Qed.

Lemma simpleWaitPage_rendered :
  Simple.rendered simpleWaitPage
    [Simple.PacketWait (Simple.sim simpleStepPage) true].
Proof.
  assert (E : ([] ++ Simple.waiting
                       (fst (Simple.clickStart (Simple.sim simpleStepPage)
                               simpleStepPage)))%list =
              [Simple.PacketWait (Simple.sim simpleStepPage) true])
    by (vm_compute; reflexivity).
  rewrite <- E. apply Simple.rendered_start; [ vm_compute; reflexivity | ].
  apply simpleStepPage_rendered.
Qed.

(** X14. On every page the variant renders, between runs or during one,
    [isSimulating] is [true] exactly while a run is in progress, and at most
    one run is: the buttons are disabled during a run.  The step counter lies
    in 0..3, below 3 during a run, and the log holds at most five lines. *)
Theorem Simple_rendered_page (w : Simple.World) (ps : list Simple.Pending) :
  Simple.rendered w ps ->
  (length ps <= 1)%nat /\
  (Simple.isSimulating (Simple.sim w) = true <-> ps <> []) /\
  (ps <> [] -> Simple.startDisabled (Simple.sim w) = true /\
               Simple.currentStep (Simple.sim w) < 3) /\
  0 <= Simple.currentStep (Simple.sim w) <= 3 /\
  (length (Simple.logs (Simple.sim w)) <= 5)%nat.
Proof.
  intros Hr. apply Simple_rendered_shape in Hr.
  destruct ps as [ | [snap r] [ | p' ps ] ]; cbn [simplePageShape] in Hr;
    [ | | contradiction ].
  - destruct Hr as (Hi & Hc & Hl).
    split; [ cbn; lia | ].
    split; [ rewrite Hi; split; [ discriminate | intros H; contradiction H; reflexivity ] | ].
    split; [ intros H; contradiction H; reflexivity | ].
    split; assumption.
  - destruct Hr as (Hi & _ & Hc & Hl).
    split; [ cbn; lia | ].
    split; [ split; [ discriminate | intros _; exact Hi ] | ].
    split; [ intros _; split; [ unfold Simple.startDisabled; rewrite Hi; reflexivity | lia ] | ].
    split; [ lia | exact Hl ].
Qed.

Lemma Simple_rendered_page_witness :
  Simple.isSimulating (Simple.sim simpleWaitPage) = true /\
  Simple.startDisabled (Simple.sim simpleWaitPage) = true.
Proof.
  destruct (Simple_rendered_page _ _ simpleWaitPage_rendered) as (_ & Hi & Hd & _).
  split; [ apply (proj2 Hi) | apply Hd ]; discriminate.
Defined.





